(** * JetBrains recent-projects scanner: a shallow embedding of
      [jetbrains_projects.py] and the properties of its specification.

    The development follows the script top to bottom: Python strings and
    the few [str] methods the script calls, the ElementTree view of a
    metadata file, the [JetBrainsProject] record, the per-file parser, the
    directory scan, the two report views, the JSON export and [main].
    Strings are byte strings (UTF-8); the placeholder tokens and every
    literal the script compares against are ASCII, and byte-wise
    lexicographic order on UTF-8 coincides with Python's code-point order. *)

From stdpp Require Import gmap strings list fin_maps pretty sorting.
From Stdlib Require Import ZArith Ascii.

Local Open Scope string_scope.
Local Open Scope list_scope.
Local Set Warnings "-register-all".

(** ** Python strings *)

(** [bool(s)] for a [str]: only the empty string is falsy. *)
Definition truthy (s : string) : bool :=
  match s with
  | EmptyString => false
  | String _ _ => true
  end.

(** [s.startswith(p)]. *)
Fixpoint startswith (s p : string) {struct p} : bool :=
  match p with
  | EmptyString => true
  | String a p' =>
      match s with
      | EmptyString => false
      | String b s' => if Ascii.eqb a b then startswith s' p' else false
      end
  end.

(** [needle in s]: [needle] occurs at some position of [s]. *)
Fixpoint contains (needle s : string) : bool :=
  startswith s needle ||
  match s with
  | EmptyString => false
  | String _ s' => contains needle s'
  end.

(** [s.replace(old, new)] for a non-empty [old] (the script only passes the
    two placeholder literals): scan left to right; where [old] starts, emit
    [new] and jump over the match, otherwise copy one character. [skip] is
    the number of characters of the current match still to jump over. *)
Fixpoint replace_from (old new : string) (skip : nat) (s : string) : string :=
  match s with
  | EmptyString => EmptyString
  | String c s' =>
      match skip with
      | S k => replace_from old new k s'
      | O =>
          if startswith s old
          then new +:+ replace_from old new (String.length old - 1) s'
          else String c (replace_from old new 0 s')
      end
  end.

Definition replace (s old new : string) : string := replace_from old new 0 s.

(** [x or d] where [x] is a [str] or [None]. *)
Definition py_or (x : option string) (d : string) : string :=
  match x with
  | Some s => if truthy s then s else d
  | None => d
  end.

(** [bool(x)] where [x] is a [str] or [None]. *)
Definition truthy_opt (x : option string) : bool :=
  match x with
  | Some s => truthy s
  | None => false
  end.

(** An f-string field [{x}] where [x] is a [str] or [None]. *)
Definition fstr (x : option string) : string := default "None" x.

(** [s * n]. *)
Fixpoint str_mul (s : string) (n : nat) : string :=
  match n with
  | O => EmptyString
  | S n' => s +:+ str_mul s n'
  end.

(** ** Exceptions *)

(** A Python computation either returns or raises; an exception is kept as
    its message [str(e)]. *)
Inductive result (A : Type) : Type :=
  | Ok (a : A)
  | Raise (msg : string).
Arguments Ok {A} a.
Arguments Raise {A} msg.

Definition is_ok {A} (r : result A) : bool :=
  match r with
  | Ok _ => true
  | Raise _ => false
  end.

(** ** [int(s)] on a string *)

Definition is_digit (c : ascii) : bool :=
  let n := Ascii.nat_of_ascii c in (48 <=? n)%nat && (n <=? 57)%nat.

Definition is_alpha (c : ascii) : bool :=
  let n := Ascii.nat_of_ascii c in
  ((65 <=? n)%nat && (n <=? 90)%nat) || ((97 <=? n)%nat && (n <=? 122)%nat).

Definition is_space (c : ascii) : bool :=
  let n := Ascii.nat_of_ascii c in
  ((9 <=? n)%nat && (n <=? 13)%nat) || (n =? 32)%nat.

Fixpoint lstrip (s : string) : string :=
  match s with
  | EmptyString => EmptyString
  | String c s' => if is_space c then lstrip s' else s
  end.

Definition strip (s : string) : string :=
  String.rev (lstrip (String.rev (lstrip s))).

(** Decimal digits with single underscores allowed between two digits. *)
Fixpoint digits_value (acc : Z) (after_digit : bool) (s : string) : option Z :=
  match s with
  | EmptyString => if after_digit then Some acc else None
  | String c s' =>
      if is_digit c
      then digits_value (10 * acc + Z.of_nat (Ascii.nat_of_ascii c - 48)) true s'
      else if Ascii.eqb c "_"%char && after_digit
           then match s' with
                | EmptyString => None
                | String _ _ => digits_value acc false s'
                end
           else None
  end.

(** [int(s)] in base 10, for ASCII input: surrounding whitespace, an
    optional sign, then digits. Anything else raises [ValueError]. *)
Definition py_int (s : string) : result Z :=
  let body := strip s in
  let parsed :=
    match body with
    | String "-" ds => Z.opp <$> digits_value 0 false ds
    | String "+" ds => digits_value 0 false ds
    | _ => digits_value 0 false body
    end in
  match parsed with
  | Some z => Ok z
  | None => Raise ("invalid literal for int() with base 10: '" +:+ s +:+ "'")
  end.

(** ** ElementTree elements *)

(** An element as [xml.etree.ElementTree] exposes it to the script: a tag,
    the attribute dictionary (attribute names are unique in well-formed
    markup; the first binding is the one looked up) and the child elements
    in document order. Text and tail are never read by the script. *)
Inductive element : Type :=
  Element (tag : string) (attrib : list (string * string)) (children : list element).

Definition tag (e : element) : string :=
  match e with Element t _ _ => t end.
Definition attrib (e : element) : list (string * string) :=
  match e with Element _ a _ => a end.
Definition children (e : element) : list element :=
  match e with Element _ _ c => c end.

Fixpoint assoc (k : string) (l : list (string * string)) : option string :=
  match l with
  | [] => None
  | (k', v) :: l' => if decide (k' = k) then Some v else assoc k l'
  end.

(** [e.get(k)]: the attribute value, or [None]. *)
Definition get (e : element) (k : string) : option string := assoc k (attrib e).

(** [e.get(k, d)]. *)
Definition get_or (e : element) (k d : string) : string := default d (get e k).

(** [e.iter()]: the element and all its descendants, in document order. *)
Fixpoint iter (e : element) : list element :=
  match e with
  | Element _ _ cs => e :: flat_map iter cs
  end.

(** The step [.//] of an element path: every descendant, the element itself
    excluded. *)
Definition descendants (e : element) : list element := flat_map iter (children e).

Definition has_tag (t : string) (e : element) : bool := bool_decide (tag e = t).

(** The predicate [[@k="v"]] of an element path. *)
Definition has_attr (k v : string) (e : element) : bool :=
  bool_decide (get e k = Some v).

(** [e.findall('t')]: the direct children with tag [t]. *)
Definition findall_child (t : string) (e : element) : list element :=
  filter (λ c, has_tag t c = true) (children e).

(** [e.find('t')]. *)
Definition find_child (t : string) (e : element) : option element :=
  head (findall_child t e).

(** [e.findall('.//t')]. *)
Definition findall_desc (t : string) (e : element) : list element :=
  filter (λ c, has_tag t c = true) (descendants e).

(** [e.find('.//t')]. *)
Definition find_desc (t : string) (e : element) : option element :=
  head (findall_desc t e).

(** [e.find('.//option[@name="v"]')]. *)
Definition find_option_named (v : string) (e : element) : option element :=
  head (filter (λ c, has_attr "name" v c = true) (findall_desc "option" e)).

(** [e.find('.//option[@name="v"]/t')]: the children tagged [t] of the
    selected options, the options taken in document order. *)
Definition find_option_named_child (v t : string) (e : element) : option element :=
  head (flat_map (findall_child t)
          (filter (λ c, has_attr "name" v c = true) (findall_desc "option" e))).

(** ** The project record *)

(** Every attribute that [__init__] reads out of [data] holds a [str] or
    [None]. [is_last_opened] is not set by [__init__]: the attribute exists
    only on the objects the parser assigns it to, so [None] stands for
    "the object has no such attribute". *)
Record JetBrainsProject : Type := mkProject {
  ide_name : string;
  ide_version : string;
  project_path : string;
  display_name : option string;
  frame_title : option string;
  activation_timestamp : option string;
  project_open_timestamp : option string;
  build : option string;
  metadata : option string;
  frame : option string;
  color_index : option string;
  is_last_opened : option bool
}.

(** [data.get(k)] and [data.get(k, d)] on a dictionary whose values are
    [str] or [None]. *)
Definition dict_get (data : gmap string (option string)) (k : string) : option string :=
  default None (data !! k).

Definition dict_get_or (data : gmap string (option string)) (k d : string) : option string :=
  default (Some d) (data !! k).

(** [JetBrainsProject.__init__]. *)
Definition new_project (ide_name ide_version project_path : string)
    (data : gmap string (option string)) : JetBrainsProject :=
  {| ide_name := ide_name;
     ide_version := ide_version;
     project_path := project_path;
     display_name := dict_get_or data "displayName" "";
     frame_title := dict_get_or data "frameTitle" "";
     activation_timestamp := dict_get data "activationTimestamp";
     project_open_timestamp := dict_get data "projectOpenTimestamp";
     build := dict_get_or data "build" "";
     metadata := dict_get_or data "metadata" "";
     frame := dict_get_or data "frame" "";
     color_index := dict_get data "colorIndex";
     is_last_opened := None |}.

(** [project.is_last_opened = True]. *)
Definition set_last_opened (p : JetBrainsProject) : JetBrainsProject :=
  {| ide_name := ide_name p;
     ide_version := ide_version p;
     project_path := project_path p;
     display_name := display_name p;
     frame_title := frame_title p;
     activation_timestamp := activation_timestamp p;
     project_open_timestamp := project_open_timestamp p;
     build := build p;
     metadata := metadata p;
     frame := frame p;
     color_index := color_index p;
     is_last_opened := Some true |}.

(** ** The world the script runs in *)

(** A [datetime] is only ever rendered, with [strftime('%Y-%m-%d %H:%M:%S')]
    and with [isoformat()]; both depend on the local time zone, so a value
    is kept as its two renderings. *)
Record datetime : Type := mkDatetime {
  dt_strftime : string;
  dt_isoformat : string
}.

(** What the script observes of its environment. Paths are strings;
    [w_iterdir] lists the names in a directory in the order the operating
    system returns them. *)
Record World : Type := mkWorld {
  w_home : result string;                  (* str(Path.home()) *)
  w_exists : string → bool;                (* Path.exists, os.path.exists *)
  w_is_dir : string → bool;                (* Path.is_dir *)
  w_iterdir : string → list string;        (* names yielded by Path.iterdir *)
  w_et_parse : string → result element;    (* ET.parse(p).getroot() *)
  w_json_output_path : option string;      (* os.environ.get('JSON_OUTPUT_PATH') *)
  w_fromtimestamp_ms : Z → result datetime; (* datetime.fromtimestamp(n / 1000) *)
  w_stem : string → string                 (* Path(p).stem *)
}.

(** [a / b] on paths: [a] is a normalised path, [b] a single name. *)
Definition joinpath (a b : string) : string :=
  if bool_decide (a = "/") then a +:+ b else a +:+ "/" +:+ b.

(** ** Effects: standard output and the exported file *)

(** One interchange object of the export, with the keys of the dictionary
    that [export_to_json] builds. A [None] is serialised as [null]. *)
Record json_object : Type := mkJson {
  j_ide_name : string;
  j_ide_version : string;
  j_project_path : string;
  j_display_name : option string;
  j_frame_title : option string;
  j_activation_timestamp : option string;
  j_project_open_timestamp : option string;
  j_activation_time : option string;
  j_build : option string;
  j_frame : option string;
  j_color_index : option string;
  j_exists : bool
}.

(** What a run leaves behind: the texts passed to [print], in order, and the
    files written with [json.dump]. Opening the output file for writing is
    taken to succeed. *)
Inductive event : Type :=
  | Print (text : string)
  | WriteJson (file : string) (data : list json_object).

(** A computation with effects: the events it performed, and how it ended. *)
Definition Py (A : Type) : Type := list event * result A.

#[global] Instance result_ret : MRet result := λ A a, Ok a.
#[global] Instance result_bind : MBind result := λ A B f m,
  match m with
  | Ok a => f a
  | Raise msg => Raise msg
  end.

#[global] Instance result_fmap : FMap result := λ A B f m,
  match m with
  | Ok a => Ok (f a)
  | Raise msg => Raise msg
  end.

#[global] Instance py_ret : MRet Py := λ A a, ([], Ok a).
#[global] Instance py_bind : MBind Py := λ A B f m,
  match m with
  | (t, Ok a) => let '(t', r) := f a in (t ++ t', r)
  | (t, Raise msg) => (t, Raise msg)
  end.

Definition print (text : string) : Py unit := ([Print text], Ok tt).

Definition write_json (file : string) (data : list json_object) : Py unit :=
  ([WriteJson file data], Ok tt).

(** A computation without output inside one with output. *)
Definition lift {A} (r : result A) : Py A := ([], r).

Definition trace {A} (m : Py A) : list event := m.1.
Definition outcome {A} (m : Py A) : result A := m.2.

(** ** [parse_recent_projects_xml] *)

(** Lines 65-69: the key of an entry with the two home placeholders
    replaced. [Path.home()] is evaluated once for each replacement. *)
Definition entry_project_path (w : World) (entry : element) : result string :=
  let project_path := get_or entry "key" "" in
  home ← w_home w;
  let project_path := replace project_path "$USER_HOME$" home in
  home ← w_home w;
  let project_path := replace project_path "$HOME$" home in
  mret project_path.

(** Lines 78-82: one [option] child of the metadata element. *)
Definition add_option (project_data : gmap string (option string)) (option_elem : element)
    : gmap string (option string) :=
  match get option_elem "name", get option_elem "value" with
  | Some name, Some value =>
      if truthy name && truthy value
      then <[name := Some value]> project_data
      else project_data
  | _, _ => project_data
  end.

(** Lines 92-95: the f-string built from a [frame] element. *)
Definition frame_text (frame : element) : string :=
  "x=" +:+ fstr (get frame "x") +:+ " y=" +:+ fstr (get frame "y") +:+
  " w=" +:+ fstr (get frame "width") +:+ " h=" +:+ fstr (get frame "height").

(** Lines 75-95: the dictionary filled from a metadata element. *)
Definition meta_info_data (meta_info : element) : gmap string (option string) :=
  let project_data : gmap string (option string) := ∅ in
  let project_data := <["displayName" := Some (get_or meta_info "displayName" "")]> project_data in
  let project_data := <["frameTitle" := Some (get_or meta_info "frameTitle" "")]> project_data in
  let project_data := foldl add_option project_data (findall_child "option" meta_info) in
  let project_data :=
    match find_desc "RecentProjectColorInfo" meta_info with
    | Some color_info => <["colorIndex" := get color_info "associatedIndex"]> project_data
    | None => project_data
    end in
  match find_child "frame" meta_info with
  | Some frame => <["frame" := Some (frame_text frame)]> project_data
  | None => project_data
  end.

(** Lines 72-95. *)
Definition entry_data (entry : element) : gmap string (option string) :=
  match find_desc "RecentProjectMetaInfo" entry with
  | Some meta_info => meta_info_data meta_info
  | None => ∅
  end.

(** Lines 65-97 without the [append]: the record built for one entry. *)
Definition entry_project (w : World) (ide_name ide_version : string) (entry : element)
    : result JetBrainsProject :=
  project_path ← entry_project_path w entry;
  mret (new_project ide_name ide_version project_path (entry_data entry)).

(** Lines 64-97: the loop over the entries. The state is the list
    [projects]; an exception leaves the loop with the list as it is. *)
Fixpoint entries_loop (w : World) (ide_name ide_version : string)
    (entries : list element) (projects : list JetBrainsProject)
    : list JetBrainsProject * option string :=
  match entries with
  | [] => (projects, None)
  | entry :: rest =>
      match entry_project w ide_name ide_version entry with
      | Ok project => entries_loop w ide_name ide_version rest (projects ++ [project])
      | Raise msg => (projects, Some msg)
      end
  end.

(** Lines 104-106: the assignment is made on every object of the list whose
    path is equal to the designator. *)
Definition mark_last_opened (last_project_path : string)
    (projects : list JetBrainsProject) : list JetBrainsProject :=
  (λ project,
     if decide (project_path project = last_project_path)
     then set_last_opened project
     else project) <$> projects.

(** Line 60. *)
Definition is_recent_component (component : element) : bool :=
  let name_attr := get_or component "name" "" in
  contains "RecentProject" name_attr || contains "RecentSolution" name_attr.

(** Lines 59-106: the body of the loop over the components. *)
Definition component_body (w : World) (ide_name ide_version : string)
    (component : element) (projects : list JetBrainsProject)
    : list JetBrainsProject * option string :=
  if is_recent_component component then
    let '(projects, raised) :=
      match find_option_named_child "additionalInfo" "map" component with
      | Some map_elem =>
          entries_loop w ide_name ide_version (findall_child "entry" map_elem) projects
      | None => (projects, None)
      end in
    match raised with
    | Some msg => (projects, Some msg)
    | None =>
        match find_option_named "lastOpenedProject" component with
        | Some last_project_option =>
            let last_project_path := get_or last_project_option "value" "" in
            (mark_last_opened last_project_path projects, None)
        | None => (projects, None)
        end
    end
  else (projects, None).

(** Lines 58-106. *)
Fixpoint components_loop (w : World) (ide_name ide_version : string)
    (components : list element) (projects : list JetBrainsProject)
    : list JetBrainsProject * option string :=
  match components with
  | [] => (projects, None)
  | component :: rest =>
      match component_body w ide_name ide_version component projects with
      | (projects, None) => components_loop w ide_name ide_version rest projects
      | (projects, Some msg) => (projects, Some msg)
      end
  end.

(** Lines 53-106: the body of the [try]. *)
Definition try_body (w : World) (file_path ide_name ide_version : string)
    : list JetBrainsProject * option string :=
  match w_et_parse w file_path with
  | Ok root => components_loop w ide_name ide_version (findall_desc "component" root) []
  | Raise msg => ([], Some msg)
  end.

(** Lines 49-111. Every exception of the body is caught and printed; the
    function returns [projects] as the body left it. *)
Definition parse_recent_projects_xml (w : World) (file_path ide_name ide_version : string)
    : Py (list JetBrainsProject) :=
  match try_body w file_path ide_name ide_version with
  | (projects, Some msg) =>
      print ("Error parsing " +:+ file_path +:+ ": " +:+ msg);;
      mret projects
  | (projects, None) => mret projects
  end.

(** ** [find_all_recent_projects] *)

(** The longest prefix of [s] whose characters satisfy [p], and the rest. *)
Fixpoint span (p : ascii → bool) (s : string) : string * string :=
  match s with
  | EmptyString => (EmptyString, EmptyString)
  | String c s' =>
      if p c
      then let '(a, b) := span p s' in (String c a, b)
      else (EmptyString, s)
  end.

(** Line 132: [re.match(r'([A-Za-z]+)(\d+\.\d+(?:\.\d+)?)', name)] and its two
    groups, for ASCII digits. The character classes of consecutive pieces
    are disjoint, so the greedy match is the only candidate. *)
Definition match_ide_dir (ide_full_name : string) : option (string * string) :=
  let '(letters, r1) := span is_alpha ide_full_name in
  let '(major, r2) := span is_digit r1 in
  if truthy letters && truthy major then
    match r2 with
    | String "." r3 =>
        let '(minor, r4) := span is_digit r3 in
        if truthy minor then
          let short := major +:+ "." +:+ minor in
          match r4 with
          | String "." r5 =>
              let '(patch, _) := span is_digit r5 in
              if truthy patch
              then Some (letters, short +:+ "." +:+ patch)
              else Some (letters, short)
          | _ => Some (letters, short)
          end
        else None
    | _ => None
    end
  else None.

(** Lines 132-138. *)
Definition split_ide_name (ide_full_name : string) : string * string :=
  match match_ide_dir ide_full_name with
  | Some (ide_name, ide_version) => (ide_name, ide_version)
  | None => (ide_full_name, "Unknown")
  end.

(** Lines 143-147: the loop over the two file names. *)
Fixpoint xml_files_loop (w : World) (options_dir ide_name ide_version : string)
    (xml_files : list string) (all_projects : list JetBrainsProject)
    : Py (list JetBrainsProject) :=
  match xml_files with
  | [] => mret all_projects
  | xml_file :: rest =>
      let xml_path := joinpath options_dir xml_file in
      if w_exists w xml_path then
        projects ← parse_recent_projects_xml w xml_path ide_name ide_version;
        xml_files_loop w options_dir ide_name ide_version rest (all_projects ++ projects)
      else xml_files_loop w options_dir ide_name ide_version rest all_projects
  end.

(** Lines 126-147: the body of the loop over the installation directories. *)
Definition ide_dir_body (w : World) (config_dir ide_full_name : string)
    (all_projects : list JetBrainsProject) : Py (list JetBrainsProject) :=
  let ide_dir := joinpath config_dir ide_full_name in
  if w_is_dir w ide_dir then
    let '(ide_name, ide_version) := split_ide_name ide_full_name in
    let options_dir := joinpath ide_dir "options" in
    if w_exists w options_dir then
      xml_files_loop w options_dir ide_name ide_version
        ["recentProjects.xml"; "recentSolutions.xml"] all_projects
    else mret all_projects
  else mret all_projects.

(** Lines 125-147. *)
Fixpoint ide_dirs_loop (w : World) (config_dir : string) (names : list string)
    (all_projects : list JetBrainsProject) : Py (list JetBrainsProject) :=
  match names with
  | [] => mret all_projects
  | ide_full_name :: rest =>
      all_projects ← ide_dir_body w config_dir ide_full_name all_projects;
      ide_dirs_loop w config_dir rest all_projects
  end.

(** Lines 114-149. *)
Definition find_all_recent_projects (w : World) : Py (list JetBrainsProject) :=
  home ← lift (w_home w);
  let config_dir := joinpath (joinpath home ".config") "JetBrains" in
  if w_exists w config_dir then
    ide_dirs_loop w config_dir (w_iterdir w config_dir) []
  else
    print ("Config directory not found: " +:+ config_dir);;
    mret [].

(** ** Timestamps *)

(** Lines 28-36: the body shared by [get_activation_time] and
    [get_open_time]; the division by 1000 and the conversion to local time
    are the world's. *)
Definition timestamp_time (w : World) (timestamp : option string)
    : result (option datetime) :=
  if truthy_opt timestamp then
    n ← py_int (default "" timestamp);
    dt ← w_fromtimestamp_ms w n;
    mret (Some dt)
  else mret None.

Definition get_activation_time (w : World) (p : JetBrainsProject) : result (option datetime) :=
  timestamp_time w (activation_timestamp p).

Definition get_open_time (w : World) (p : JetBrainsProject) : result (option datetime) :=
  timestamp_time w (project_open_timestamp p).

(** ** Sorting *)

(** [sorted] and [list.sort] are stable. [before y x] says that [y] has to
    come strictly before [x] in the result; [x], which stood in front of
    the already sorted [l], passes exactly the elements that have to come
    before it. *)
Fixpoint insert_by {A} (before : A → A → bool) (x : A) (l : list A) : list A :=
  match l with
  | [] => [x]
  | y :: l' => if before y x then y :: insert_by before x l' else x :: l
  end.

Definition sorted_by {A} (before : A → A → bool) (l : list A) : list A :=
  foldr (insert_by before) [] l.

(** [lambda p: p.activation_timestamp or '0']. *)
Definition sort_key (p : JetBrainsProject) : string :=
  py_or (activation_timestamp p) "0".

(** [sorted(l, key=sort_key, reverse=True)], also [l.sort(...)]: keys are
    strings and compare as strings; with [reverse=True] a larger key comes
    first and equal keys keep their order. *)
Definition sort_by_activation (l : list JetBrainsProject) : list JetBrainsProject :=
  sorted_by (λ y x, String.ltb (sort_key x) (sort_key y)) l.

(** [sorted(keys)] for strings. *)
Definition sorted_strings (l : list string) : list string :=
  sorted_by (λ y x, String.ltb y x) l.

(** ** The two report views *)

Definition nl : string := String "010"%char EmptyString.

Fixpoint for_each {A} (body : A → Py unit) (l : list A) : Py unit :=
  match l with
  | [] => mret tt
  | x :: l' => body x;; for_each body l'
  end.

(** [enumerate(l, 1)]. *)
Definition enumerate1 {A} (l : list A) : list (nat * A) :=
  zip (seq 1 (length l)) l.

(** Line 157. *)
Definition ide_key (project : JetBrainsProject) : string :=
  ide_name project +:+ " " +:+ ide_version project.

(** Lines 156-160. *)
Definition group_add (projects_by_ide : gmap string (list JetBrainsProject))
    (project : JetBrainsProject) : gmap string (list JetBrainsProject) :=
  let key := ide_key project in
  let projects_by_ide :=
    match projects_by_ide !! key with
    | None => <[key := []]> projects_by_ide
    | Some _ => projects_by_ide
    end in
  alter (λ l, l ++ [project]) key projects_by_ide.

(** Lines 155-167: the grouped view. *)
Definition grouped_view (projects : list JetBrainsProject)
    : gmap string (list JetBrainsProject) :=
  sort_by_activation <$> foldl group_add ∅ projects.

(** Lines 221-225: the global view. *)
Definition global_view (projects : list JetBrainsProject) : list JetBrainsProject :=
  sort_by_activation projects.

Definition when (b : bool) (m : Py unit) : Py unit := if b then m else mret tt.

(** Lines 181-208. *)
Definition display_ide_entry (w : World) (entry : nat * JetBrainsProject) : Py unit :=
  let '(i, project) := entry in
  print (nl +:+ "[" +:+ pretty i +:+ "] " +:+
         py_or (display_name project) (w_stem w (project_path project)));;
  print ("    Path: " +:+ project_path project);;
  when (truthy_opt (frame_title project))
    (print ("    Frame: " +:+ fstr (frame_title project)));;
  activation ← lift (get_activation_time w project);
  match activation with
  | Some dt => print ("    Last activated: " +:+ dt_strftime dt)
  | None => mret tt
  end;;
  open_time ← lift (get_open_time w project);
  match open_time with
  | Some dt => print ("    Opened at: " +:+ dt_strftime dt)
  | None => mret tt
  end;;
  when (truthy_opt (build project))
    (print ("    Build: " +:+ fstr (build project)));;
  when (truthy_opt (frame project))
    (print ("    Window: " +:+ fstr (frame project)));;
  match color_index project with
  | Some c => print ("    Color index: " +:+ c)
  | None => mret tt
  end;;
  if w_exists w (project_path project)
  then print "    Status: ✓ Exists"
  else print "    Status: ✗ Not found".

(** Lines 176-208. *)
Definition display_ide_group (w : World)
    (projects_by_ide : gmap string (list JetBrainsProject)) (key : string) : Py unit :=
  print (nl +:+ str_mul "=" 80);;
  print ("  " +:+ key);;
  print (str_mul "=" 80);;
  for_each (display_ide_entry w) (enumerate1 (default [] (projects_by_ide !! key))).

(** Lines 152-212. *)
Definition display_projects_by_ide (w : World) (projects : list JetBrainsProject) : Py unit :=
  let projects_by_ide := grouped_view projects in
  print (str_mul "=" 80);;
  print "JetBrains IDE Recent Projects";;
  print (str_mul "=" 80);;
  print "";;
  for_each (display_ide_group w projects_by_ide)
    (sorted_strings (elements (dom projects_by_ide)));;
  print (nl +:+ str_mul "=" 80);;
  print ("Total projects found: " +:+ pretty (length projects));;
  print (str_mul "=" 80).

(** Lines 228-239. *)
Definition display_sorted_entry (w : World) (entry : nat * JetBrainsProject) : Py unit :=
  let '(i, project) := entry in
  activation ← lift (get_activation_time w project);
  let activation_str :=
    match activation with
    | Some dt => dt_strftime dt
    | None => "N/A"
    end in
  let name := py_or (display_name project) (w_stem w (project_path project)) in
  let exists_mark := if w_exists w (project_path project) then "✓" else "✗" in
  print (nl +:+ "[" +:+ pretty i +:+ "] " +:+ exists_mark +:+ " " +:+ name);;
  print ("    IDE: " +:+ ide_name project +:+ " " +:+ ide_version project);;
  print ("    Path: " +:+ project_path project);;
  print ("    Last activated: " +:+ activation_str);;
  when (truthy_opt (frame_title project))
    (print ("    Frame: " +:+ fstr (frame_title project))).

(** Lines 215-239. *)
Definition display_all_projects_sorted (w : World) (projects : list JetBrainsProject)
    : Py unit :=
  print (nl +:+ str_mul "=" 80);;
  print "All Projects (sorted by last activation)";;
  print (str_mul "=" 80);;
  let sorted_projects := global_view projects in
  for_each (display_sorted_entry w) (enumerate1 sorted_projects).

(** ** [export_to_json] and [main] *)

(** Lines 249-262: the dictionary built for one project. The conditional
    expression calls [get_activation_time] for its test and again for its
    value; [os.path.exists] is asked here. *)
Definition export_object (w : World) (project : JetBrainsProject) : result json_object :=
  test ← get_activation_time w project;
  activation_time ←
    match test with
    | Some _ => dt ← get_activation_time w project; mret (dt_isoformat <$> dt)
    | None => mret None
    end;
  mret {| j_ide_name := ide_name project;
          j_ide_version := ide_version project;
          j_project_path := project_path project;
          j_display_name := display_name project;
          j_frame_title := frame_title project;
          j_activation_timestamp := activation_timestamp project;
          j_project_open_timestamp := project_open_timestamp project;
          j_activation_time := activation_time;
          j_build := build project;
          j_frame := frame project;
          j_color_index := color_index project;
          j_exists := w_exists w (project_path project) |}.

(** Lines 247-262: the loop that fills [data]. *)
Fixpoint export_data (w : World) (projects : list JetBrainsProject)
    (data : list json_object) : result (list json_object) :=
  match projects with
  | [] => mret data
  | project :: rest =>
      obj ← export_object w project;
      export_data w rest (data ++ [obj])
  end.

(** Lines 242-267. *)
Definition export_to_json (w : World) (projects : list JetBrainsProject)
    (output_file : option string) : Py unit :=
  let output_file :=
    match output_file with
    | None => default "jetbrains_projects.json" (w_json_output_path w)
    | Some f => f
    end in
  data ← lift (export_data w projects []);
  write_json output_file data;;
  print (nl +:+ "Exported to " +:+ output_file).

(** Lines 270-292. *)
Definition main (w : World) : Py unit :=
  if bool_decide (is_Some (w_json_output_path w)) then
    projects ← find_all_recent_projects w;
    export_to_json w projects None
  else
    print "Scanning JetBrains IDE configurations...";;
    projects ← find_all_recent_projects w;
    match projects with
    | [] => print "No projects found."
    | _ :: _ =>
        display_projects_by_ide w projects;;
        display_all_projects_sorted w projects;;
        export_to_json w projects None
    end.

(** ** Vocabulary of the statements *)

Fixpoint has_char (c : ascii) (s : string) : bool :=
  match s with
  | EmptyString => false
  | String c' s' => Ascii.eqb c c' || has_char c s'
  end.

(** A home directory as [Path.home()] returns it for an ordinary account:
    it has a slash and no dollar sign. *)
Definition plain_home (home : string) : bool :=
  has_char "/" home && negb (has_char "$" home).

(** Lines 68-69 once the home directory is known. *)
Definition expand_home (home project_path : string) : string :=
  replace (replace project_path "$USER_HOME$" home) "$HOME$" home.

(** The entries that line 64 visits for one component. *)
Definition recent_entries (component : element) : list element :=
  match find_option_named_child "additionalInfo" "map" component with
  | Some map_elem => findall_child "entry" map_elem
  | None => []
  end.

(** The components of a file that pass the test of line 60. *)
Definition recent_components (root : element) : list element :=
  filter (λ c, is_recent_component c = true) (findall_desc "component" root).

(** The entries visited in a file, component after component. *)
Definition file_entries (root : element) : list element :=
  flat_map recent_entries (recent_components root).

(** The designator of a component: the [value] that line 102 reads. *)
Definition designator (component : element) : option string :=
  (λ o, get_or o "value" "") <$> find_option_named "lastOpenedProject" component.

(** The name under which lines 79-82 store the value of an [option]
    child, if they store it. *)
Definition stored_name (option_elem : element) : option string :=
  match get option_elem "name", get option_elem "value" with
  | Some name, Some value =>
      if truthy name && truthy value then Some name else None
  | _, _ => None
  end.

(** The names under which the loop of lines 78-82 stores a value. *)
Definition option_names (meta_info : element) : list string :=
  omap stored_name (findall_child "option" meta_info).

Fixpoint all_digits (s : string) : bool :=
  match s with
  | EmptyString => true
  | String c s' => is_digit c && all_digits s'
  end.

(** The files that the scan hands to the parser, with the names they are
    parsed under, in the order of the scan. *)
Definition dir_jobs (w : World) (config_dir ide_full_name : string)
    : list (string * string * string) :=
  let ide_dir := joinpath config_dir ide_full_name in
  let options_dir := joinpath ide_dir "options" in
  if w_is_dir w ide_dir && w_exists w options_dir then
    (λ xml_file, (joinpath options_dir xml_file,
                   (split_ide_name ide_full_name).1,
                   (split_ide_name ide_full_name).2))
      <$> filter (λ xml_file, w_exists w (joinpath options_dir xml_file) = true)
            ["recentProjects.xml"; "recentSolutions.xml"]
  else [].

Definition scan_jobs (w : World) (home : string) : list (string * string * string) :=
  let config_dir := joinpath (joinpath home ".config") "JetBrains" in
  if w_exists w config_dir
  then flat_map (dir_jobs w config_dir) (w_iterdir w config_dir)
  else [].

(** What one file contributes to the scan. *)
Definition job_projects (w : World) (job : string * string * string)
    : list JetBrainsProject :=
  (try_body w job.1.1 job.1.2 job.2).1.

Definition job_parses (w : World) (job : string * string * string) : bool :=
  bool_decide ((try_body w job.1.1 job.1.2 job.2).2 = None).

(** The records that lines 64-97 append for one component, for a known
    home directory. *)
Definition component_projects (home ide_name ide_version : string) (component : element)
    : list JetBrainsProject :=
  (λ entry, new_project ide_name ide_version
              (expand_home home (get_or entry "key" "")) (entry_data entry))
    <$> recent_entries component.

(** Lines 100-106 for one component. *)
Definition mark_component (component : element) (projects : list JetBrainsProject)
    : list JetBrainsProject :=
  match designator component with
  | Some last_project_path => mark_last_opened last_project_path projects
  | None => projects
  end.

(** One round of the loop of line 58 when nothing raises. *)
Definition component_step (home ide_name ide_version : string)
    (projects : list JetBrainsProject) (component : element) : list JetBrainsProject :=
  if is_recent_component component
  then mark_component component
         (projects ++ component_projects home ide_name ide_version component)
  else projects.

(** The list a file is parsed to when nothing raises. *)
Definition file_projects (home ide_name ide_version : string) (root : element)
    : list JetBrainsProject :=
  foldl (component_step home ide_name ide_version) [] (findall_desc "component" root).

(** A record differs from an earlier state of itself at most by the flag. *)
Definition flag_le (p p' : JetBrainsProject) : Prop :=
  p' = p ∨ p' = set_last_opened p.

(** A record has the flag only with the value [True], and only from the
    designator of a component that was handled. *)
Definition flag_from (designators : string → Prop) (p : JetBrainsProject) : Prop :=
  is_last_opened p = None ∨
  (is_last_opened p = Some true ∧ designators (project_path p)).

(** [x] may stand in front of [y] in a sorted list: [y] does not have to
    come before [x]. *)
Definition may_precede {A} (before : A → A → bool) (x y : A) : Prop :=
  before y x = false.

(** ** Sample inputs *)

Definition entry_with_key (key : string) : element :=
  Element "entry" [("key", key)] [].

(** A component with the given name holding a map of entries and,
    optionally, a designator. *)
Definition component_with (name : string) (entries : list element)
    (last_opened : option string) : element :=
  Element "component" [("name", name)]
    (Element "option" [("name", "additionalInfo")] [Element "map" [] entries]
     :: match last_opened with
        | Some v => [Element "option" [("name", "lastOpenedProject"); ("value", v)] []]
        | None => []
        end).

(** A world given by lists: the installation directories under the
    configuration root (each with an [options] directory), the metadata
    files with what parsing them gives, and the project paths that exist. *)
Definition config_root (home : string) : string :=
  joinpath (joinpath home ".config") "JetBrains".

Definition options_dir_of (home ide_full_name : string) : string :=
  joinpath (joinpath (config_root home) ide_full_name) "options".

Fixpoint parsed_file (files : list (string * result element)) (p : string)
    : result element :=
  match files with
  | [] => Raise "[Errno 2] No such file or directory"
  | (q, r) :: files' => if decide (q = p) then r else parsed_file files' p
  end.

Definition listed_world (home : string) (dirs : list string)
    (files : list (string * result element)) (existing : list string)
    (json_output_path : option string) : World :=
  {| w_home := Ok home;
     w_exists := λ p,
       bool_decide (p = config_root home) ||
       bool_decide (p ∈ options_dir_of home <$> dirs) ||
       bool_decide (p ∈ files.*1) ||
       bool_decide (p ∈ existing);
     w_is_dir := λ p, bool_decide (p ∈ joinpath (config_root home) <$> dirs);
     w_iterdir := λ p, if bool_decide (p = config_root home) then dirs else [];
     w_et_parse := parsed_file files;
     w_json_output_path := json_output_path;
     w_fromtimestamp_ms := λ n,
       Ok {| dt_strftime := "t" +:+ pretty n; dt_isoformat := "T" +:+ pretty n |};
     w_stem := λ p, p |}.

Definition pycharm_file (home : string) : string :=
  joinpath (options_dir_of home "PyCharm2024.3") "recentProjects.xml".

Definition rider_file (home : string) : string :=
  joinpath (options_dir_of home "Rider2025.1") "recentSolutions.xml".

(** One installation directory [PyCharm2024.3] whose [recentProjects.xml]
    parses to [parsed]. *)
Definition one_file_world (home : string) (parsed : result element)
    (json_output_path : option string) : World :=
  listed_world home ["PyCharm2024.3"] [(pycharm_file home, parsed)] [] json_output_path.

(** A metadata file of the usual shape: one section with two entries, the
    first with full metadata, the second bare, and a designator. *)
Definition sample_meta : element :=
  Element "RecentProjectMetaInfo"
    [("displayName", "proj"); ("frameTitle", "proj - main.py")]
    [Element "option" [("name", "activationTimestamp"); ("value", "1700000000000")] [];
     Element "option" [("name", "build"); ("value", "PY-243.1")] [];
     Element "frame" [("x", "0"); ("y", "25"); ("width", "1920"); ("height", "1055")] []].

Definition sample_root : element :=
  Element "application" []
    [component_with "RecentProjectsManager"
       [Element "entry" [("key", "$USER_HOME$/proj")] [Element "value" [] [sample_meta]];
        entry_with_key "/opt/other"]
       (Some "/opt/other")].

Definition sample_world : World :=
  one_file_world "/home/u" (Ok sample_root) None.

(** Two installation directories: the file of the first is not well-formed,
    the file of the second is [sample_root]. *)
Definition mixed_world : World :=
  listed_world "/home/u" ["PyCharm2024.3"; "Rider2025.1"]
    [(pycharm_file "/home/u", Raise "not well-formed (invalid token): line 1, column 0");
     (rider_file "/home/u", Ok sample_root)]
    ["/home/u/proj"] None.

(** A file with two recent-projects sections: the designator stands in
    the first section, the entry with that path in the second. *)
Definition two_section_root : element :=
  Element "application" []
    [component_with "RecentProjectsManager" [] (Some "/work/app");
     component_with "RecentSolutionsManager" [entry_with_key "/work/app"] None].

Definition two_section_world : World :=
  listed_world "/home/u" ["Rider2025.1"] [(rider_file "/home/u", Ok two_section_root)]
    [] None.

(** An account whose home directory is literally [/$HOME$], and a file that
    names that directory through the placeholder and in the designator. *)
Definition dollar_home_root : element :=
  Element "application" []
    [component_with "RecentProjectsManager" [entry_with_key "$HOME$"] (Some "/$HOME$")].

Definition dollar_home_world : World :=
  one_file_world "/$HOME$" (Ok dollar_home_root) None.

(** The usual file with a designator that uses the placeholder. *)
Definition placeholder_designator_root : element :=
  Element "application" []
    [component_with "RecentProjectsManager"
       [entry_with_key "$USER_HOME$/proj"; entry_with_key "/opt/other"]
       (Some "$USER_HOME$/proj")].

Definition placeholder_designator_world : World :=
  one_file_world "/home/u" (Ok placeholder_designator_root) None.

(** An entry whose window frame was saved without a height. *)
Definition partial_frame_meta : element :=
  Element "RecentProjectMetaInfo" [("frameTitle", "proj")]
    [Element "frame" [("x", "0"); ("y", "25"); ("width", "1920")] []].

Definition partial_frame_entry : element :=
  Element "entry" [("key", "/home/u/proj")] [Element "value" [] [partial_frame_meta]].

(** A record with the given path and activation timestamp. *)
Definition timed_project (path : string) (timestamp : option string) : JetBrainsProject :=
  new_project "PyCharm" "2024.3" path
    (match timestamp with
     | Some ts => {["activationTimestamp" := Some ts]}
     | None => ∅
     end).

(** [obj] is the dictionary that [export_to_json] builds for [p] in the
    world [w]. *)
Definition exported (w : World) (p : JetBrainsProject) (obj : json_object) : Prop :=
  j_ide_name obj = ide_name p ∧
  j_ide_version obj = ide_version p ∧
  j_project_path obj = project_path p ∧
  j_display_name obj = display_name p ∧
  j_frame_title obj = frame_title p ∧
  j_activation_timestamp obj = activation_timestamp p ∧
  j_project_open_timestamp obj = project_open_timestamp p ∧
  Ok (j_activation_time obj) =
    (λ t : option datetime, dt_isoformat <$> t) <$> get_activation_time w p ∧
  j_build obj = build p ∧
  j_frame obj = frame p ∧
  j_color_index obj = color_index p ∧
  j_exists obj = w_exists w (project_path p).

(** Both timestamps of [p] can be turned into times. *)
Definition timestamps_ok (w : World) (p : JetBrainsProject) : bool :=
  is_ok (get_activation_time w p) && is_ok (get_open_time w p).

(** The file name the export writes to. *)
Definition export_destination (w : World) (output_file : option string) : string :=
  match output_file with
  | Some f => f
  | None => default "jetbrains_projects.json" (w_json_output_path w)
  end.

(** A file whose only entry has an activation timestamp that is not a
    number. *)
Definition bad_timestamp_root : element :=
  Element "application" []
    [component_with "RecentProjectsManager"
       [Element "entry" [("key", "$USER_HOME$/proj")]
          [Element "value" []
             [Element "RecentProjectMetaInfo" []
                [Element "option" [("name", "activationTimestamp"); ("value", "n/a")] []]]]]
       None].

Definition bad_timestamp_world : World :=
  one_file_world "/home/u" (Ok bad_timestamp_root) None.

(** A configuration root without installation directories. *)
Definition empty_world : World := listed_world "/home/u" [] [] [] None.

(** [sample_world] when the script is started with [JSON_OUTPUT_PATH]. *)
Definition silent_world : World :=
  one_file_world "/home/u" (Ok sample_root) (Some "/tmp/out.json").

(** The two records of [sample_root], as the scan of [mixed_world] finds
    them. *)
Definition sample_projects : list JetBrainsProject :=
  file_projects "/home/u" "Rider" "2025.1" sample_root.

(** ** Vocabulary of the further properties *)

(** A character of the ASCII range. *)
Definition is_ascii (c : ascii) : bool := (Ascii.nat_of_ascii c <? 128)%nat.

(** Every character of [s] satisfies [p]. *)
Fixpoint all_chars (p : ascii → bool) (s : string) : bool :=
  match s with
  | EmptyString => true
  | String c s' => p c && all_chars p s'
  end.

(** [s] begins with a character that satisfies [p]. *)
Definition head_sat (p : ascii → bool) (s : string) : bool :=
  match s with
  | EmptyString => false
  | String c _ => p c
  end.

(** [s] begins with a dot followed by a digit: a further version number. *)
Definition head_patch (s : string) : bool :=
  match s with
  | String "." r => head_sat is_digit r
  | _ => false
  end.

(** What the parser prints for one file of the scan. *)
Definition job_log (w : World) (job : string * string * string) : list event :=
  match (try_body w job.1.1 job.1.2 job.2).2 with
  | Some msg => [Print ("Error parsing " +:+ job.1.1 +:+ ": " +:+ msg)]
  | None => []
  end.

(** The world [w] for a process whose home directory cannot be
    determined. *)
Definition without_home (w : World) : World :=
  {| w_home := Raise "Could not determine home directory.";
     w_exists := w_exists w;
     w_is_dir := w_is_dir w;
     w_iterdir := w_iterdir w;
     w_et_parse := w_et_parse w;
     w_json_output_path := w_json_output_path w;
     w_fromtimestamp_ms := w_fromtimestamp_ms w;
     w_stem := w_stem w |}.

(** The value of the last of the [option] elements that lines 79-82 store
    under the name [k]. *)
Definition last_stored (k : string) (options : list element) : option string :=
  last (omap (λ o, if decide (stored_name o = Some k) then get o "value" else None)
          options).

(** A metadata element whose options repeat a name and also use the names
    of the two attributes, of the colour and of the frame. *)
Definition overriding_meta : element :=
  Element "RecentProjectMetaInfo"
    [("displayName", "attr-name"); ("frameTitle", "attr-title")]
    [Element "option" [("name", "build"); ("value", "PY-1")] [];
     Element "option" [("name", "displayName"); ("value", "option-name")] [];
     Element "option" [("name", "build"); ("value", "PY-2")] [];
     Element "option" [("name", "build"); ("value", "")] [];
     Element "option" [("name", "colorIndex"); ("value", "7")] [];
     Element "option" [("name", "frame"); ("value", "option-frame")] [];
     Element "RecentProjectColorInfo" [("associatedIndex", "3")] [];
     Element "frame" [("x", "0"); ("y", "25"); ("width", "1920"); ("height", "1055")] []].

Definition overriding_entry : element :=
  Element "entry" [("key", "/home/u/proj")] [Element "value" [] [overriding_meta]].

(** The number that a run of decimal digits denotes, continuing from
    [acc]. *)
Fixpoint decimal_from (acc : Z) (s : string) : Z :=
  match s with
  | EmptyString => acc
  | String c s' => decimal_from (10 * acc + Z.of_nat (Ascii.nat_of_ascii c - 48)) s'
  end.

(** An event that is a call of [print]. *)
Definition is_print (e : event) : bool :=
  match e with
  | Print _ => true
  | WriteJson _ _ => false
  end.

(** A computation that writes no file. *)
Definition prints_only {A} (m : Py A) : Prop :=
  Forall (λ e, is_print e = true) (trace m).

(** The timestamps that a run of [main] over [projects] converts can all
    be converted: without [JSON_OUTPUT_PATH] the grouped report converts
    both timestamps of every record, with it only the export runs, which
    converts the activation timestamp. *)
Definition run_converts (w : World) (projects : list JetBrainsProject) : Prop :=
  match w_json_output_path w with
  | Some _ => Forall (λ p, is_ok (get_activation_time w p) = true) projects
  | None => Forall (λ p, timestamps_ok w p = true) projects
  end.

(** The characters that may occur in a decimal literal accepted by [int]:
    digits, the underscore, the two signs and white space. *)
Definition int_char (c : ascii) : bool :=
  is_digit c || is_space c || Ascii.eqb c "_" || Ascii.eqb c "+" || Ascii.eqb c "-".

(** An ASCII character that occurs in no such literal. *)
Definition foreign_char (c : ascii) : bool :=
  negb (int_char c) && (Ascii.nat_of_ascii c <? 128)%nat.

Fixpoint has_foreign_char (s : string) : bool :=
  match s with
  | EmptyString => false
  | String c s' => foreign_char c || has_foreign_char s'
  end.

(** * Properties *)

(** ** Strings: prefixes, occurrences and replacement *)

(** stdpp keeps [+:+] folded; the proofs below compute with it. *)
Local Arguments String.append !_ _ / : simpl nomatch.

Section string_facts.

Lemma eqb_dollar_false c s :
  has_char "$" (String c s) = false → Ascii.eqb "$" c = false.
Proof. simpl. intros H. by apply orb_false_iff in H as [-> _]. Qed.

Lemma has_char_tail c d s :
  has_char c (String d s) = false → has_char c s = false.
Proof. simpl. intros H. by apply orb_false_iff in H as [_ ->]. Qed.

Lemma startswith_refl_app t s : startswith (t +:+ s) t = true.
Proof. induction t as [|a t IH]; simpl; [done|]. by rewrite Ascii.eqb_refl. Qed.

Lemma contains_tail needle c s :
  contains needle (String c s) = false → contains needle s = false.
Proof. simpl. intros H. by apply orb_false_iff in H as [_ ->]. Qed.

Lemma contains_head needle c s :
  contains needle (String c s) = false → startswith (String c s) needle = false.
Proof. simpl. intros H. by apply orb_false_iff in H as [-> _]. Qed.

(** An occurrence of a word that starts with a dollar sign cannot start
    inside a text without dollar signs. *)
Lemma contains_app_no_dollar t a s :
  has_char "$" a = false →
  contains (String "$" t) (a +:+ s) = contains (String "$" t) s.
Proof.
  induction a as [|c a IH]; intros Ha; [done|].
  change (String c a +:+ s) with (String c (a +:+ s)).
  cbn [contains startswith].
  rewrite (eqb_dollar_false _ _ Ha), IH; [done|].
  by eapply has_char_tail.
Qed.

(** A text with a slash and without a dollar sign is not the beginning of
    a word made of a slash-free part followed by a dollar sign. *)
Lemma startswith_home_false new u s :
  has_char "/" new = true → has_char "$" new = false → has_char "/" u = false →
  startswith (new +:+ s) (u +:+ "$") = false.
Proof.
  revert u. induction new as [|n new IH]; intros u Hs Hd Hu; [done|].
  change (String n new +:+ s) with (String n (new +:+ s)).
  destruct u as [|a u]; cbn [startswith String.append].
  - by rewrite (eqb_dollar_false _ _ Hd).
  - destruct (Ascii.eqb a n) eqn:Han; [|done].
    apply Ascii.eqb_eq in Han as ->.
    cbn [has_char] in Hs, Hu. apply orb_false_iff in Hu as [Hn Hu].
    rewrite Hn in Hs. cbn [orb] in Hs.
    apply IH; [done| |done]. by eapply has_char_tail.
Qed.

Lemma replace_from_skip old new t s :
  replace_from old new (String.length t) (t +:+ s) = replace_from old new 0 s.
Proof. induction t as [|a t IH]; simpl; [by destruct s|done]. Qed.

(** The two equations of [str.replace]: a match is replaced as a whole and
    the scan goes on behind it; without a match one character is copied. *)
Lemma replace_match s c old new :
  replace (String c old +:+ s) (String c old) new = new +:+ replace s (String c old) new.
Proof.
  unfold replace.
  change (String c old +:+ s) with (String c (old +:+ s)).
  cbn [replace_from].
  change (String c (old +:+ s)) with (String c old +:+ s).
  rewrite startswith_refl_app.
  replace (String.length (String c old) - 1) with (String.length old)
    by (cbn [String.length]; lia).
  by rewrite replace_from_skip.
Qed.

Lemma replace_copy s c old new :
  startswith (String c s) old = false →
  replace (String c s) old new = String c (replace s old new).
Proof. unfold replace. cbn [replace_from]. by intros ->. Qed.

Lemma replace_app_no_dollar a s t new :
  has_char "$" a = false →
  replace (a +:+ s) (String "$" t) new = a +:+ replace s (String "$" t) new.
Proof.
  induction a as [|c a IH]; intros Ha; [done|].
  change (String c a +:+ s) with (String c (a +:+ s)).
  rewrite replace_copy.
  - rewrite IH; [done|]. by eapply has_char_tail.
  - cbn [startswith]. by rewrite (eqb_dollar_false _ _ Ha).
Qed.

(** Where nothing occurs, nothing is replaced. *)
Lemma replace_absent s old new :
  contains old s = false → replace s old new = s.
Proof.
  induction s as [|c s IH]; intros H; [done|].
  rewrite replace_copy by by eapply contains_head.
  f_equal. apply IH. by eapply contains_tail.
Qed.

Context (new : string).
Hypothesis new_slash : has_char "/" new = true.
Hypothesis new_dollar : has_char "$" new = false.

(** If the replaced text begins with [u$], so did the original text. *)
Lemma startswith_replace_inv old u s :
  has_char "/" u = false →
  startswith (replace_from old new 0 s) (u +:+ "$") = true →
  startswith s (u +:+ "$") = true.
Proof.
  revert s. induction u as [|a u IH]; intros s Hu.
  - destruct s as [|c s]; [done|]. cbn [replace_from].
    destruct (startswith (String c s) old).
    + by rewrite (startswith_home_false new "" _ new_slash new_dollar).
    + done.
  - destruct s as [|c s]; [done|]. cbn [replace_from].
    destruct (startswith (String c s) old).
    + by rewrite (startswith_home_false new (String a u) _ new_slash new_dollar Hu).
    + simpl. destruct (Ascii.eqb a c); [|done].
      apply IH. simpl in Hu. by apply orb_false_iff in Hu as [_ ->].
Qed.

(** After the replacement the replaced word occurs nowhere. *)
Lemma contains_replace_from_self u k s :
  has_char "/" u = false →
  contains (String "$" (u +:+ "$")) (replace_from (String "$" (u +:+ "$")) new k s) = false.
Proof.
  intros Hu. revert k. induction s as [|c s IH]; intros k; [done|].
  cbn [replace_from]. destruct k as [|k]; [|apply IH].
  destruct (startswith (String c s) _) eqn:Hm.
  - rewrite contains_app_no_dollar by done. apply IH.
  - cbn [contains]. rewrite IH, orb_false_r.
    destruct (startswith (String c (replace_from _ _ _ _)) _) eqn:Hp; [|done].
    cbn [startswith] in Hp, Hm.
    destruct (Ascii.eqb "$" c); [|done].
    apply startswith_replace_inv in Hp; [|done]. by rewrite Hp in Hm.
Qed.

(** Replacing one word does not create an occurrence of another. *)
Lemma contains_replace_from_other old u k s :
  has_char "/" u = false →
  contains (String "$" (u +:+ "$")) s = false →
  contains (String "$" (u +:+ "$")) (replace_from old new k s) = false.
Proof.
  intros Hu. revert k. induction s as [|c s IH]; intros k Hs; [done|].
  pose proof (contains_tail _ _ _ Hs) as Hs'.
  pose proof (contains_head _ _ _ Hs) as Hh.
  cbn [replace_from]. destruct k as [|k]; [|by apply IH].
  destruct (startswith (String c s) old).
  - rewrite contains_app_no_dollar by done. by apply IH.
  - cbn [contains]. rewrite IH, orb_false_r by done.
    destruct (startswith (String c (replace_from _ _ _ _)) _) eqn:Hp; [|done].
    cbn [startswith] in Hp, Hh.
    destruct (Ascii.eqb "$" c); [|done].
    apply startswith_replace_inv in Hp; [|done]. by rewrite Hp in Hh.
Qed.

End string_facts.

(** ** Home-placeholder expansion *)

Section expansion.

Context (home : string).
Hypothesis home_plain : plain_home home = true.

Lemma home_slash : has_char "/" home = true.
Proof using home_plain.
  unfold plain_home in home_plain. by apply andb_true_iff in home_plain as [? _].
Qed.

Lemma home_dollar : has_char "$" home = false.
Proof using home_plain.
  unfold plain_home in home_plain.
  apply andb_true_iff in home_plain as [_ H]. by apply negb_true_iff in H.
Qed.

Lemma expand_home_no_user_home s :
  contains "$USER_HOME$" (expand_home home s) = false.
Proof using home_plain.
  unfold expand_home, replace.
  apply (contains_replace_from_other home home_slash home_dollar "$HOME$" "USER_HOME");
    [done|].
  by apply (contains_replace_from_self home home_slash home_dollar "USER_HOME").
Qed.

Lemma expand_home_no_home s :
  contains "$HOME$" (expand_home home s) = false.
Proof using home_plain.
  unfold expand_home, replace.
  by apply (contains_replace_from_self home home_slash home_dollar "HOME").
Qed.

Lemma expand_home_fixed s :
  contains "$USER_HOME$" s = false → contains "$HOME$" s = false →
  expand_home home s = s.
Proof.
  intros H1 H2. unfold expand_home.
  rewrite (replace_absent s "$USER_HOME$") by done.
  by apply replace_absent.
Qed.

Lemma expand_home_idempotent s :
  expand_home home (expand_home home s) = expand_home home s.
Proof using home_plain.
  apply expand_home_fixed; [apply expand_home_no_user_home | apply expand_home_no_home].
Qed.

Lemma expand_home_at_user_home a b :
  has_char "$" a = false →
  expand_home home (a +:+ "$USER_HOME$" +:+ b) = a +:+ home +:+ expand_home home b.
Proof using home_plain.
  intros Ha. unfold expand_home.
  rewrite (replace_app_no_dollar a _ "USER_HOME$") by done.
  rewrite (replace_match b "$" "USER_HOME$").
  rewrite (replace_app_no_dollar a _ "HOME$") by done.
  by rewrite (replace_app_no_dollar home _ "HOME$") by apply home_dollar.
Qed.

Lemma expand_home_at_home a b :
  has_char "$" a = false → startswith b "USER_HOME$" = false →
  expand_home home (a +:+ "$HOME$" +:+ b) = a +:+ home +:+ expand_home home b.
Proof using home_plain.
  intros Ha Hb. unfold expand_home.
  rewrite (replace_app_no_dollar a _ "USER_HOME$") by done.
  change ("$HOME$" +:+ b) with (String "$" (String "H" (String "O" (String "M"
    (String "E" (String "$" b)))))).
  rewrite !replace_copy by (cbn [startswith]; simpl; done).
  change (String "$" (String "H" (String "O" (String "M" (String "E"
    (String "$" (replace b "$USER_HOME$" home))))))) with
    ("$HOME$" +:+ replace b "$USER_HOME$" home).
  rewrite (replace_app_no_dollar a _ "HOME$") by done.
  by rewrite (replace_match _ "$" "HOME$").
Qed.

(** A text in which a placeholder occurs is never an expanded path. *)
Lemma expand_home_neq_placeholder s d :
  contains "$USER_HOME$" d || contains "$HOME$" d = true →
  expand_home home s ≠ d.
Proof using home_plain.
  intros Hd <-.
  by rewrite expand_home_no_user_home, expand_home_no_home in Hd.
Qed.

End expansion.

(** ** The parser when nothing raises *)

Section parser_ok.

Context (w : World) (home ide_name ide_version : string).
Hypothesis home_ok : w_home w = Ok home.

Lemma entry_project_path_ok entry :
  entry_project_path w entry = Ok (expand_home home (get_or entry "key" "")).
Proof using home_ok. unfold entry_project_path. by rewrite home_ok. Qed.

Lemma entry_project_ok entry :
  entry_project w ide_name ide_version entry =
  Ok (new_project ide_name ide_version
        (expand_home home (get_or entry "key" "")) (entry_data entry)).
Proof using home_ok. unfold entry_project. by rewrite entry_project_path_ok. Qed.

Lemma entries_loop_ok entries projects :
  entries_loop w ide_name ide_version entries projects =
  (projects ++
     ((λ entry, new_project ide_name ide_version
                  (expand_home home (get_or entry "key" "")) (entry_data entry))
        <$> entries),
   None).
Proof using home_ok.
  revert projects. induction entries as [|entry entries IH]; intros projects; simpl.
  - by rewrite app_nil_r.
  - rewrite entry_project_ok, IH. by rewrite <- app_assoc.
Qed.

Lemma component_body_ok component projects :
  component_body w ide_name ide_version component projects =
  (component_step home ide_name ide_version projects component, None).
Proof using home_ok.
  unfold component_body, component_step, mark_component, component_projects,
    recent_entries, designator.
  destruct (is_recent_component component); [|done].
  destruct (find_option_named_child _ _ _) as [map_elem|].
  - rewrite entries_loop_ok. by destruct (find_option_named _ _).
  - rewrite fmap_nil, app_nil_r. by destruct (find_option_named _ _).
Qed.

Lemma components_loop_ok components projects :
  components_loop w ide_name ide_version components projects =
  (foldl (component_step home ide_name ide_version) projects components, None).
Proof using home_ok.
  revert projects. induction components as [|c cs IH]; intros projects; [done|].
  simpl. by rewrite component_body_ok, IH.
Qed.

Lemma try_body_ok file_path root :
  w_et_parse w file_path = Ok root →
  try_body w file_path ide_name ide_version =
  (file_projects home ide_name ide_version root, None).
Proof using home_ok.
  intros Hroot. unfold try_body. rewrite Hroot. apply components_loop_ok.
Qed.

Lemma parse_recent_projects_xml_ok file_path root :
  w_et_parse w file_path = Ok root →
  parse_recent_projects_xml w file_path ide_name ide_version =
  ([], Ok (file_projects home ide_name ide_version root)).
Proof using home_ok.
  intros Hroot. unfold parse_recent_projects_xml. by rewrite (try_body_ok _ root).
Qed.

End parser_ok.

(** ** The parser when something raises *)

Section parser_raise.

Context (w : World) (ide_name ide_version : string).

(** Without a home directory the first entry raises, before anything was
    appended. *)
Lemma components_loop_no_home msg components :
  w_home w = Raise msg →
  (components_loop w ide_name ide_version components []).1 = [].
Proof.
  intros Hhome. induction components as [|c cs IH]; [done|].
  cbn [components_loop].
  assert (component_body w ide_name ide_version c [] = ([], None) ∨
          ∃ m, component_body w ide_name ide_version c [] = ([], Some m)) as [->| [m ->]];
    [|done..].
  unfold component_body.
  destruct (is_recent_component c); [|by left].
  destruct (find_option_named_child _ _ _) as [map_elem|].
  - destruct (findall_child "entry" map_elem) as [|entry entries].
    + left. by destruct (find_option_named _ _).
    + right. exists msg. cbn [entries_loop].
      unfold entry_project, entry_project_path. by rewrite Hhome.
  - left. by destruct (find_option_named _ _).
Qed.

(** Whenever the body of the [try] raises, [projects] is still empty. *)
Lemma try_body_raise file_path msg :
  (try_body w file_path ide_name ide_version).2 = Some msg →
  (try_body w file_path ide_name ide_version).1 = [].
Proof.
  unfold try_body. destruct (w_et_parse w file_path) as [root|m]; [|done].
  destruct (w_home w) as [home|m] eqn:Hhome.
  - by rewrite (components_loop_ok w home).
  - intros _. by eapply components_loop_no_home.
Qed.

Lemma parse_recent_projects_xml_job file_path :
  outcome (parse_recent_projects_xml w file_path ide_name ide_version) =
  Ok (job_projects w (file_path, ide_name, ide_version)).
Proof.
  unfold parse_recent_projects_xml, job_projects. simpl.
  by destruct (try_body _ _ _ _) as [projects [msg|]].
Qed.

Lemma job_projects_failed file_path :
  job_parses w (file_path, ide_name, ide_version) = false →
  job_projects w (file_path, ide_name, ide_version) = [].
Proof.
  unfold job_parses, job_projects. simpl. intros H.
  apply bool_decide_eq_false in H.
  destruct (try_body _ _ _ _).2 as [msg|] eqn:Hr; [|done].
  by eapply try_body_raise.
Qed.

End parser_raise.

(** ** One record for each entry *)

Lemma mark_last_opened_Forall2 {A} (R : A → JetBrainsProject → Prop) d l projects :
  (∀ a p, R a p → R a (set_last_opened p)) →
  Forall2 R l projects → Forall2 R l (mark_last_opened d projects).
Proof.
  intros HR H. unfold mark_last_opened. apply Forall2_fmap_r.
  eapply Forall2_impl; [done|]. intros a p Hap. simpl. case_decide; auto.
Qed.

Lemma mark_component_Forall2 {A} (R : A → JetBrainsProject → Prop) c l projects :
  (∀ a p, R a p → R a (set_last_opened p)) →
  Forall2 R l projects → Forall2 R l (mark_component c projects).
Proof.
  intros HR H. unfold mark_component.
  destruct (designator c); [by apply mark_last_opened_Forall2|done].
Qed.

Lemma foldl_component_step_entries home name version
    (R : element → JetBrainsProject → Prop) components entries projects :
  (∀ entry, R entry (new_project name version
                       (expand_home home (get_or entry "key" "")) (entry_data entry))) →
  (∀ entry p, R entry p → R entry (set_last_opened p)) →
  Forall2 R entries projects →
  Forall2 R
    (entries ++ flat_map recent_entries
                  (filter (λ c, is_recent_component c = true) components))
    (foldl (component_step home name version) projects components).
Proof.
  intros Hnew Hset. revert entries projects.
  induction components as [|c cs IH]; intros entries projects H; simpl.
  - by rewrite app_nil_r.
  - rewrite filter_cons. unfold component_step at 2.
    destruct (is_recent_component c) eqn:Hc.
    + rewrite decide_True by done. simpl. rewrite app_assoc. apply IH.
      apply mark_component_Forall2; [done|].
      apply Forall2_app; [done|]. unfold component_projects.
      apply Forall2_fmap_r, Forall_Forall2_diag, Forall_forall. auto.
    + rewrite decide_False by done. by apply IH.
Qed.

(** C1. For a metadata file that parses (markup read, home directory
    resolved), the parser logs nothing and returns a list that corresponds,
    position by position, to the entries of the recent-projects maps: every
    entry yields exactly one record, under the given family and version, and
    the record's path is the entry's key with [$USER_HOME$] and then
    [$HOME$] replaced by the home directory. *)
Theorem parse_one_record_per_entry
    (w : World) (file_path name version home : string) (root : element) :
  w_et_parse w file_path = Ok root →
  w_home w = Ok home →
  ∃ projects,
    parse_recent_projects_xml w file_path name version = ([], Ok projects) ∧
    Forall2 (λ entry project,
               project_path project =
                 replace (replace (get_or entry "key" "") "$USER_HOME$" home) "$HOME$" home ∧
               ide_name project = name ∧ ide_version project = version)
            (file_entries root) projects.
Proof.
  intros Hroot Hhome. exists (file_projects home name version root). split.
  - by apply parse_recent_projects_xml_ok.
  - apply (foldl_component_step_entries home name version _ _ [] []); [done| |done].
    by intros entry p (? & ? & ?).
Qed.

Lemma parse_one_record_per_entry_witness :
  w_et_parse sample_world (pycharm_file "/home/u") = Ok sample_root ∧
  w_home sample_world = Ok "/home/u" ∧
  ∃ projects,
    parse_recent_projects_xml sample_world (pycharm_file "/home/u") "PyCharm" "2024.3"
      = ([], Ok projects) ∧
    Forall2 (λ entry project,
               project_path project =
                 replace (replace (get_or entry "key" "") "$USER_HOME$" "/home/u")
                   "$HOME$" "/home/u" ∧
               ide_name project = "PyCharm" ∧ ide_version project = "2024.3")
            (file_entries sample_root) projects.
Proof.
  split; [reflexivity|]. split; [reflexivity|].
  apply (parse_one_record_per_entry sample_world (pycharm_file "/home/u")
           "PyCharm" "2024.3" "/home/u" sample_root); reflexivity.
Defined.

(** The scenario of the specification: the key [$USER_HOME$/proj] with the
    home directory [/home/u]. *)
Example parse_user_home_proj :
  project_path <$>
    (default [] (match outcome (parse_recent_projects_xml sample_world
                                  (pycharm_file "/home/u") "PyCharm" "2024.3") with
                 | Ok projects => Some projects
                 | Raise _ => None
                 end))
  = ["/home/u/proj"; "/opt/other"].
Proof. vm_compute. reflexivity. Qed.

(** ** Computations with effects *)

Lemma outcome_bind {A B} (m : Py A) (f : A → Py B) :
  outcome (m ≫= f) =
  match outcome m with
  | Ok a => outcome (f a)
  | Raise msg => Raise msg
  end.
Proof.
  destruct m as [t [a|msg]]; [|done].
  unfold mbind, py_bind, outcome. simpl. by destruct (f a).
Qed.

Lemma py_eta {A} (m : Py A) : m = (trace m, outcome m).
Proof. by destruct m. Qed.

(** ** The scan *)

Section scan.

Context (w : World).

Lemma xml_files_loop_outcome options_dir name version xml_files all_projects :
  outcome (xml_files_loop w options_dir name version xml_files all_projects) =
  Ok (all_projects ++
      flat_map (job_projects w)
        ((λ xml_file, (joinpath options_dir xml_file, name, version))
           <$> filter (λ xml_file, w_exists w (joinpath options_dir xml_file) = true)
                 xml_files)).
Proof.
  revert all_projects.
  induction xml_files as [|xml_file rest IH]; intros all_projects; simpl.
  - by rewrite app_nil_r.
  - rewrite filter_cons.
    destruct (w_exists w (joinpath options_dir xml_file)) eqn:Hex.
    + rewrite decide_True by done.
      rewrite outcome_bind, parse_recent_projects_xml_job, IH.
      by rewrite fmap_cons, <- app_assoc.
    + rewrite decide_False by done. apply IH.
Qed.

Lemma ide_dir_body_outcome config_dir ide_full_name all_projects :
  outcome (ide_dir_body w config_dir ide_full_name all_projects) =
  Ok (all_projects ++ flat_map (job_projects w) (dir_jobs w config_dir ide_full_name)).
Proof.
  unfold ide_dir_body, dir_jobs.
  destruct (w_is_dir w _); cbn [andb]; [|cbn; by rewrite app_nil_r].
  destruct (split_ide_name ide_full_name) as [name version]. cbn [fst snd].
  destruct (w_exists w _); [|cbn; by rewrite app_nil_r].
  apply xml_files_loop_outcome.
Qed.

Lemma ide_dirs_loop_outcome config_dir names all_projects :
  outcome (ide_dirs_loop w config_dir names all_projects) =
  Ok (all_projects ++ flat_map (job_projects w) (flat_map (dir_jobs w config_dir) names)).
Proof.
  revert all_projects. induction names as [|n names IH]; intros all_projects; simpl.
  - by rewrite app_nil_r.
  - rewrite outcome_bind, ide_dir_body_outcome, IH.
    by rewrite flat_map_app, app_assoc.
Qed.

Lemma find_all_recent_projects_outcome home :
  w_home w = Ok home →
  outcome (find_all_recent_projects w) = Ok (flat_map (job_projects w) (scan_jobs w home)).
Proof.
  intros Hhome. unfold find_all_recent_projects, scan_jobs.
  rewrite outcome_bind. unfold lift, outcome at 1. simpl. rewrite Hhome.
  destruct (w_exists w _); [|done].
  by rewrite ide_dirs_loop_outcome.
Qed.

Lemma flat_map_job_projects_parsed jobs :
  flat_map (job_projects w) jobs =
  flat_map (job_projects w) (filter (λ job, job_parses w job = true) jobs).
Proof.
  induction jobs as [|[[file_path name] version] jobs IH]; [done|].
  rewrite filter_cons. simpl.
  destruct (job_parses w (file_path, name, version)) eqn:Hjob.
  - rewrite decide_True by done. simpl. by rewrite IH.
  - rewrite decide_False by done. by rewrite job_projects_failed, IH.
Qed.

End scan.

(** C5. Whenever the body of the [try] raises, wherever that happens, the
    parser prints one line with the file and the error and returns the empty
    list; the parser itself never raises. The scan therefore goes on: once
    the home directory is known, its result is the concatenation, in scan
    order, of what the files that did parse contribute. *)
Theorem parse_failure_is_isolated (w : World) :
  (∀ file_path name version msg,
     (try_body w file_path name version).2 = Some msg →
     parse_recent_projects_xml w file_path name version =
     ([Print ("Error parsing " +:+ file_path +:+ ": " +:+ msg)], Ok [])) ∧
  (∀ file_path name version,
     is_ok (outcome (parse_recent_projects_xml w file_path name version)) = true) ∧
  outcome (find_all_recent_projects w) =
    (λ home, flat_map (job_projects w)
               (filter (λ job, job_parses w job = true) (scan_jobs w home)))
    <$> w_home w.
Proof.
  split; [|split].
  - intros file_path name version msg Hraise.
    pose proof (try_body_raise w name version file_path msg Hraise) as Hnil.
    unfold parse_recent_projects_xml.
    destruct (try_body w file_path name version) as [projects raised].
    simpl in *. by subst.
  - intros file_path name version. by rewrite parse_recent_projects_xml_job.
  - destruct (w_home w) as [home|msg] eqn:Hhome.
    + rewrite (find_all_recent_projects_outcome w home) by done.
      unfold fmap, result_fmap. by rewrite <- flat_map_job_projects_parsed.
    + unfold find_all_recent_projects. rewrite outcome_bind.
      unfold lift, outcome at 1. simpl. by rewrite Hhome.
Qed.

Lemma parse_failure_is_isolated_witness :
  (try_body mixed_world (pycharm_file "/home/u") "PyCharm" "2024.3").2 =
    Some "not well-formed (invalid token): line 1, column 0" ∧
  parse_recent_projects_xml mixed_world (pycharm_file "/home/u") "PyCharm" "2024.3" =
    ([Print ("Error parsing " +:+ pycharm_file "/home/u" +:+ ": " +:+
             "not well-formed (invalid token): line 1, column 0")], Ok []) ∧
  outcome (find_all_recent_projects mixed_world) =
    (λ home, flat_map (job_projects mixed_world)
               (filter (λ job, job_parses mixed_world job = true)
                  (scan_jobs mixed_world home)))
    <$> w_home mixed_world.
Proof.
  pose proof (parse_failure_is_isolated mixed_world) as (Hparse & _ & Hscan).
  split; [vm_compute; reflexivity|].
  split; [apply Hparse; vm_compute; reflexivity|].
  exact Hscan.
Defined.

(** In [mixed_world] the file that fails contributes nothing and the two
    records of the other file are found. *)
Example scan_mixed_world :
  (match outcome (find_all_recent_projects mixed_world) with
   | Ok projects => (λ p, (ide_name p, ide_version p, project_path p)) <$> projects
   | Raise _ => []
   end) = [("Rider", "2025.1", "/home/u/proj"); ("Rider", "2025.1", "/opt/other")].
Proof. vm_compute. reflexivity. Qed.

(** ** The last-opened flag *)

Section flags.

Context (home name version : string).

Lemma flag_le_refl p : flag_le p p.
Proof. by left. Qed.

Lemma flag_le_trans p q r : flag_le p q → flag_le q r → flag_le p r.
Proof. intros [->| ->] [->| ->]; (by left) || (by right). Qed.

Lemma flag_le_set p q : flag_le (set_last_opened p) q → q = set_last_opened p.
Proof. by intros [->| ->]. Qed.

Lemma mark_last_opened_flag_le d projects :
  Forall2 flag_le projects (mark_last_opened d projects).
Proof.
  unfold mark_last_opened. apply Forall2_fmap_r, Forall_Forall2_diag, Forall_forall.
  intros p _. simpl. case_decide; [by right|by left].
Qed.

Lemma mark_component_flag_le c projects :
  Forall2 flag_le projects (mark_component c projects).
Proof.
  unfold mark_component. destruct (designator c).
  - apply mark_last_opened_flag_le.
  - apply Forall_Forall2_diag, Forall_forall. intros. apply flag_le_refl.
Qed.

(** A round of the loop keeps the records it found, in place, and changes
    at most their flag. *)
Lemma component_step_flag_le projects c :
  ∃ kept extra, (component_step home name version) projects c = kept ++ extra ∧ Forall2 flag_le projects kept.
Proof.
  unfold component_step. destruct (is_recent_component c).
  - pose proof (mark_component_flag_le c
      (projects ++ component_projects home name version c)) as H.
    apply Forall2_app_inv_l in H as (kept & extra & Hkept & _ & ->). eauto.
  - exists projects, []. rewrite app_nil_r. split; [done|].
    apply Forall_Forall2_diag, Forall_forall. intros. apply flag_le_refl.
Qed.

Lemma foldl_component_step_flag_le components projects :
  ∃ kept extra,
    foldl (component_step home name version) projects components = kept ++ extra ∧ Forall2 flag_le projects kept.
Proof.
  revert projects. induction components as [|c cs IH]; intros projects; simpl.
  - exists projects, []. rewrite app_nil_r. split; [done|].
    apply Forall_Forall2_diag, Forall_forall. intros. apply flag_le_refl.
  - destruct (component_step_flag_le projects c) as (kept & extra & -> & Hkept).
    destruct (IH (kept ++ extra)) as (kept' & extra' & -> & Hkept').
    apply Forall2_app_inv_l in Hkept' as (k1 & k2 & Hk1 & _ & ->).
    exists k1, (k2 ++ extra'). rewrite <- app_assoc. split; [done|].
    eapply Forall2_trans; [|exact Hkept|exact Hk1]. apply flag_le_trans.
Qed.

Lemma foldl_component_step_lookup components projects i p :
  projects !! i = Some p →
  ∃ p', foldl (component_step home name version) projects components !! i = Some p' ∧ flag_le p p'.
Proof.
  intros Hi.
  destruct (foldl_component_step_flag_le components projects) as (kept & extra & -> & H).
  destruct (Forall2_lookup_l _ _ _ _ _ H Hi) as (p' & Hp' & Hle).
  exists p'. split; [|done]. by apply lookup_app_l_Some.
Qed.

(** Components that fail the test of line 60 leave the list alone. *)
Lemma foldl_component_step_recent components projects :
  foldl (component_step home name version) projects components =
  foldl (component_step home name version) projects (filter (λ c, is_recent_component c = true) components).
Proof.
  revert projects. induction components as [|c cs IH]; intros projects; [done|].
  rewrite filter_cons. simpl. unfold component_step at 2.
  destruct (is_recent_component c) eqn:Hc.
  - rewrite decide_True by done. simpl. unfold component_step at 3.
    rewrite Hc. apply IH.
  - rewrite decide_False by done. apply IH.
Qed.

Lemma file_projects_recent root :
  file_projects home name version root = foldl (component_step home name version) [] (recent_components root).
Proof. apply foldl_component_step_recent. Qed.

Lemma flag_from_mono (D D' : string → Prop) p :
  (∀ d, D d → D' d) → flag_from D p → flag_from D' p.
Proof. intros HD [?|[? ?]]; [by left|right; auto]. Qed.

Lemma component_step_flag_from (D : string → Prop) projects c :
  is_recent_component c = true →
  Forall (flag_from D) projects →
  Forall (flag_from (λ d, D d ∨ designator c = Some d)) ((component_step home name version) projects c).
Proof.
  intros Hc Hps. unfold component_step. rewrite Hc.
  assert (Forall (flag_from D) (projects ++ component_projects home name version c)) as H.
  { apply Forall_app. split; [done|]. unfold component_projects.
    apply Forall_fmap, Forall_forall. intros entry _. by left. }
  unfold mark_component. destruct (designator c) as [d|].
  - unfold mark_last_opened. apply Forall_fmap.
    eapply Forall_impl; [done|]. intros p Hp. simpl. case_decide as Hd.
    + right. split; [done|]. right. by rewrite <- Hd.
    + eapply flag_from_mono; [|done]. auto.
  - eapply Forall_impl; [done|]. intros p. apply flag_from_mono. auto.
Qed.

Lemma foldl_component_step_flag_from (D : string → Prop) components projects :
  Forall (λ c, is_recent_component c = true) components →
  Forall (flag_from D) projects →
  Forall (flag_from (λ d, D d ∨ ∃ c, c ∈ components ∧ designator c = Some d))
    (foldl (component_step home name version) projects components).
Proof.
  revert D projects. induction components as [|c cs IH]; intros D projects Hcs Hps; simpl.
  - eapply Forall_impl; [done|]. intros p. apply flag_from_mono. auto.
  - apply Forall_cons in Hcs as [Hc Hcs].
    pose proof (IH _ _ Hcs (component_step_flag_from D projects c Hc Hps)) as H.
    eapply Forall_impl; [done|]. intros p. apply flag_from_mono.
    intros d [[?|?]|(c' & ? & ?)]; [by left|right..].
    + exists c. split; [left|done].
    + exists c'. split; [by right|done].
Qed.

Lemma file_projects_flag_from root :
  Forall (flag_from (λ d, ∃ c, c ∈ recent_components root ∧ designator c = Some d))
    (file_projects home name version root).
Proof.
  rewrite file_projects_recent.
  eapply Forall_impl.
  - apply (foldl_component_step_flag_from (λ _, False)); [|done].
    apply Forall_forall. intros c Hc. unfold recent_components in Hc.
    by apply list_elem_of_filter in Hc as [? _].
  - intros p. apply flag_from_mono. by intros d [[]|?].
Qed.

(** A designator reaches every record collected up to its component. *)
Lemma file_projects_flagged root before c after d i p :
  recent_components root = before ++ c :: after →
  designator c = Some d →
  (foldl (component_step home name version) [] before ++ component_projects home name version c) !! i = Some p →
  project_path p = d →
  ∃ p', file_projects home name version root !! i = Some p' ∧
        flag_le p p' ∧ is_last_opened p' = Some true.
Proof.
  intros Hcs Hd Hi Hp.
  assert (is_recent_component c = true) as Hc.
  { assert (c ∈ recent_components root) as H by (rewrite Hcs; set_solver).
    unfold recent_components in H. by apply list_elem_of_filter in H as [? _]. }
  rewrite file_projects_recent, Hcs, foldl_app. simpl.
  unfold component_step at 2. rewrite Hc. unfold mark_component. rewrite Hd.
  assert (mark_last_opened d
            (foldl (component_step home name version) [] before ++ component_projects home name version c) !! i
          = Some (set_last_opened p)) as Hset.
  { unfold mark_last_opened. rewrite list_lookup_fmap, Hi. simpl.
    by rewrite decide_True. }
  destruct (foldl_component_step_lookup after _ _ _ Hset) as (p' & Hp' & Hle).
  exists p'. apply flag_le_set in Hle as ->. split; [done|]. split; [by right|done].
Qed.

Lemma file_projects_single root c :
  recent_components root = [c] →
  file_projects home name version root =
  mark_component c (component_projects home name version c).
Proof.
  intros Hcs. rewrite file_projects_recent, Hcs. simpl. unfold component_step.
  assert (c ∈ recent_components root) as H by (rewrite Hcs; set_solver).
  unfold recent_components in H. apply list_elem_of_filter in H as [-> _]. done.
Qed.

Lemma mark_last_opened_flagged d projects p :
  p ∈ mark_last_opened d projects → project_path p = d → is_last_opened p = Some true.
Proof.
  unfold mark_last_opened. intros Hp Hd.
  apply list_elem_of_fmap in Hp as (q & -> & _). by case_decide.
Qed.

(** Every record of a parsed file has an expanded path. *)
Lemma file_projects_expanded root p :
  p ∈ file_projects home name version root →
  ∃ key, project_path p = expand_home home key.
Proof.
  intros Hp.
  pose proof (foldl_component_step_entries home name version
    (λ _ q, ∃ key, project_path q = expand_home home key)
    (findall_desc "component" root) [] []) as H.
  simpl in H.
  assert (Forall2 (λ (_ : element) q, ∃ key, project_path q = expand_home home key)
            (file_entries root) (file_projects home name version root)) as H2.
  { apply H; [by eauto|by intros _ q [key ?]; exists key|done]. }
  apply list_elem_of_lookup in Hp as [i Hi].
  destruct (Forall2_lookup_r _ _ _ _ _ H2 Hi) as (entry & _ & Hkey). done.
Qed.

End flags.

(** What the two theorems on the flag share. *)
Lemma flag_facts_of_parsed_file
    (w : World) (file_path name version home : string) (root : element) :
  w_et_parse w file_path = Ok root →
  w_home w = Ok home →
  parse_recent_projects_xml w file_path name version =
    ([], Ok (file_projects home name version root)) ∧
  (∀ p, p ∈ file_projects home name version root →
     is_last_opened p = None ∨
     (is_last_opened p = Some true ∧
      ∃ c, c ∈ recent_components root ∧ designator c = Some (project_path p))) ∧
  (∀ c, recent_components root = [c] →
        ∀ p, p ∈ file_projects home name version root →
             (is_last_opened p = Some true ↔ designator c = Some (project_path p))).
Proof.
  intros Hroot Hhome.
  split; [by apply parse_recent_projects_xml_ok|].
  pose proof (file_projects_flag_from home name version root) as Hflags.
  rewrite Forall_forall in Hflags.
  split; [exact Hflags|].
  intros c Hc p Hp. split.
  - intros Hflag. destruct (Hflags p Hp) as [H|[_ (c' & Hc' & Hd)]]; [congruence|].
    rewrite Hc in Hc'. by apply list_elem_of_singleton in Hc' as ->.
  - intros Hd. rewrite (file_projects_single _ _ _ _ c Hc) in Hp.
    unfold mark_component in Hp. rewrite Hd in Hp.
    by eapply mark_last_opened_flagged.
Qed.

(** C7, as the code has it. The flag is an attribute that only the marking
    loop assigns: a record either lacks it or has it with the value [True],
    and it has it only if its path equals the designator of a
    recent-projects section of the file; when no designator equals any
    record's path, no record has the attribute. In a file with one such
    section the flagged records are exactly those whose path equals the
    designator. In general a designator reaches every record collected up to
    and including its own section. *)
Theorem last_opened_flag
    (w : World) (file_path name version home : string) (root : element) :
  w_et_parse w file_path = Ok root →
  w_home w = Ok home →
  ∃ projects,
    parse_recent_projects_xml w file_path name version = ([], Ok projects) ∧
    (∀ p, p ∈ projects →
       is_last_opened p = None ∨
       (is_last_opened p = Some true ∧
        ∃ c, c ∈ recent_components root ∧ designator c = Some (project_path p))) ∧
    ((∀ c p, c ∈ recent_components root → p ∈ projects →
             designator c ≠ Some (project_path p)) →
     ∀ p, p ∈ projects → is_last_opened p = None) ∧
    (∀ c, recent_components root = [c] →
          ∀ p, p ∈ projects →
               (is_last_opened p = Some true ↔ designator c = Some (project_path p))) ∧
    (∀ before c after d i p,
       recent_components root = before ++ c :: after →
       designator c = Some d →
       (foldl (component_step home name version) [] before ++
        component_projects home name version c) !! i = Some p →
       project_path p = d →
       ∃ p', projects !! i = Some p' ∧ flag_le p p' ∧ is_last_opened p' = Some true).
Proof.
  intros Hroot Hhome.
  destruct (flag_facts_of_parsed_file w file_path name version home root Hroot Hhome)
    as (Hparse & Hflags & Hsingle).
  exists (file_projects home name version root).
  split; [done|]. split; [exact Hflags|]. split; [|split; [exact Hsingle|]].
  - intros Hnone p Hp. destruct (Hflags p Hp) as [?|[_ (c & Hc & Hd)]]; [done|].
    by destruct (Hnone c p Hc Hp).
  - intros before c after d i p. apply file_projects_flagged.
Qed.

Lemma last_opened_flag_witness :
  w_et_parse sample_world (pycharm_file "/home/u") = Ok sample_root ∧
  w_home sample_world = Ok "/home/u" ∧
  ∃ projects,
    parse_recent_projects_xml sample_world (pycharm_file "/home/u") "PyCharm" "2024.3"
      = ([], Ok projects) ∧
    (∀ p, p ∈ projects →
       is_last_opened p = None ∨
       (is_last_opened p = Some true ∧
        ∃ c, c ∈ recent_components sample_root ∧ designator c = Some (project_path p))) ∧
    ((∀ c p, c ∈ recent_components sample_root → p ∈ projects →
             designator c ≠ Some (project_path p)) →
     ∀ p, p ∈ projects → is_last_opened p = None) ∧
    (∀ c, recent_components sample_root = [c] →
          ∀ p, p ∈ projects →
               (is_last_opened p = Some true ↔ designator c = Some (project_path p))) ∧
    (∀ before c after d i p,
       recent_components sample_root = before ++ c :: after →
       designator c = Some d →
       (foldl (component_step "/home/u" "PyCharm" "2024.3") [] before ++
        component_projects "/home/u" "PyCharm" "2024.3" c) !! i = Some p →
       project_path p = d →
       ∃ p', projects !! i = Some p' ∧ flag_le p p' ∧ is_last_opened p' = Some true).
Proof.
  split; [reflexivity|]. split; [reflexivity|].
  apply (last_opened_flag sample_world (pycharm_file "/home/u") "PyCharm" "2024.3"
           "/home/u" sample_root); reflexivity.
Defined.

(** In the sample file the designator [/opt/other] flags the second record
    and leaves the first without the attribute. *)
Example sample_flags :
  (match outcome (parse_recent_projects_xml sample_world
                    (pycharm_file "/home/u") "PyCharm" "2024.3") with
   | Ok projects => (λ p, (project_path p, is_last_opened p)) <$> projects
   | Raise _ => []
   end) = [("/home/u/proj", None); ("/opt/other", Some true)].
Proof. vm_compute. reflexivity. Qed.

(** C7 as stated fails: in [two_section_root] the record's path equals the
    designator of the file, yet the record is not flagged, because the
    designator's section was handled before the record was built; and the
    unflagged record has no attribute rather than the value false. *)
Lemma last_opened_flag_counterexample :
  ¬ (∀ (w : World) (file_path name version : string) (root : element)
       (projects : list JetBrainsProject) (c : element) (d : string)
       (p : JetBrainsProject),
       w_et_parse w file_path = Ok root →
       outcome (parse_recent_projects_xml w file_path name version) = Ok projects →
       c ∈ recent_components root →
       designator c = Some d →
       p ∈ projects →
       is_last_opened p = Some (bool_decide (project_path p = d))).
Proof.
  intros H.
  specialize (H two_section_world (rider_file "/home/u") "Rider" "2025.1"
                two_section_root
                [new_project "Rider" "2025.1" "/work/app" ∅]
                (component_with "RecentProjectsManager" [] (Some "/work/app"))
                "/work/app"
                (new_project "Rider" "2025.1" "/work/app" ∅)).
  assert (is_last_opened (new_project "Rider" "2025.1" "/work/app" ∅)
          = Some (bool_decide (project_path (new_project "Rider" "2025.1" "/work/app" ∅)
                               = "/work/app"))) as Hflag.
  { apply H.
    - reflexivity.
    - vm_compute. reflexivity.
    - vm_compute. left.
    - reflexivity.
    - left. }
  vm_compute in Hflag. discriminate Hflag.
Qed.

Lemma get_or_entry_with_key key : get_or (entry_with_key key) "key" "" = key.
Proof. reflexivity. Qed.

(** C9, as the code has it. The expansion is two substring replacements,
    [$USER_HOME$] first and [$HOME$] second: a placeholder that follows text
    without a dollar sign is replaced where it stands (for [$HOME$], unless
    [USER_HOME$] follows it, in which case the first replacement takes the
    shared dollar sign). For a home directory with a slash and without a
    dollar sign no placeholder is left in an expanded path, and expanding an
    expanded path again changes nothing, whatever the key. *)
Theorem expand_home_substring_idempotent (w : World) (home : string) :
  w_home w = Ok home →
  plain_home home = true →
  (∀ entry,
     entry_project_path w entry =
     Ok (replace (replace (get_or entry "key" "") "$USER_HOME$" home) "$HOME$" home)) ∧
  (∀ a b,
     has_char "$" a = false →
     entry_project_path w (entry_with_key (a +:+ "$USER_HOME$" +:+ b)) =
     (λ rest, a +:+ home +:+ rest) <$> entry_project_path w (entry_with_key b)) ∧
  (∀ a b,
     has_char "$" a = false → startswith b "USER_HOME$" = false →
     entry_project_path w (entry_with_key (a +:+ "$HOME$" +:+ b)) =
     (λ rest, a +:+ home +:+ rest) <$> entry_project_path w (entry_with_key b)) ∧
  (∀ key path,
     entry_project_path w (entry_with_key key) = Ok path →
     contains "$USER_HOME$" path = false ∧ contains "$HOME$" path = false ∧
     entry_project_path w (entry_with_key path) = Ok path).
Proof.
  intros Hhome Hplain. split; [|split; [|split]].
  - intros entry. by apply entry_project_path_ok.
  - intros a b Ha. rewrite !(entry_project_path_ok w home), !get_or_entry_with_key by done.
    unfold fmap, result_fmap. by rewrite (expand_home_at_user_home home Hplain).
  - intros a b Ha Hb. rewrite !(entry_project_path_ok w home), !get_or_entry_with_key by done.
    unfold fmap, result_fmap. by rewrite (expand_home_at_home home Hplain).
  - intros key path. rewrite !(entry_project_path_ok w home), !get_or_entry_with_key by done.
    intros [= <-].
    rewrite expand_home_no_user_home, expand_home_no_home by done.
    by rewrite expand_home_idempotent.
Qed.

Lemma expand_home_substring_idempotent_witness :
  w_home sample_world = Ok "/home/u" ∧
  plain_home "/home/u" = true ∧
  (∀ entry,
     entry_project_path sample_world entry =
     Ok (replace (replace (get_or entry "key" "") "$USER_HOME$" "/home/u")
           "$HOME$" "/home/u")) ∧
  (∀ a b,
     has_char "$" a = false →
     entry_project_path sample_world (entry_with_key (a +:+ "$USER_HOME$" +:+ b)) =
     (λ rest, a +:+ "/home/u" +:+ rest) <$>
       entry_project_path sample_world (entry_with_key b)) ∧
  (∀ a b,
     has_char "$" a = false → startswith b "USER_HOME$" = false →
     entry_project_path sample_world (entry_with_key (a +:+ "$HOME$" +:+ b)) =
     (λ rest, a +:+ "/home/u" +:+ rest) <$>
       entry_project_path sample_world (entry_with_key b)) ∧
  (∀ key path,
     entry_project_path sample_world (entry_with_key key) = Ok path →
     contains "$USER_HOME$" path = false ∧ contains "$HOME$" path = false ∧
     entry_project_path sample_world (entry_with_key path) = Ok path).
Proof.
  split; [reflexivity|]. split; [reflexivity|].
  apply (expand_home_substring_idempotent sample_world "/home/u"); reflexivity.
Defined.

(** C9 as stated fails: with the home directory [/$HOME] the key [$HOME$$]
    expands to [/$HOME$], and expanding that again gives [//$HOME]. *)
Lemma expand_home_idempotent_counterexample :
  ¬ (∀ (w : World) (key path : string),
       entry_project_path w (entry_with_key key) = Ok path →
       entry_project_path w (entry_with_key path) = Ok path).
Proof.
  intros H.
  specialize (H (one_file_world "/$HOME" (Ok sample_root) None) "$HOME$$" "/$HOME$").
  assert (entry_project_path (one_file_world "/$HOME" (Ok sample_root) None)
            (entry_with_key "/$HOME$") = Ok "/$HOME$") as Htwice.
  { apply H. vm_compute. reflexivity. }
  vm_compute in Htwice. discriminate Htwice.
Qed.

(** With an ordinary home directory, a [$HOME$] whose closing dollar sign
    opens a [$USER_HOME$] stays as it is: the first replacement takes that
    dollar sign. *)
Example expand_home_overlap :
  entry_project_path sample_world (entry_with_key "$HOME$USER_HOME$/x") =
  Ok "$HOME/home/u/x".
Proof. vm_compute. reflexivity. Qed.

(** C10, as the code has it, for a home directory with a slash and without
    a dollar sign. The paths of the records hold no placeholder, and the
    designator is compared with them as it is written; so a designator in
    which a placeholder occurs equals no record's path, and when every
    designator of the file is of that kind no record is flagged. In a file
    with one recent-projects section, every record whose path is the
    designator, letter for letter, is flagged. *)
Theorem designator_is_compared_unexpanded
    (w : World) (file_path name version home : string) (root : element) :
  w_et_parse w file_path = Ok root →
  w_home w = Ok home →
  plain_home home = true →
  ∃ projects,
    parse_recent_projects_xml w file_path name version = ([], Ok projects) ∧
    (∀ p, p ∈ projects →
       contains "$USER_HOME$" (project_path p) = false ∧
       contains "$HOME$" (project_path p) = false) ∧
    (∀ d p,
       contains "$USER_HOME$" d || contains "$HOME$" d = true →
       p ∈ projects → project_path p ≠ d) ∧
    ((∀ c d, c ∈ recent_components root → designator c = Some d →
             contains "$USER_HOME$" d || contains "$HOME$" d = true) →
     ∀ p, p ∈ projects → is_last_opened p = None) ∧
    (∀ c d,
       recent_components root = [c] → designator c = Some d →
       ∀ p, p ∈ projects → project_path p = d → is_last_opened p = Some true).
Proof.
  intros Hroot Hhome Hplain.
  destruct (flag_facts_of_parsed_file w file_path name version home root Hroot Hhome)
    as (Hparse & Hflags & Hsingle).
  exists (file_projects home name version root). split; [done|].
  assert (∀ d p, contains "$USER_HOME$" d || contains "$HOME$" d = true →
                 p ∈ file_projects home name version root → project_path p ≠ d) as Hneq.
  { intros d p Hd Hp.
    destruct (file_projects_expanded home name version root p Hp) as [key ->].
    by apply expand_home_neq_placeholder. }
  split; [|split; [done|split]].
  - intros p Hp.
    destruct (file_projects_expanded home name version root p Hp) as [key ->].
    by rewrite expand_home_no_user_home, expand_home_no_home.
  - intros Hall p Hp. destruct (Hflags p Hp) as [?|[_ (c & Hc & Hd)]]; [done|].
    destruct (Hneq _ p (Hall c _ Hc Hd) Hp). done.
  - intros c d Hc Hd p Hp Hpath. apply (Hsingle c Hc p Hp). by rewrite Hpath.
Qed.

Lemma designator_is_compared_unexpanded_witness :
  w_et_parse placeholder_designator_world (pycharm_file "/home/u")
    = Ok placeholder_designator_root ∧
  w_home placeholder_designator_world = Ok "/home/u" ∧
  plain_home "/home/u" = true ∧
  ∃ projects,
    parse_recent_projects_xml placeholder_designator_world (pycharm_file "/home/u")
      "PyCharm" "2024.3" = ([], Ok projects) ∧
    (∀ p, p ∈ projects →
       contains "$USER_HOME$" (project_path p) = false ∧
       contains "$HOME$" (project_path p) = false) ∧
    (∀ d p,
       contains "$USER_HOME$" d || contains "$HOME$" d = true →
       p ∈ projects → project_path p ≠ d) ∧
    ((∀ c d, c ∈ recent_components placeholder_designator_root → designator c = Some d →
             contains "$USER_HOME$" d || contains "$HOME$" d = true) →
     ∀ p, p ∈ projects → is_last_opened p = None) ∧
    (∀ c d,
       recent_components placeholder_designator_root = [c] → designator c = Some d →
       ∀ p, p ∈ projects → project_path p = d → is_last_opened p = Some true).
Proof.
  split; [reflexivity|]. split; [reflexivity|]. split; [reflexivity|].
  apply (designator_is_compared_unexpanded placeholder_designator_world
           (pycharm_file "/home/u") "PyCharm" "2024.3" "/home/u"
           placeholder_designator_root); reflexivity.
Defined.

(** The designator [$USER_HOME$/proj] names the first entry of the file, but
    the record's path is [/home/u/proj]: nothing is flagged. *)
Example placeholder_designator_flags :
  (match outcome (parse_recent_projects_xml placeholder_designator_world
                    (pycharm_file "/home/u") "PyCharm" "2024.3") with
   | Ok projects => (λ p, (project_path p, is_last_opened p)) <$> projects
   | Raise _ => []
   end) = [("/home/u/proj", None); ("/opt/other", None)].
Proof. vm_compute. reflexivity. Qed.

(** C10 as stated fails when the home directory itself spells a
    placeholder: in [dollar_home_world] the designator [/$HOME$] contains
    [$HOME$], the entry's key uses [$HOME$], and the record's path, the
    expanded key, is the designator; the record is flagged. *)
Lemma designator_is_compared_unexpanded_counterexample :
  ¬ (∀ (w : World) (file_path name version : string) (root : element)
       (projects : list JetBrainsProject) (c : element) (d : string),
       w_et_parse w file_path = Ok root →
       outcome (parse_recent_projects_xml w file_path name version) = Ok projects →
       recent_components root = [c] →
       designator c = Some d →
       contains "$HOME$" d = true →
       Forall (λ entry, contains "$HOME$" (get_or entry "key" "") = true)
         (file_entries root) →
       ∀ p, p ∈ projects → project_path p ≠ d ∧ is_last_opened p = None).
Proof.
  intros H.
  specialize (H dollar_home_world (pycharm_file "/$HOME$") "PyCharm" "2024.3"
                dollar_home_root
                [set_last_opened (new_project "PyCharm" "2024.3" "/$HOME$" ∅)]
                (component_with "RecentProjectsManager" [entry_with_key "$HOME$"]
                   (Some "/$HOME$"))
                "/$HOME$").
  destruct (H eq_refl) with
    (p := set_last_opened (new_project "PyCharm" "2024.3" "/$HOME$" ∅)) as [Hneq _].
  - vm_compute. reflexivity.
  - reflexivity.
  - reflexivity.
  - reflexivity.
  - vm_compute. repeat constructor.
  - left.
  - by apply Hneq.
Qed.

(** ** The dictionary of an entry *)

Lemma add_option_lookup_ne (d : gmap string (option string)) o k :
  stored_name o ≠ Some k → add_option d o !! k = d !! k.
Proof.
  unfold add_option, stored_name.
  destruct (get o "name") as [n|]; [|done].
  destruct (get o "value") as [v|]; [|done].
  destruct (truthy n && truthy v); [|done].
  intros Hk. apply lookup_insert_ne. congruence.
Qed.

Lemma foldl_add_option_lookup (d : gmap string (option string)) options k :
  k ∉ omap stored_name options → foldl add_option d options !! k = d !! k.
Proof.
  revert d. induction options as [|o options IH]; intros d Hk; [done|].
  simpl in *. destruct (stored_name o) as [n|] eqn:Hn.
  - apply not_elem_of_cons in Hk as [Hne Hk].
    rewrite IH by done. apply add_option_lookup_ne. congruence.
  - rewrite IH by done. apply add_option_lookup_ne. congruence.
Qed.

(** A key that is neither one of the fixed keys nor an option name is not
    in the dictionary. *)
Lemma meta_info_data_lookup_None meta_info k :
  k ≠ "displayName" → k ≠ "frameTitle" → k ≠ "colorIndex" → k ≠ "frame" →
  k ∉ option_names meta_info →
  meta_info_data meta_info !! k = None.
Proof.
  intros H1 H2 H3 H4 Hk. unfold meta_info_data.
  destruct (find_child "frame" meta_info);
    destruct (find_desc "RecentProjectColorInfo" meta_info);
    rewrite ?lookup_insert_ne by done;
    rewrite foldl_add_option_lookup by done;
    by rewrite !lookup_insert_ne, lookup_empty by done.
Qed.

Lemma meta_info_data_frame meta_info frame_elem :
  find_child "frame" meta_info = Some frame_elem →
  meta_info_data meta_info !! "frame" = Some (Some (frame_text frame_elem)).
Proof. intros Hf. unfold meta_info_data. rewrite Hf. apply lookup_insert_eq. Qed.

Lemma meta_info_data_no_frame meta_info :
  find_child "frame" meta_info = None → "frame" ∉ option_names meta_info →
  meta_info_data meta_info !! "frame" = None.
Proof.
  intros Hf Hk. unfold meta_info_data. rewrite Hf.
  destruct (find_desc "RecentProjectColorInfo" meta_info);
    rewrite ?lookup_insert_ne by done;
    rewrite foldl_add_option_lookup by done;
    by rewrite !lookup_insert_ne, lookup_empty by done.
Qed.

Lemma meta_info_data_attribute meta_info k :
  k = "displayName" ∨ k = "frameTitle" →
  k ∉ option_names meta_info →
  meta_info_data meta_info !! k = Some (Some (get_or meta_info k "")).
Proof.
  intros Hk Hn. unfold meta_info_data.
  destruct (find_child "frame" meta_info);
    destruct (find_desc "RecentProjectColorInfo" meta_info);
    rewrite ?lookup_insert_ne by (by destruct Hk as [-> | ->]);
    rewrite foldl_add_option_lookup by done;
    destruct Hk as [-> | ->];
    by rewrite ?lookup_insert_eq, ?lookup_insert_ne, ?lookup_insert_eq by done.
Qed.

Lemma meta_info_data_color meta_info color_info :
  find_desc "RecentProjectColorInfo" meta_info = Some color_info →
  meta_info_data meta_info !! "colorIndex" = Some (get color_info "associatedIndex").
Proof.
  intros Hc. unfold meta_info_data. rewrite Hc.
  destruct (find_child "frame" meta_info);
    by rewrite ?lookup_insert_ne, lookup_insert_eq by done.
Qed.

Lemma meta_info_data_no_color meta_info :
  find_desc "RecentProjectColorInfo" meta_info = None →
  "colorIndex" ∉ option_names meta_info →
  meta_info_data meta_info !! "colorIndex" = None.
Proof.
  intros Hc Hk. unfold meta_info_data. rewrite Hc.
  destruct (find_child "frame" meta_info);
    rewrite ?lookup_insert_ne by done;
    rewrite foldl_add_option_lookup by done;
    by rewrite !lookup_insert_ne, lookup_empty by done.
Qed.

Lemma entry_project_inv w name version entry p :
  entry_project w name version entry = Ok p →
  ∃ path, p = new_project name version path (entry_data entry).
Proof.
  unfold entry_project. destruct (entry_project_path w entry) as [path|msg]; [|done].
  intros [= <-]. by exists path.
Qed.

(** C2, as the code has it. The window summary is composed whenever the
    metadata element has a [frame] child, whatever attributes that child
    has: an attribute that is missing is written as the text [None]. With
    all four attributes the summary is [x=.. y=.. w=.. h=..] with their
    values. Without a [frame] child (and without an option named [frame]),
    or without a metadata element, the field is the empty string. *)
Theorem frame_is_composed_from_frame_element
    (w : World) (name version : string) (entry : element) (p : JetBrainsProject) :
  entry_project w name version entry = Ok p →
  (∀ meta_info frame_elem,
     find_desc "RecentProjectMetaInfo" entry = Some meta_info →
     find_child "frame" meta_info = Some frame_elem →
     frame p = Some ("x=" +:+ fstr (get frame_elem "x") +:+
                     " y=" +:+ fstr (get frame_elem "y") +:+
                     " w=" +:+ fstr (get frame_elem "width") +:+
                     " h=" +:+ fstr (get frame_elem "height")) ∧
     truthy_opt (frame p) = true) ∧
  (∀ meta_info frame_elem x y width height,
     find_desc "RecentProjectMetaInfo" entry = Some meta_info →
     find_child "frame" meta_info = Some frame_elem →
     get frame_elem "x" = Some x → get frame_elem "y" = Some y →
     get frame_elem "width" = Some width → get frame_elem "height" = Some height →
     frame p = Some ("x=" +:+ x +:+ " y=" +:+ y +:+ " w=" +:+ width +:+ " h=" +:+ height)) ∧
  (∀ meta_info,
     find_desc "RecentProjectMetaInfo" entry = Some meta_info →
     find_child "frame" meta_info = None →
     "frame" ∉ option_names meta_info →
     frame p = Some "") ∧
  (find_desc "RecentProjectMetaInfo" entry = None → frame p = Some "").
Proof.
  intros Hp. apply entry_project_inv in Hp as [path ->].
  unfold new_project, entry_data, dict_get_or. cbn [frame].
  assert (∀ meta_info frame_elem,
            find_desc "RecentProjectMetaInfo" entry = Some meta_info →
            find_child "frame" meta_info = Some frame_elem →
            default (Some "")
              (match find_desc "RecentProjectMetaInfo" entry with
               | Some m => meta_info_data m
               | None => ∅
               end !! "frame") = Some (frame_text frame_elem)) as Hframe.
  { intros m f -> Hf. by rewrite (meta_info_data_frame m f). }
  split; [|split; [|split]].
  - intros m f Hm Hf. by rewrite (Hframe m f).
  - intros m f x y width height Hm Hf Hx Hy Hw Hh. rewrite (Hframe m f) by done.
    unfold frame_text. by rewrite Hx, Hy, Hw, Hh.
  - intros m -> Hf Hn. by rewrite meta_info_data_no_frame.
  - by intros ->.
Qed.

Lemma frame_is_composed_from_frame_element_witness :
  entry_project sample_world "PyCharm" "2024.3" partial_frame_entry
    = Ok (new_project "PyCharm" "2024.3" "/home/u/proj" (entry_data partial_frame_entry)) ∧
  find_desc "RecentProjectMetaInfo" partial_frame_entry = Some partial_frame_meta ∧
  find_child "frame" partial_frame_meta
    = Some (Element "frame" [("x", "0"); ("y", "25"); ("width", "1920")] []) ∧
  frame (new_project "PyCharm" "2024.3" "/home/u/proj" (entry_data partial_frame_entry))
    = Some "x=0 y=25 w=1920 h=None".
Proof.
  split; [reflexivity|]. split; [reflexivity|]. split; [reflexivity|].
  apply (proj1 (frame_is_composed_from_frame_element sample_world "PyCharm" "2024.3"
                  partial_frame_entry _ eq_refl)
           partial_frame_meta
           (Element "frame" [("x", "0"); ("y", "25"); ("width", "1920")] [])
           eq_refl eq_refl).
Defined.

(** C2 as stated fails: the frame of [partial_frame_entry] has no height,
    and the record's window summary is [x=0 y=25 w=1920 h=None], not
    absent. *)
Lemma frame_is_composed_from_frame_element_counterexample :
  ¬ (∀ (w : World) (name version : string) (entry meta_info frame_elem : element)
       (p : JetBrainsProject),
       entry_project w name version entry = Ok p →
       find_desc "RecentProjectMetaInfo" entry = Some meta_info →
       find_child "frame" meta_info = Some frame_elem →
       (truthy_opt (frame p) = true ↔
        is_Some (get frame_elem "x") ∧ is_Some (get frame_elem "y") ∧
        is_Some (get frame_elem "width") ∧ is_Some (get frame_elem "height"))).
Proof.
  intros H.
  destruct (H sample_world "PyCharm" "2024.3" partial_frame_entry partial_frame_meta
              (Element "frame" [("x", "0"); ("y", "25"); ("width", "1920")] [])
              (new_project "PyCharm" "2024.3" "/home/u/proj"
                 (entry_data partial_frame_entry))
              eq_refl eq_refl eq_refl) as [Hfour _].
  destruct Hfour as (_ & _ & _ & [height Hheight]).
  - vm_compute. reflexivity.
  - vm_compute in Hheight. discriminate Hheight.
Qed.

(** C3, as the code has it. What is missing in the source is kept in two
    ways. The two timestamps and the colour index are [None]. The display
    name, the frame title, the build and the window summary are the empty
    string. "Missing" means: no metadata element at all, or a metadata
    element without the attribute, the option or the child element that
    would set the field. *)
Theorem fields_absent_in_source
    (w : World) (name version : string) (entry : element) (p : JetBrainsProject) :
  entry_project w name version entry = Ok p →
  (find_desc "RecentProjectMetaInfo" entry = None →
     display_name p = Some "" ∧ frame_title p = Some "" ∧
     build p = Some "" ∧ frame p = Some "" ∧
     activation_timestamp p = None ∧ project_open_timestamp p = None ∧
     color_index p = None) ∧
  (∀ meta_info,
     find_desc "RecentProjectMetaInfo" entry = Some meta_info →
     (get meta_info "displayName" = None → "displayName" ∉ option_names meta_info →
        display_name p = Some "") ∧
     (get meta_info "frameTitle" = None → "frameTitle" ∉ option_names meta_info →
        frame_title p = Some "") ∧
     ("build" ∉ option_names meta_info → build p = Some "") ∧
     (find_child "frame" meta_info = None → "frame" ∉ option_names meta_info →
        frame p = Some "") ∧
     ("activationTimestamp" ∉ option_names meta_info → activation_timestamp p = None) ∧
     ("projectOpenTimestamp" ∉ option_names meta_info →
        project_open_timestamp p = None) ∧
     (find_desc "RecentProjectColorInfo" meta_info = None →
        "colorIndex" ∉ option_names meta_info → color_index p = None) ∧
     (∀ color_info,
        find_desc "RecentProjectColorInfo" meta_info = Some color_info →
        get color_info "associatedIndex" = None → color_index p = None)).
Proof.
  intros Hp. apply entry_project_inv in Hp as [path ->].
  unfold new_project, entry_data, dict_get_or, dict_get. simpl.
  split.
  - by intros ->.
  - intros m ->. repeat split.
    + intros Ha Hn. rewrite meta_info_data_attribute by auto.
      unfold get_or. by rewrite Ha.
    + intros Ha Hn. rewrite meta_info_data_attribute by auto.
      unfold get_or. by rewrite Ha.
    + intros Hn. by rewrite meta_info_data_lookup_None.
    + intros Hf Hn. by rewrite meta_info_data_no_frame.
    + intros Hn. by rewrite meta_info_data_lookup_None.
    + intros Hn. by rewrite meta_info_data_lookup_None.
    + intros Hc Hn. by rewrite meta_info_data_no_color.
    + intros color_info Hc Ha. by rewrite (meta_info_data_color m color_info), Ha.
Qed.

Lemma fields_absent_in_source_witness :
  entry_project sample_world "PyCharm" "2024.3" (entry_with_key "/opt/other")
    = Ok (new_project "PyCharm" "2024.3" "/opt/other" ∅) ∧
  find_desc "RecentProjectMetaInfo" (entry_with_key "/opt/other") = None ∧
  display_name (new_project "PyCharm" "2024.3" "/opt/other" ∅) = Some "" ∧
  frame_title (new_project "PyCharm" "2024.3" "/opt/other" ∅) = Some "" ∧
  build (new_project "PyCharm" "2024.3" "/opt/other" ∅) = Some "" ∧
  frame (new_project "PyCharm" "2024.3" "/opt/other" ∅) = Some "" ∧
  activation_timestamp (new_project "PyCharm" "2024.3" "/opt/other" ∅) = None ∧
  project_open_timestamp (new_project "PyCharm" "2024.3" "/opt/other" ∅) = None ∧
  color_index (new_project "PyCharm" "2024.3" "/opt/other" ∅) = None.
Proof.
  split; [reflexivity|]. split; [reflexivity|].
  apply (proj1 (fields_absent_in_source sample_world "PyCharm" "2024.3"
                  (entry_with_key "/opt/other") _ eq_refl) eq_refl).
Defined.

(** C3 as stated fails: an entry without metadata gives a record whose
    display name is the empty string. *)
Lemma fields_absent_in_source_counterexample :
  ¬ (∀ (w : World) (name version : string) (entry : element) (p : JetBrainsProject),
       entry_project w name version entry = Ok p →
       find_desc "RecentProjectMetaInfo" entry = None →
       display_name p ≠ Some "" ∧ frame_title p ≠ Some "" ∧
       build p ≠ Some "" ∧ frame p ≠ Some "").
Proof.
  intros H.
  destruct (H sample_world "PyCharm" "2024.3" (entry_with_key "/opt/other")
              (new_project "PyCharm" "2024.3" "/opt/other" ∅) eq_refl eq_refl)
    as [Hname _].
  by apply Hname.
Qed.

(** ** The order of strings *)

Lemma ascii_compare_lt_trans a b c :
  Ascii.compare a b = Lt → Ascii.compare b c = Lt → Ascii.compare a c = Lt.
Proof.
  unfold Ascii.compare. rewrite !N.compare_lt_iff. apply N.lt_trans.
Qed.

Lemma string_compare_lt_trans s t u :
  String.compare s t = Lt → String.compare t u = Lt → String.compare s u = Lt.
Proof.
  revert t u. induction s as [|a s IH]; intros [|b t] [|c u]; simpl; try done.
  destruct (Ascii.compare a b) eqn:Hab; destruct (Ascii.compare b c) eqn:Hbc; try done.
  - apply Ascii.compare_eq_iff in Hab as ->. rewrite Hbc. apply IH.
  - apply Ascii.compare_eq_iff in Hab as ->. by rewrite Hbc.
  - apply Ascii.compare_eq_iff in Hbc as <-. by rewrite Hab.
  - by rewrite (ascii_compare_lt_trans a b c).
Qed.

Lemma string_ltb_asym s t : String.ltb s t = true → String.ltb t s = false.
Proof.
  unfold String.ltb. rewrite (String.compare_antisym s t).
  by destruct (String.compare t s).
Qed.

(** "Not less than" is transitive. *)
Lemma string_ltb_false_trans s t u :
  String.ltb s t = false → String.ltb t u = false → String.ltb s u = false.
Proof.
  unfold String.ltb. intros Hst Htu.
  destruct (String.compare s u) eqn:Hsu; [done| |done].
  destruct (String.compare s t) eqn:Hst'; [|done|].
  - apply String.compare_eq_iff in Hst' as ->. by rewrite Hsu in Htu.
  - destruct (String.compare t u) eqn:Htu'; [|done|].
    + apply String.compare_eq_iff in Htu' as ->. by rewrite Hsu in Hst'.
    + pose proof (String.compare_antisym u t) as H1. rewrite Htu' in H1.
      pose proof (String.compare_antisym t s) as H2. rewrite Hst' in H2.
      pose proof (string_compare_lt_trans u t s H1 H2) as H3.
      rewrite (String.compare_antisym s u), H3 in Hsu. done.
Qed.

(** A decimal number other than [0] is greater, as a string, than ["0"]. *)
Lemma string_ltb_zero_digits ts :
  truthy ts = true → all_digits ts = true → ts ≠ "0" → String.ltb "0" ts = true.
Proof.
  destruct ts as [|c ts]; [done|]. intros _ Hd Hne. simpl in Hd.
  apply andb_true_iff in Hd as [Hc _].
  unfold String.ltb. cbn [String.compare].
  unfold is_digit in Hc. apply andb_true_iff in Hc as [Hlo _].
  apply Nat.leb_le in Hlo.
  unfold Ascii.compare.
  destruct (N.compare_spec (N_of_ascii "0") (N_of_ascii c)) as [Heq|Hlt|Hgt].
  - apply (f_equal ascii_of_N) in Heq. rewrite !ascii_N_embedding in Heq. subst c.
    destruct ts; [done|done].
  - done.
  - exfalso. unfold nat_of_ascii in Hlo. change (N_of_ascii "0") with 48%N in Hgt. lia.
Qed.

(** ** Stable sorting *)

Section sorting.

Context {A : Type} (before : A → A → bool).

Hypothesis before_asym : ∀ x y, before y x = true → before x y = false.
Hypothesis may_precede_trans :
  ∀ x y z, may_precede before x y → may_precede before y z → may_precede before x z.

Lemma insert_by_Permutation x l : insert_by before x l ≡ₚ x :: l.
Proof.
  induction l as [|y l IH]; simpl; [done|].
  destruct (before y x); [|done]. rewrite IH. apply Permutation_swap.
Qed.

Lemma sorted_by_Permutation l : sorted_by before l ≡ₚ l.
Proof.
  induction l as [|x l IH]; simpl; [done|].
  by rewrite insert_by_Permutation, IH.
Qed.

Lemma insert_by_StronglySorted x l :
  StronglySorted (may_precede before) l → StronglySorted (may_precede before) (insert_by before x l).
Proof using before_asym may_precede_trans.
  induction 1 as [|y l Hl IH Hy]; simpl.
  - repeat constructor.
  - destruct (before y x) eqn:Hyx.
    + constructor; [done|].
      rewrite insert_by_Permutation. constructor; [|done].
      by apply before_asym.
    + constructor; [by constructor|].
      constructor; [done|].
      eapply Forall_impl; [done|]. intros z Hz.
      by apply (may_precede_trans x y z).
Qed.

Lemma sorted_by_StronglySorted l : StronglySorted (may_precede before) (sorted_by before l).
Proof using before_asym may_precede_trans.
  induction l as [|x l IH]; simpl; [constructor|].
  by apply insert_by_StronglySorted.
Qed.

Lemma StronglySorted_lookup_lt (R : A → A → Prop) l i j x y :
  StronglySorted R l → l !! i = Some x → l !! j = Some y → i < j → R x y.
Proof.
  intros Hl. revert i j. induction Hl as [|z l Hl IH Hz]; intros i j Hi Hj Hij; [done|].
  destruct j as [|j]; [lia|]. destruct i as [|i]; simpl in *.
  - injection Hi as ->. rewrite Forall_forall in Hz. apply Hz.
    by eapply list_elem_of_lookup_2.
  - apply (IH i j); [done|done|lia].
Qed.

End sorting.

(** ** The two views *)

Lemma sort_by_activation_Permutation l : sort_by_activation l ≡ₚ l.
Proof. apply sorted_by_Permutation. Qed.

Lemma sort_by_activation_sorted l :
  StronglySorted (λ p q, String.ltb (sort_key p) (sort_key q) = false)
    (sort_by_activation l).
Proof.
  apply (sorted_by_StronglySorted (λ y x, String.ltb (sort_key x) (sort_key y))).
  - intros x y. apply string_ltb_asym.
  - intros x y z. unfold may_precede. apply string_ltb_false_trans.
Qed.

Lemma string_ltb_irrefl s : String.ltb s s = false.
Proof.
  unfold String.ltb. pose proof (String.compare_antisym s s) as H.
  by destruct (String.compare s s).
Qed.

(** The sort is stable: the records with one and the same key keep the
    order they had. *)
Lemma sort_by_activation_stable l key :
  filter (λ p, sort_key p = key) (sort_by_activation l) =
  filter (λ p, sort_key p = key) l.
Proof.
  unfold sort_by_activation, sorted_by.
  induction l as [|x l IH]; [done|]. cbn [foldr].
  rewrite (filter_cons _ x l), <- IH.
  generalize (foldr (insert_by (λ y x0, String.ltb (sort_key x0) (sort_key y))) [] l).
  clear IH. intros sorted. induction sorted as [|y sorted IH]; [done|].
  cbn [insert_by]. destruct (String.ltb (sort_key x) (sort_key y)) eqn:Hxy.
  - rewrite !filter_cons, IH.
    destruct (decide (sort_key y = key)) as [Hy|Hy];
      destruct (decide (sort_key x = key)) as [Hx|Hx]; try done.
    rewrite Hx, Hy, string_ltb_irrefl in Hxy. done.
  - by rewrite !filter_cons.
Qed.

Lemma sort_key_absent p :
  truthy_opt (activation_timestamp p) = false → sort_key p = "0".
Proof.
  unfold sort_key, py_or, truthy_opt.
  destruct (activation_timestamp p); [by intros ->|done].
Qed.

Lemma sort_key_present p ts :
  activation_timestamp p = Some ts → String.ltb "0" ts = true → sort_key p = ts.
Proof. unfold sort_key, py_or. intros -> Hts. by destruct ts. Qed.

(** In a list sorted by activation, a record without timestamp stands
    behind every record whose timestamp is greater than ["0"]. *)
Lemma sort_by_activation_absent_last l i j a p ts :
  sort_by_activation l !! i = Some a →
  sort_by_activation l !! j = Some p →
  truthy_opt (activation_timestamp a) = false →
  activation_timestamp p = Some ts →
  String.ltb "0" ts = true →
  j < i.
Proof.
  intros Hi Hj Ha Hp Hts.
  pose proof (sort_key_absent a Ha) as Hka.
  pose proof (sort_key_present p ts Hp Hts) as Hkp.
  destruct (decide (j < i)) as [|Hge]; [done|exfalso].
  destruct (decide (i = j)) as [->|Hne].
  - rewrite Hi in Hj. injection Hj as ->. rewrite Hka in Hkp. by subst ts.
  - assert (i < j) as Hij by lia.
    pose proof (StronglySorted_lookup_lt _ _ i j a p
                  (sort_by_activation_sorted l) Hi Hj Hij) as H.
    simpl in H. rewrite Hka, Hkp, Hts in H. discriminate H.
Qed.

Lemma group_add_lookup (d : gmap string (list JetBrainsProject)) p k :
  group_add d p !! k =
  if decide (ide_key p = k) then Some (default [] (d !! k) ++ [p]) else d !! k.
Proof.
  unfold group_add. case_decide as Hk.
  - subst k. destruct (d !! ide_key p) as [g|] eqn:Hd.
    + by rewrite lookup_alter_eq, Hd.
    + by rewrite lookup_alter_eq, lookup_insert_eq.
  - rewrite lookup_alter_ne by done.
    destruct (d !! ide_key p); [done|]. by rewrite lookup_insert_ne.
Qed.

Lemma foldl_group_add_lookup (d : gmap string (list JetBrainsProject)) l k :
  foldl group_add d l !! k =
  match d !! k, filter (λ p, ide_key p = k) l with
  | Some g, f => Some (g ++ f)
  | None, [] => None
  | None, f => Some f
  end.
Proof.
  revert d. induction l as [|p l IH]; intros d; simpl.
  - destruct (d !! k); [by rewrite app_nil_r|done].
  - rewrite IH, group_add_lookup, filter_cons. case_decide as Hk.
    + destruct (d !! k); simpl; [by rewrite <- app_assoc|done].
    + done.
Qed.

(** A partition of the grouped view is the sorted list of the records with
    that key. *)
Lemma grouped_view_lookup projects key group :
  grouped_view projects !! key = Some group →
  group = sort_by_activation (filter (λ p, ide_key p = key) projects).
Proof.
  unfold grouped_view. rewrite lookup_fmap, foldl_group_add_lookup, lookup_empty.
  destruct (filter _ projects); [done|]. by intros [= <-].
Qed.

(** C4, as the code has it. Both views are sorted with the key
    [activation_timestamp or '0'], a string, larger keys first: the global
    view is a sorted rearrangement of all records, every partition of the
    grouped view a sorted rearrangement of the records with that family and
    version. Keys compare as strings. A record without timestamp stands
    behind every record whose timestamp is greater than ["0"] as a string,
    which every decimal number other than [0] is. The sort is stable:
    records with equal keys, such as a record without timestamp and one
    with the timestamp [0], keep the order they had. *)
Theorem views_sorted_by_activation_key (projects : list JetBrainsProject) :
  (global_view projects ≡ₚ projects ∧
   StronglySorted (λ p q, String.ltb (sort_key p) (sort_key q) = false)
     (global_view projects)) ∧
  (∀ key group,
     grouped_view projects !! key = Some group →
     group ≡ₚ filter (λ p, ide_key p = key) projects ∧
     StronglySorted (λ p q, String.ltb (sort_key p) (sort_key q) = false) group) ∧
  (∀ i j a p ts,
     global_view projects !! i = Some a →
     global_view projects !! j = Some p →
     truthy_opt (activation_timestamp a) = false →
     activation_timestamp p = Some ts →
     String.ltb "0" ts = true →
     j < i) ∧
  (∀ key group i j a p ts,
     grouped_view projects !! key = Some group →
     group !! i = Some a →
     group !! j = Some p →
     truthy_opt (activation_timestamp a) = false →
     activation_timestamp p = Some ts →
     String.ltb "0" ts = true →
     j < i) ∧
  (∀ ts, truthy ts = true → all_digits ts = true → ts ≠ "0" →
         String.ltb "0" ts = true) ∧
  (∀ k, filter (λ p, sort_key p = k) (global_view projects) =
        filter (λ p, sort_key p = k) projects) ∧
  (∀ key group k,
     grouped_view projects !! key = Some group →
     filter (λ p, sort_key p = k) group =
     filter (λ p, sort_key p = k) (filter (λ p, ide_key p = key) projects)).
Proof.
  split; [|split; [|split; [|split; [|split; [|split]]]]].
  - split; [apply sort_by_activation_Permutation|apply sort_by_activation_sorted].
  - intros key group Hg. apply grouped_view_lookup in Hg as ->.
    split; [apply sort_by_activation_Permutation|apply sort_by_activation_sorted].
  - intros i j a p ts. apply sort_by_activation_absent_last.
  - intros key group i j a p ts Hg. apply grouped_view_lookup in Hg as ->.
    apply sort_by_activation_absent_last.
  - apply string_ltb_zero_digits.
  - intros k. apply sort_by_activation_stable.
  - intros key group k Hg. apply grouped_view_lookup in Hg as ->.
    apply sort_by_activation_stable.
Qed.

Lemma views_sorted_by_activation_key_witness :
  global_view [timed_project "/a" None; timed_project "/b" (Some "1700000000000")] !! 1
    = Some (timed_project "/a" None) ∧
  global_view [timed_project "/a" None; timed_project "/b" (Some "1700000000000")] !! 0
    = Some (timed_project "/b" (Some "1700000000000")) ∧
  truthy_opt (activation_timestamp (timed_project "/a" None)) = false ∧
  activation_timestamp (timed_project "/b" (Some "1700000000000"))
    = Some "1700000000000" ∧
  String.ltb "0" "1700000000000" = true ∧
  0 < 1.
Proof.
  split; [reflexivity|]. split; [reflexivity|]. split; [reflexivity|].
  split; [reflexivity|]. split; [reflexivity|].
  apply (proj1 (proj2 (proj2 (views_sorted_by_activation_key
           [timed_project "/a" None; timed_project "/b" (Some "1700000000000")])))
           1 0 (timed_project "/a" None) (timed_project "/b" (Some "1700000000000"))
           "1700000000000");
    reflexivity.
Defined.

(** C4 as stated fails: a record whose timestamp is [0] has the key of a
    record without timestamp, and the sort keeps the two in the order it
    found them; here the record without timestamp stays in front. *)
Lemma views_sorted_by_activation_key_counterexample :
  ¬ (∀ (projects : list JetBrainsProject) (i j : nat) (a p : JetBrainsProject),
       global_view projects !! i = Some a →
       global_view projects !! j = Some p →
       activation_timestamp a = None →
       is_Some (activation_timestamp p) →
       j < i).
Proof.
  intros H.
  specialize (H [timed_project "/a" None; timed_project "/b" (Some "0")] 0 1
                (timed_project "/a" None) (timed_project "/b" (Some "0"))).
  assert (1 < 0) as Hlt; [|lia].
  apply H; [reflexivity|reflexivity|reflexivity|]. by eexists.
Qed.

(** The keys are strings: ["9"] is greater than ["10"], so a record
    activated at 9 ms is listed before one activated at 10 ms; and a
    timestamp written with a sign is smaller than ["0"]. *)
Example string_order_of_timestamps :
  project_path <$> global_view [timed_project "/ten" (Some "10");
                                timed_project "/nine" (Some "9");
                                timed_project "/none" None;
                                timed_project "/minus" (Some "-1")]
  = ["/nine"; "/ten"; "/none"; "/minus"].
Proof. vm_compute. reflexivity. Qed.

(** ** The export *)

Section export.

Context (w : World).

Lemma export_object_ok p t :
  get_activation_time w p = Ok t →
  ∃ obj, export_object w p = Ok obj ∧ exported w p obj.
Proof.
  intros Ht. unfold export_object. rewrite !Ht.
  destruct t as [dt|]; cbn [mbind result_bind mret result_ret];
    eexists; (split; [reflexivity|]); unfold exported; rewrite Ht; by cbn.
Qed.

Lemma export_object_raise p msg :
  get_activation_time w p = Raise msg → export_object w p = Raise msg.
Proof. intros Ht. unfold export_object. by rewrite Ht. Qed.

Lemma export_data_ok projects data :
  Forall (λ p, is_ok (get_activation_time w p) = true) projects →
  ∃ objs, export_data w projects data = Ok (data ++ objs) ∧
          Forall2 (exported w) projects objs.
Proof.
  intros H. revert data. induction H as [|p projects Hp _ IH]; intros data.
  - exists []. by rewrite app_nil_r.
  - destruct (get_activation_time w p) as [t|msg] eqn:Ht; [|done].
    destruct (export_object_ok p t Ht) as (obj & Hobj & Hexp).
    destruct (IH (data ++ [obj])) as (objs & Hobjs & Hall).
    exists (obj :: objs). cbn [export_data]. rewrite Hobj. cbn [mbind result_bind].
    rewrite Hobjs, <- app_assoc. split; [done|]. by constructor.
Qed.

Lemma export_data_raise projects data :
  Exists (λ p, is_ok (get_activation_time w p) = false) projects →
  ∃ msg, export_data w projects data = Raise msg.
Proof.
  intros H. revert data. induction H as [p projects Hp|p projects _ IH]; intros data.
  - destruct (get_activation_time w p) as [t|msg] eqn:Ht; [done|].
    exists msg. cbn [export_data]. by rewrite (export_object_raise p msg).
  - cbn [export_data]. destruct (export_object w p) as [obj|msg]; [|by exists msg].
    apply IH.
Qed.

Lemma export_to_json_ok projects output_file :
  Forall (λ p, is_ok (get_activation_time w p) = true) projects →
  ∃ data,
    export_to_json w projects output_file =
      ([WriteJson (export_destination w output_file) data;
        Print (nl +:+ "Exported to " +:+ export_destination w output_file)], Ok tt) ∧
    Forall2 (exported w) projects data.
Proof.
  intros H. destruct (export_data_ok projects [] H) as (data & Hdata & Hall).
  exists data. split; [|done].
  unfold export_to_json. fold (export_destination w output_file).
  by rewrite Hdata.
Qed.

Lemma export_to_json_raise projects output_file :
  Exists (λ p, is_ok (get_activation_time w p) = false) projects →
  ∃ msg, export_to_json w projects output_file = ([], Raise msg).
Proof.
  intros H. destruct (export_data_raise projects [] H) as (msg & Hmsg).
  exists msg. unfold export_to_json. by rewrite Hmsg.
Qed.

End export.

(** C6, as the code has it. When the activation timestamp of every record
    can be turned into a time, the export writes one file holding exactly
    one object per record, in the order of the list, each with the record's
    fields and with [exists] as [os.path.exists] answers for the record's
    path in the world in which the export runs. When some timestamp cannot
    be converted, the export raises and writes nothing. *)
Theorem export_one_object_per_record
    (w : World) (projects : list JetBrainsProject) (output_file : option string) :
  (Forall (λ p, is_ok (get_activation_time w p) = true) projects →
   ∃ data,
     export_to_json w projects output_file =
       ([WriteJson (export_destination w output_file) data;
         Print (nl +:+ "Exported to " +:+ export_destination w output_file)], Ok tt) ∧
     Forall2 (exported w) projects data) ∧
  (Exists (λ p, is_ok (get_activation_time w p) = false) projects →
   ∃ msg, export_to_json w projects output_file = ([], Raise msg)).
Proof.
  split; [apply export_to_json_ok|apply export_to_json_raise].
Qed.

Lemma export_one_object_per_record_witness :
  outcome (find_all_recent_projects mixed_world) = Ok sample_projects ∧
  Forall (λ p, is_ok (get_activation_time mixed_world p) = true) sample_projects ∧
  ∃ data,
    export_to_json mixed_world sample_projects None =
      ([WriteJson "jetbrains_projects.json" data;
        Print (nl +:+ "Exported to " +:+ "jetbrains_projects.json")], Ok tt) ∧
    Forall2 (exported mixed_world) sample_projects data.
Proof.
  split; [vm_compute; reflexivity|].
  split; [repeat constructor|].
  apply (proj1 (export_one_object_per_record mixed_world sample_projects None)).
  repeat constructor.
Defined.

(** The probe is made by the export, in the world the export runs in: of
    the two records found in [mixed_world], the first exists there and the
    second does not; exported in [sample_world], where neither path exists,
    the same records get [false] twice. *)
Example export_probe_is_fresh :
  let probes (w : World) :=
    (λ e, match e with
          | WriteJson _ data => (λ obj, (j_project_path obj, j_exists obj)) <$> data
          | Print _ => []
          end) <$> trace (export_to_json w sample_projects None) in
  probes mixed_world = [[("/home/u/proj", true); ("/opt/other", false)]; []] ∧
  probes sample_world = [[("/home/u/proj", false); ("/opt/other", false)]; []].
Proof. vm_compute. split; reflexivity. Qed.

(** C6 as stated fails: the scan of [bad_timestamp_world] returns a record
    whose activation timestamp is the text [n/a]; [int] raises on it, and
    the export ends before the file is written. *)
Lemma export_one_object_per_record_counterexample :
  ¬ (∀ (w : World) (projects : list JetBrainsProject),
       outcome (find_all_recent_projects w) = Ok projects →
       ∃ file data,
         WriteJson file data ∈ trace (export_to_json w projects None) ∧
         Forall2 (λ p obj, j_project_path obj = project_path p ∧
                           j_exists obj = w_exists w (project_path p))
           projects data).
Proof.
  intros H.
  destruct (H bad_timestamp_world
              (file_projects "/home/u" "PyCharm" "2024.3" bad_timestamp_root))
    as (file & data & Hwrite & _).
  - vm_compute. reflexivity.
  - vm_compute in Hwrite. by apply elem_of_nil in Hwrite.
Qed.

(** ** The report *)

Lemma py_bind_unit_ok {A B} (m : Py A) (k : A → Py B) a :
  outcome m = Ok a → m ≫= k = (trace m ++ trace (k a), outcome (k a)).
Proof.
  intros H. rewrite (py_eta m), H. unfold mbind, py_bind.
  cbn [trace outcome fst snd]. by destruct (k a).
Qed.

Lemma for_each_outcome {A} (body : A → Py unit) l :
  Forall (λ x, outcome (body x) = Ok tt) l → outcome (for_each body l) = Ok tt.
Proof.
  induction 1 as [|x l Hx _ IH]; [done|].
  cbn [for_each]. by rewrite outcome_bind, Hx.
Qed.

Lemma outcome_when b m : outcome m = Ok tt → outcome (when b m) = Ok tt.
Proof. by destruct b. Qed.

Lemma enumerate1_Forall {A} (P : A → Prop) (l : list A) :
  Forall P l → Forall (λ e, P e.2) (enumerate1 l).
Proof.
  rewrite !Forall_forall. intros H [i x] Hx. apply H.
  unfold enumerate1 in Hx. by apply elem_of_zip_r in Hx.
Qed.

Section report.

Context (w : World).

Lemma display_ide_entry_outcome i p :
  timestamps_ok w p = true → outcome (display_ide_entry w (i, p)) = Ok tt.
Proof.
  unfold timestamps_ok. intros H. apply andb_true_iff in H as [Ha Ho].
  destruct (get_activation_time w p) as [ta|] eqn:Hta; [|done].
  destruct (get_open_time w p) as [to|] eqn:Hto; [|done].
  unfold display_ide_entry.
  repeat (rewrite outcome_bind; cbn [outcome print lift snd]).
  rewrite outcome_when by done. rewrite Hta.
  rewrite outcome_bind. destruct ta; cbn [outcome print mret py_ret snd];
    rewrite outcome_bind; cbn [outcome lift snd]; rewrite Hto;
    rewrite outcome_bind; destruct to; cbn [outcome print mret py_ret snd];
    rewrite outcome_bind, outcome_when by done;
    rewrite outcome_bind, outcome_when by done;
    rewrite outcome_bind; destruct (color_index p); cbn [outcome print mret py_ret snd];
    by destruct (w_exists w (project_path p)).
Qed.

Lemma display_sorted_entry_outcome i p :
  is_ok (get_activation_time w p) = true →
  outcome (display_sorted_entry w (i, p)) = Ok tt.
Proof.
  intros Ha. destruct (get_activation_time w p) as [ta|] eqn:Hta; [|done].
  unfold display_sorted_entry.
  rewrite outcome_bind. cbn [outcome lift snd]. rewrite Hta.
  repeat (rewrite outcome_bind; cbn [outcome print snd]).
  by apply outcome_when.
Qed.

Lemma grouped_view_Forall (P : JetBrainsProject → Prop) projects key :
  Forall P projects → Forall P (default [] (grouped_view projects !! key)).
Proof.
  intros H. destruct (grouped_view projects !! key) as [group|] eqn:Hg; [|done].
  apply grouped_view_lookup in Hg as ->. simpl.
  rewrite sort_by_activation_Permutation.
  rewrite Forall_forall in H. apply Forall_forall. intros p Hp.
  apply list_elem_of_filter in Hp as [_ Hp]. by apply H.
Qed.

Lemma display_ide_group_outcome projects key :
  Forall (λ p, timestamps_ok w p = true) projects →
  outcome (display_ide_group w (grouped_view projects) key) = Ok tt.
Proof.
  intros H. unfold display_ide_group.
  repeat (rewrite outcome_bind; cbn [outcome print snd]).
  apply for_each_outcome.
  pose proof (enumerate1_Forall _ _ (grouped_view_Forall _ _ key H)) as He.
  eapply Forall_impl; [exact He|]. intros [i p] Hp. by apply display_ide_entry_outcome.
Qed.

Lemma display_projects_by_ide_outcome projects :
  Forall (λ p, timestamps_ok w p = true) projects →
  outcome (display_projects_by_ide w projects) = Ok tt.
Proof.
  intros H. unfold display_projects_by_ide.
  repeat (rewrite outcome_bind; cbn [outcome print snd]).
  rewrite for_each_outcome.
  - by repeat (rewrite outcome_bind; cbn [outcome print snd]).
  - apply Forall_forall. intros key _. by apply display_ide_group_outcome.
Qed.

Lemma display_all_projects_sorted_outcome projects :
  Forall (λ p, timestamps_ok w p = true) projects →
  outcome (display_all_projects_sorted w projects) = Ok tt.
Proof.
  intros H. unfold display_all_projects_sorted.
  repeat (rewrite outcome_bind; cbn [outcome print snd]).
  apply for_each_outcome. unfold global_view.
  assert (Forall (λ p, is_ok (get_activation_time w p) = true)
            (sort_by_activation projects)) as Hs.
  { rewrite sort_by_activation_Permutation. eapply Forall_impl; [exact H|].
    intros p Hp. unfold timestamps_ok in Hp. by apply andb_true_iff in Hp as [? _]. }
  pose proof (enumerate1_Forall _ _ Hs) as He.
  eapply Forall_impl; [exact He|]. intros [i p] Hp. by apply display_sorted_entry_outcome.
Qed.

End report.

(** C8, as the code has it, for a scan that returns [projects] whose
    timestamps can all be turned into times. With [JSON_OUTPUT_PATH] set,
    [main] scans and exports to that file, and prints nothing but what the
    scan and the export print: no report. Without it and with at least one
    record, [main] prints the grouped report and the global report and then
    exports to [jetbrains_projects.json]. Without it and with no record,
    [main] prints [No projects found.] and stops: no report and no export. *)
Theorem main_modes (w : World) (projects : list JetBrainsProject) :
  outcome (find_all_recent_projects w) = Ok projects →
  Forall (λ p, timestamps_ok w p = true) projects →
  (∀ dest,
     w_json_output_path w = Some dest →
     ∃ data,
       main w =
         (trace (find_all_recent_projects w) ++
          [WriteJson dest data; Print (nl +:+ "Exported to " +:+ dest)], Ok tt) ∧
       Forall2 (exported w) projects data) ∧
  (w_json_output_path w = None → projects ≠ [] →
     ∃ data,
       main w =
         ([Print "Scanning JetBrains IDE configurations..."] ++
          trace (find_all_recent_projects w) ++
          trace (display_projects_by_ide w projects) ++
          trace (display_all_projects_sorted w projects) ++
          [WriteJson "jetbrains_projects.json" data;
           Print (nl +:+ "Exported to " +:+ "jetbrains_projects.json")], Ok tt) ∧
       Forall2 (exported w) projects data) ∧
  (w_json_output_path w = None → projects = [] →
     main w =
       ([Print "Scanning JetBrains IDE configurations..."] ++
        trace (find_all_recent_projects w) ++
        [Print "No projects found."], Ok tt)).
Proof.
  intros Hscan Htimes.
  assert (Forall (λ p, is_ok (get_activation_time w p) = true) projects) as Hact.
  { eapply Forall_impl; [exact Htimes|]. intros p Hp.
    unfold timestamps_ok in Hp. by apply andb_true_iff in Hp as [? _]. }
  destruct (export_to_json_ok w projects None Hact) as (data & Hexport & Hdata).
  unfold export_destination in Hexport.
  split; [|split].
  - intros dest Hdest. exists data. split; [|done].
    unfold main. rewrite Hdest in *. cbn [default] in Hexport.
    rewrite bool_decide_eq_true_2 by by eexists.
    rewrite (py_bind_unit_ok _ _ projects Hscan), Hexport. done.
  - intros Hdest Hne. exists data. split; [|done].
    unfold main. rewrite Hdest in *. cbn [default] in Hexport.
    rewrite bool_decide_eq_false_2 by by intros [? ?].
    rewrite (py_bind_unit_ok (print _) _ tt) by done.
    rewrite (py_bind_unit_ok _ _ projects Hscan).
    destruct projects as [|p ps]; [done|].
    rewrite (py_bind_unit_ok (display_projects_by_ide _ _) _ tt)
      by by apply display_projects_by_ide_outcome.
    rewrite (py_bind_unit_ok (display_all_projects_sorted _ _) _ tt)
      by by apply display_all_projects_sorted_outcome.
    rewrite Hexport. done.
  - intros Hdest ->.
    unfold main. rewrite Hdest.
    rewrite bool_decide_eq_false_2 by by intros [? ?].
    rewrite (py_bind_unit_ok (print _) _ tt) by done.
    rewrite (py_bind_unit_ok _ _ [] Hscan). done.
Qed.

Lemma main_modes_witness :
  (outcome (find_all_recent_projects silent_world)
     = Ok (file_projects "/home/u" "PyCharm" "2024.3" sample_root) ∧
   w_json_output_path silent_world = Some "/tmp/out.json" ∧
   ∃ data,
     main silent_world =
       (trace (find_all_recent_projects silent_world) ++
        [WriteJson "/tmp/out.json" data;
         Print (nl +:+ "Exported to " +:+ "/tmp/out.json")], Ok tt) ∧
     Forall2 (exported silent_world)
       (file_projects "/home/u" "PyCharm" "2024.3" sample_root) data) ∧
  (outcome (find_all_recent_projects sample_world)
     = Ok (file_projects "/home/u" "PyCharm" "2024.3" sample_root) ∧
   w_json_output_path sample_world = None ∧
   ∃ data,
     main sample_world =
       ([Print "Scanning JetBrains IDE configurations..."] ++
        trace (find_all_recent_projects sample_world) ++
        trace (display_projects_by_ide sample_world
                 (file_projects "/home/u" "PyCharm" "2024.3" sample_root)) ++
        trace (display_all_projects_sorted sample_world
                 (file_projects "/home/u" "PyCharm" "2024.3" sample_root)) ++
        [WriteJson "jetbrains_projects.json" data;
         Print (nl +:+ "Exported to " +:+ "jetbrains_projects.json")], Ok tt) ∧
     Forall2 (exported sample_world)
       (file_projects "/home/u" "PyCharm" "2024.3" sample_root) data) ∧
  (outcome (find_all_recent_projects empty_world) = Ok [] ∧
   w_json_output_path empty_world = None ∧
   main empty_world =
     ([Print "Scanning JetBrains IDE configurations..."] ++
      trace (find_all_recent_projects empty_world) ++
      [Print "No projects found."], Ok tt)).
Proof.
  split; [|split].
  - split; [vm_compute; reflexivity|]. split; [reflexivity|].
    apply (proj1 (main_modes silent_world
                    (file_projects "/home/u" "PyCharm" "2024.3" sample_root)
                    ltac:(vm_compute; reflexivity) ltac:(repeat constructor))).
    reflexivity.
  - split; [vm_compute; reflexivity|]. split; [reflexivity|].
    apply (proj1 (proj2 (main_modes sample_world
                    (file_projects "/home/u" "PyCharm" "2024.3" sample_root)
                    ltac:(vm_compute; reflexivity) ltac:(repeat constructor)))).
    + reflexivity.
    + vm_compute. discriminate.
  - split; [vm_compute; reflexivity|]. split; [reflexivity|].
    apply (proj2 (proj2 (main_modes empty_world []
                    ltac:(vm_compute; reflexivity) ltac:(constructor))));
      reflexivity.
Defined.

(** C8 as stated fails: in [empty_world] the scan finds nothing, no output
    path is set, and [main] returns after [No projects found.] without
    writing the export. *)
Lemma main_modes_counterexample :
  ¬ (∀ (w : World) (projects : list JetBrainsProject),
       outcome (find_all_recent_projects w) = Ok projects →
       w_json_output_path w = None →
       ∃ data, WriteJson "jetbrains_projects.json" data ∈ trace (main w)).
Proof.
  intros H.
  destruct (H empty_world [] ltac:(vm_compute; reflexivity) eq_refl) as [data Hdata].
  vm_compute in Hdata.
  apply list_elem_of_In in Hdata. simpl in Hdata.
  destruct Hdata as [Hd|[Hd|[]]]; discriminate Hd.
Qed.

(** What [main] leaves behind in [empty_world]. *)
Example main_empty_world :
  main empty_world =
  ([Print "Scanning JetBrains IDE configurations..."; Print "No projects found."], Ok tt).
Proof. vm_compute. reflexivity. Qed.

(** * Further properties of the code *)

(** ** The directory name pattern *)

Lemma append_assoc_string (s t u : string) : (s +:+ t) +:+ u = s +:+ t +:+ u.
Proof. induction s as [|c s IH]; simpl; [done|]. by rewrite IH. Qed.

Lemma append_nil_r_string (s : string) : s +:+ "" = s.
Proof. induction s as [|c s IH]; simpl; [done|]. by rewrite IH. Qed.

Lemma span_spec p s a b :
  span p s = (a, b) → s = a +:+ b ∧ all_chars p a = true ∧ head_sat p b = false.
Proof.
  revert a b. induction s as [|c s IH]; intros a b; simpl.
  - by intros [= <- <-].
  - destruct (p c) eqn:Hc.
    + destruct (span p s) as [a' b'] eqn:Hs. intros [= <- <-].
      destruct (IH a' b' eq_refl) as (-> & Ha & Hb). simpl. by rewrite Hc.
    + intros [= <- <-]. simpl. by rewrite Hc.
Qed.

Lemma span_app p a r :
  all_chars p a = true → head_sat p r = false → span p (a +:+ r) = (a, r).
Proof.
  induction a as [|c a IH]; simpl; intros Ha Hr.
  - destruct r as [|d r]; [done|]. simpl in *. by rewrite Hr.
  - apply andb_true_iff in Ha as [-> Ha]. by rewrite IH.
Qed.

Lemma is_digit_not_alpha c : is_digit c = true → is_alpha c = false.
Proof.
  unfold is_digit, is_alpha. intros H.
  apply andb_true_iff in H as [_ H]. apply Nat.leb_le in H.
  apply orb_false_iff. split; apply andb_false_iff; left; apply Nat.leb_gt; lia.
Qed.

Lemma head_sat_app p a r : truthy a = true → head_sat p (a +:+ r) = head_sat p a.
Proof. by destruct a. Qed.

Lemma head_sat_all_chars p a : truthy a = true → all_chars p a = true → head_sat p a = true.
Proof. destruct a as [|c a]; [done|]. simpl. intros _ H. by apply andb_true_iff in H as [-> _]. Qed.

Lemma head_digit_not_alpha s : head_sat is_digit s = true → head_sat is_alpha s = false.
Proof. destruct s as [|c s]; [done|]. apply is_digit_not_alpha. Qed.

(** X1. What [re.match] and the two branches after it return for a
    directory name. Either the pattern does not match and the name is
    returned whole with the version [Unknown]; or the name is cut into a
    non-empty run of letters, a version [digits.digits] or
    [digits.digits.digits], and a rest that is dropped: family followed by
    version is a prefix of the directory name. The name is taken to be
    ASCII: [\d] also matches the decimal digits of other scripts, which
    [match_ide_dir] leaves out. *)
Theorem split_ide_name_decomposes (ide_full_name name version : string) :
  all_chars is_ascii ide_full_name = true →
  split_ide_name ide_full_name = (name, version) →
  (match_ide_dir ide_full_name = None ∧ name = ide_full_name ∧ version = "Unknown") ∨
  (∃ major minor tail rest,
     match_ide_dir ide_full_name = Some (name, version) ∧
     version = major +:+ "." +:+ minor +:+ tail ∧
     ide_full_name = name +:+ version +:+ rest ∧
     truthy name = true ∧ all_chars is_alpha name = true ∧
     truthy major = true ∧ all_chars is_digit major = true ∧
     truthy minor = true ∧ all_chars is_digit minor = true ∧
     (tail = "" ∨
      ∃ patch, tail = "." +:+ patch ∧
               truthy patch = true ∧ all_chars is_digit patch = true)).
Proof.
  intros _. unfold split_ide_name, match_ide_dir.
  destruct (span is_alpha ide_full_name) as [letters r1] eqn:H1.
  destruct (span is_digit r1) as [major r2] eqn:H2.
  apply span_spec in H1 as (-> & Hletters & _).
  apply span_spec in H2 as (-> & Hmajor & _).
  destruct (truthy letters) eqn:Hl; [|intros [= <- <-]; by left].
  destruct (truthy major) eqn:Hm; [|intros [= <- <-]; by left].
  cbn [andb].
  destruct r2 as [|c r3]; [intros [= <- <-]; by left|].
  destruct (decide (c = "."%char)) as [->|Hc]; cycle 1.
  { assert (∀ X Y : option (string * string),
              match c with "."%char => X | _ => Y end = Y) as Hdot.
    { intros X Y. destruct c as [[] [] [] [] [] [] [] []]; try done. }
    rewrite Hdot. intros [= <- <-]. by left. }
  destruct (span is_digit r3) as [minor r4] eqn:H3.
  apply span_spec in H3 as (-> & Hminor & _).
  destruct (truthy minor) eqn:Hn; [|intros [= <- <-]; by left].
  destruct r4 as [|d r5].
  - intros [= <- <-]. right. exists major, minor, "", "".
    repeat split; try done; try (by left);
      rewrite ?append_assoc_string; simpl;
      by rewrite ?append_assoc_string, ?append_nil_r_string.
  - destruct (decide (d = "."%char)) as [->|Hd]; cycle 1.
    { assert (∀ X Y : option (string * string),
                match d with "."%char => X | _ => Y end = Y) as Hdot.
      { intros X Y. destruct d as [[] [] [] [] [] [] [] []]; try done. }
      rewrite Hdot. intros [= <- <-]. right. exists major, minor, "", (String d r5).
      repeat split; try done; try (by left);
        rewrite ?append_assoc_string; simpl;
        by rewrite ?append_assoc_string, ?append_nil_r_string. }
    destruct (span is_digit r5) as [patch r6] eqn:H4.
    apply span_spec in H4 as (-> & Hpatch & _).
    destruct (truthy patch) eqn:Hp.
    + intros [= <- <-]. right. exists major, minor, ("." +:+ patch), r6.
      repeat split; try done; try (right; by exists patch);
        rewrite ?append_assoc_string; simpl;
        by rewrite ?append_assoc_string, ?append_nil_r_string.
    + intros [= <- <-]. right. exists major, minor, "", (String "." (patch +:+ r6)).
      repeat split; try done; try (by left);
        rewrite ?append_assoc_string; simpl;
        by rewrite ?append_assoc_string, ?append_nil_r_string.
Qed.

Lemma split_ide_name_decomposes_witness :
  all_chars is_ascii "PyCharm2024.3.1-EAP" = true ∧
  split_ide_name "PyCharm2024.3.1-EAP" = ("PyCharm", "2024.3.1") ∧
  ((match_ide_dir "PyCharm2024.3.1-EAP" = None ∧
    "PyCharm" = "PyCharm2024.3.1-EAP" ∧ "2024.3.1" = "Unknown") ∨
   (∃ major minor tail rest,
      match_ide_dir "PyCharm2024.3.1-EAP" = Some ("PyCharm", "2024.3.1") ∧
      "2024.3.1" = major +:+ "." +:+ minor +:+ tail ∧
      "PyCharm2024.3.1-EAP" = "PyCharm" +:+ "2024.3.1" +:+ rest ∧
      truthy "PyCharm" = true ∧ all_chars is_alpha "PyCharm" = true ∧
      truthy major = true ∧ all_chars is_digit major = true ∧
      truthy minor = true ∧ all_chars is_digit minor = true ∧
      (tail = "" ∨
       ∃ patch, tail = "." +:+ patch ∧
                truthy patch = true ∧ all_chars is_digit patch = true))).
Proof.
  split; [reflexivity|]. split; [reflexivity|].
  apply (split_ide_name_decomposes "PyCharm2024.3.1-EAP" "PyCharm" "2024.3.1");
    reflexivity.
Defined.

Lemma match_not_dot {A} (c : ascii) (X Y : A) :
  c ≠ "."%char → match c with "."%char => X | _ => Y end = Y.
Proof. intros Hc. destruct c as [[] [] [] [] [] [] [] []]; try done. Qed.

Lemma span_head_fails p s : head_sat p s = false → span p s = ("", s).
Proof. destruct s as [|c s]; [done|]. simpl. by intros ->. Qed.

(** X2. The pattern finds every name of the expected shape: letters, then
    [digits.digits], then a rest that does not go on with a digit. If the
    rest does not go on with a dot and a digit either, the version has two
    numbers; if it goes on with [.digits], the version has three, and
    whatever follows them is dropped. The rest is taken to be ASCII, as
    [\d] also matches the decimal digits of other scripts. *)
Theorem split_ide_name_of_versioned_name (letters major minor rest : string) :
  truthy letters = true → all_chars is_alpha letters = true →
  truthy major = true → all_chars is_digit major = true →
  truthy minor = true → all_chars is_digit minor = true →
  all_chars is_ascii rest = true →
  head_sat is_digit rest = false →
  (head_patch rest = false →
   split_ide_name (letters +:+ major +:+ "." +:+ minor +:+ rest) =
   (letters, major +:+ "." +:+ minor)) ∧
  (∀ patch rest',
     rest = "." +:+ patch +:+ rest' →
     truthy patch = true → all_chars is_digit patch = true →
     head_sat is_digit rest' = false →
     split_ide_name (letters +:+ major +:+ "." +:+ minor +:+ rest) =
     (letters, major +:+ "." +:+ minor +:+ "." +:+ patch)).
Proof.
  intros Hl Hla Hm Hma Hn Hna _ Hrest.
  assert (∀ Z, match_ide_dir (letters +:+ major +:+ "." +:+ minor +:+ rest) = Z →
               (let short := major +:+ "." +:+ minor in
                match rest with
                | String "." r5 =>
                    let '(patch, _) := span is_digit r5 in
                    if truthy patch
                    then Some (letters, short +:+ "." +:+ patch)
                    else Some (letters, short)
                | _ => Some (letters, short)
                end) = Z) as Hmatch.
  { intros Z <-. unfold match_ide_dir.
    rewrite (span_app is_alpha letters); [|done|]; cycle 1.
    { rewrite head_sat_app by done. apply head_digit_not_alpha.
      by apply head_sat_all_chars. }
    rewrite (span_app is_digit major) by done.
    rewrite Hl, Hm. cbn [andb]. simpl.
    rewrite (span_app is_digit minor) by done. by rewrite Hn. }
  split.
  - intros Hpatch. unfold split_ide_name.
    rewrite <- (Hmatch _ eq_refl). cbn zeta.
    destruct rest as [|d r5]; [done|].
    destruct (decide (d = "."%char)) as [->|Hd].
    + simpl in Hpatch. by rewrite (span_head_fails _ _ Hpatch).
    + by rewrite match_not_dot.
  - intros patch rest' -> Hp Hpa Hrest'. unfold split_ide_name.
    rewrite <- (Hmatch _ eq_refl). cbn zeta. simpl.
    rewrite (span_app is_digit patch) by done. rewrite Hp.
    by rewrite !append_assoc_string.
Qed.

Lemma split_ide_name_of_versioned_name_witness :
  truthy "Rider" = true ∧ all_chars is_alpha "Rider" = true ∧
  truthy "2025" = true ∧ all_chars is_digit "2025" = true ∧
  truthy "1" = true ∧ all_chars is_digit "1" = true ∧
  all_chars is_ascii "-backup" = true ∧
  head_sat is_digit "-backup" = false ∧ head_patch "-backup" = false ∧
  split_ide_name ("Rider" +:+ "2025" +:+ "." +:+ "1" +:+ "-backup") =
  ("Rider", "2025" +:+ "." +:+ "1").
Proof.
  repeat (split; [reflexivity|]).
  apply (proj1 (split_ide_name_of_versioned_name "Rider" "2025" "1" "-backup"
                  eq_refl eq_refl eq_refl eq_refl eq_refl eq_refl eq_refl eq_refl)).
  reflexivity.
Defined.

Lemma all_chars_app p a b : all_chars p (a +:+ b) = all_chars p a && all_chars p b.
Proof. induction a as [|c a IH]; simpl; [done|]. by rewrite IH, andb_assoc. Qed.

Lemma all_chars_neg_head p s :
  all_chars (λ c, negb (p c)) s = true → all_chars p s = true → s = "".
Proof.
  destruct s as [|c s]; [done|]. simpl. intros H1 H2.
  apply andb_true_iff in H1 as [H1 _]. apply andb_true_iff in H2 as [H2 _].
  by rewrite H2 in H1.
Qed.

(** X3. An ASCII directory name that does not begin with a letter, or in
    which no digit follows the leading letters (in particular a name
    without any digit), is kept whole as the family, with the version
    [Unknown]. *)
Theorem split_ide_name_unknown (ide_full_name : string) :
  all_chars is_ascii ide_full_name = true →
  (head_sat is_alpha ide_full_name = false →
   split_ide_name ide_full_name = (ide_full_name, "Unknown")) ∧
  (all_chars (λ c, negb (is_digit c)) ide_full_name = true →
   split_ide_name ide_full_name = (ide_full_name, "Unknown")) ∧
  (∀ letters rest,
     ide_full_name = letters +:+ rest → all_chars is_alpha letters = true →
     head_sat is_alpha rest = false → head_sat is_digit rest = false →
     split_ide_name ide_full_name = (ide_full_name, "Unknown")).
Proof.
  intros _. split; [|split].
  - intros Hhead. unfold split_ide_name, match_ide_dir.
    rewrite (span_head_fails _ _ Hhead). by destruct (span is_digit ide_full_name).
  - intros Hno. unfold split_ide_name, match_ide_dir.
    destruct (span is_alpha ide_full_name) as [letters r1] eqn:H1.
    destruct (span is_digit r1) as [major r2] eqn:H2.
    apply span_spec in H1 as (-> & _ & _).
    apply span_spec in H2 as (-> & Hmajor & _).
    rewrite !all_chars_app in Hno.
    apply andb_true_iff in Hno as [_ Hno]. apply andb_true_iff in Hno as [Hno _].
    rewrite (all_chars_neg_head _ _ Hno Hmajor). by rewrite andb_false_r.
  - intros letters rest -> Hletters Ha Hd. unfold split_ide_name, match_ide_dir.
    rewrite (span_app is_alpha letters rest Hletters Ha).
    rewrite (span_head_fails _ _ Hd). by rewrite andb_false_r.
Qed.

Lemma split_ide_name_unknown_witness :
  all_chars is_ascii "CLion" = true ∧
  all_chars (λ c, negb (is_digit c)) "CLion" = true ∧
  split_ide_name "CLion" = ("CLion", "Unknown").
Proof.
  split; [reflexivity|]. split; [reflexivity|].
  apply (proj1 (proj2 (split_ide_name_unknown "CLion" eq_refl))). reflexivity.
Defined.

(** ** What the scan prints and where its records come from *)

Lemma py_trace_bind {A B} (m : Py A) (f : A → Py B) a :
  outcome m = Ok a → trace (m ≫= f) = trace m ++ trace (f a).
Proof.
  destruct m as [t [a'|msg]]; [|done]. intros [= ->].
  unfold mbind, py_bind, trace. simpl. by destruct (f a).
Qed.

Section scan_log.

Context (w : World).

Lemma parse_recent_projects_xml_trace file_path name version :
  trace (parse_recent_projects_xml w file_path name version) =
  job_log w (file_path, name, version).
Proof.
  unfold parse_recent_projects_xml, job_log. simpl.
  by destruct (try_body _ _ _ _) as [projects [msg|]].
Qed.

Lemma xml_files_loop_trace options_dir name version xml_files all_projects :
  trace (xml_files_loop w options_dir name version xml_files all_projects) =
  flat_map (job_log w)
    ((λ xml_file, (joinpath options_dir xml_file, name, version))
       <$> filter (λ xml_file, w_exists w (joinpath options_dir xml_file) = true)
             xml_files).
Proof.
  revert all_projects.
  induction xml_files as [|xml_file rest IH]; intros all_projects; [done|].
  cbn [xml_files_loop]. rewrite filter_cons.
  destruct (w_exists w (joinpath options_dir xml_file)) eqn:Hex.
  - rewrite decide_True by done.
    rewrite (py_trace_bind _ _ _ (parse_recent_projects_xml_job w name version _)).
    by rewrite parse_recent_projects_xml_trace, IH.
  - rewrite decide_False by done. apply IH.
Qed.

Lemma ide_dir_body_trace config_dir ide_full_name all_projects :
  trace (ide_dir_body w config_dir ide_full_name all_projects) =
  flat_map (job_log w) (dir_jobs w config_dir ide_full_name).
Proof.
  unfold ide_dir_body, dir_jobs.
  destruct (w_is_dir w _); cbn [andb]; [|done].
  destruct (split_ide_name ide_full_name) as [name version]. cbn [fst snd].
  destruct (w_exists w _); [|done].
  apply xml_files_loop_trace.
Qed.

Lemma ide_dirs_loop_trace config_dir names all_projects :
  trace (ide_dirs_loop w config_dir names all_projects) =
  flat_map (job_log w) (flat_map (dir_jobs w config_dir) names).
Proof.
  revert all_projects. induction names as [|n names IH]; intros all_projects; [done|].
  cbn [ide_dirs_loop flat_map].
  rewrite (py_trace_bind _ _ _ (ide_dir_body_outcome w config_dir n all_projects)).
  by rewrite ide_dir_body_trace, IH, flat_map_app.
Qed.

End scan_log.

(** X4. The log of the scan. With the home directory known, the scan prints
    exactly one line for every file that it handed to the parser and that
    failed, in scan order, naming the file and the error, and nothing else;
    when the configuration root does not exist it prints the one line
    [Config directory not found: ...]. The scan never writes a file. *)
Theorem scan_log_lists_failed_files (w : World) (home : string) :
  w_home w = Ok home →
  trace (find_all_recent_projects w) =
    (if w_exists w (config_root home)
     then flat_map (job_log w) (scan_jobs w home)
     else [Print ("Config directory not found: " +:+ config_root home)]) ∧
  (∀ file data, WriteJson file data ∉ trace (find_all_recent_projects w)).
Proof.
  intros Hhome.
  assert (trace (find_all_recent_projects w) =
          if w_exists w (config_root home)
          then flat_map (job_log w) (scan_jobs w home)
          else [Print ("Config directory not found: " +:+ config_root home)]) as Htrace.
  { unfold find_all_recent_projects, scan_jobs, config_root.
    rewrite (py_trace_bind _ _ home) by (by rewrite <- Hhome).
    cbn [trace lift fst app].
    destruct (w_exists w _); [|done]. apply ide_dirs_loop_trace. }
  split; [done|].
  intros file data Hin. rewrite Htrace in Hin.
  destruct (w_exists w (config_root home)).
  - apply list_elem_of_In, in_flat_map in Hin as (job & _ & Hjob).
    unfold job_log in Hjob. destruct (try_body _ _ _ _).2; [|done].
    by destruct Hjob as [?|[]].
  - by apply list_elem_of_singleton in Hin.
Qed.

Lemma scan_log_lists_failed_files_witness :
  w_home mixed_world = Ok "/home/u" ∧
  trace (find_all_recent_projects mixed_world) =
    (if w_exists mixed_world (config_root "/home/u")
     then flat_map (job_log mixed_world) (scan_jobs mixed_world "/home/u")
     else [Print ("Config directory not found: " +:+ config_root "/home/u")]) ∧
  (∀ file data, WriteJson file data ∉ trace (find_all_recent_projects mixed_world)).
Proof.
  split; [reflexivity|].
  apply (scan_log_lists_failed_files mixed_world "/home/u"). reflexivity.
Defined.

Lemma file_projects_entry home name version root p :
  p ∈ file_projects home name version root →
  ide_name p = name ∧ ide_version p = version ∧
  ∃ entry, entry ∈ file_entries root ∧
           project_path p = expand_home home (get_or entry "key" "").
Proof.
  intros Hp.
  assert (Forall2 (λ entry q, ide_name q = name ∧ ide_version q = version ∧
                              project_path q = expand_home home (get_or entry "key" ""))
            (file_entries root) (file_projects home name version root)) as H.
  { apply (foldl_component_step_entries home name version _ _ [] []); [done| |done].
    by intros entry q (? & ? & ?). }
  apply list_elem_of_lookup in Hp as [i Hi].
  destruct (Forall2_lookup_r _ _ _ _ _ H Hi) as (entry & Hentry & ? & ? & ?).
  split; [done|]. split; [done|]. exists entry. split; [|done].
  by eapply list_elem_of_lookup_2.
Qed.

Lemma dir_jobs_elem w config_dir ide_full_name job :
  job ∈ dir_jobs w config_dir ide_full_name →
  w_is_dir w (joinpath config_dir ide_full_name) = true ∧
  ∃ xml_file,
    xml_file ∈ ["recentProjects.xml"; "recentSolutions.xml"] ∧
    job = (joinpath (joinpath (joinpath config_dir ide_full_name) "options") xml_file,
           (split_ide_name ide_full_name).1, (split_ide_name ide_full_name).2).
Proof.
  unfold dir_jobs. destruct (w_is_dir w _); [|by intros ?%elem_of_nil].
  destruct (w_exists w _); cbn [andb]; [|by intros ?%elem_of_nil].
  intros Hjob. split; [done|].
  apply list_elem_of_fmap in Hjob as (xml_file & -> & Hf).
  apply list_elem_of_filter in Hf as [_ Hf]. by exists xml_file.
Qed.

(** X5. Where the records of a scan come from. Every record that the scan
    returns was built from an entry of a metadata file that parsed, one of
    the two known file names in the [options] directory of an installation
    directory that the scan listed under the configuration root and found to
    be a directory; the record's family and version are those cut from that
    directory's name, and its path is the entry's key, expanded. *)
Theorem scan_records_provenance
    (w : World) (home : string) (projects : list JetBrainsProject)
    (p : JetBrainsProject) :
  w_home w = Ok home →
  outcome (find_all_recent_projects w) = Ok projects →
  p ∈ projects →
  ∃ ide_full_name xml_file root entry,
    ide_full_name ∈ w_iterdir w (config_root home) ∧
    w_is_dir w (joinpath (config_root home) ide_full_name) = true ∧
    xml_file ∈ ["recentProjects.xml"; "recentSolutions.xml"] ∧
    w_et_parse w (joinpath (options_dir_of home ide_full_name) xml_file) = Ok root ∧
    entry ∈ file_entries root ∧
    (ide_name p, ide_version p) = split_ide_name ide_full_name ∧
    project_path p = expand_home home (get_or entry "key" "").
Proof.
  intros Hhome Hscan Hp.
  rewrite (find_all_recent_projects_outcome w home Hhome) in Hscan.
  injection Hscan as <-.
  apply list_elem_of_In, in_flat_map in Hp as (job & Hjob & Hp).
  apply list_elem_of_In in Hp.
  unfold scan_jobs in Hjob. fold (config_root home) in Hjob.
  destruct (w_exists w (config_root home)); [|done].
  apply in_flat_map in Hjob as (ide_full_name & Hdir & Hjob).
  apply list_elem_of_In, dir_jobs_elem in Hjob as (Hisdir & xml_file & Hxml & ->).
  unfold job_projects, try_body in Hp. cbn [fst snd] in Hp.
  fold (options_dir_of home ide_full_name) in Hp.
  destruct (w_et_parse w (joinpath (options_dir_of home ide_full_name) xml_file))
    as [root|msg] eqn:Hroot; [|by apply elem_of_nil in Hp].
  rewrite (components_loop_ok w home) in Hp by done. cbn [fst] in Hp.
  apply file_projects_entry in Hp as (Hname & Hversion & entry & Hentry & Hpath).
  exists ide_full_name, xml_file, root, entry.
  repeat split; try done.
  - by apply list_elem_of_In.
  - rewrite Hname, Hversion. by destruct (split_ide_name ide_full_name).
Qed.

Lemma scan_records_provenance_witness :
  w_home mixed_world = Ok "/home/u" ∧
  outcome (find_all_recent_projects mixed_world) = Ok sample_projects ∧
  set_last_opened (new_project "Rider" "2025.1" "/opt/other" ∅) ∈ sample_projects ∧
  ∃ ide_full_name xml_file root entry,
    ide_full_name ∈ w_iterdir mixed_world (config_root "/home/u") ∧
    w_is_dir mixed_world (joinpath (config_root "/home/u") ide_full_name) = true ∧
    xml_file ∈ ["recentProjects.xml"; "recentSolutions.xml"] ∧
    w_et_parse mixed_world (joinpath (options_dir_of "/home/u" ide_full_name) xml_file)
      = Ok root ∧
    entry ∈ file_entries root ∧
    (ide_name (set_last_opened (new_project "Rider" "2025.1" "/opt/other" ∅)),
     ide_version (set_last_opened (new_project "Rider" "2025.1" "/opt/other" ∅)))
      = split_ide_name ide_full_name ∧
    project_path (set_last_opened (new_project "Rider" "2025.1" "/opt/other" ∅))
      = expand_home "/home/u" (get_or entry "key" "").
Proof.
  split; [reflexivity|]. split; [vm_compute; reflexivity|].
  assert (set_last_opened (new_project "Rider" "2025.1" "/opt/other" ∅)
          ∈ sample_projects) as Hin.
  { vm_compute. right. left. }
  split; [exact Hin|].
  apply (scan_records_provenance mixed_world "/home/u" sample_projects _ eq_refl
           ltac:(vm_compute; reflexivity) Hin).
Defined.

(** ** Further properties of the parser *)

Lemma contains_no_dollar t s :
  has_char "$" s = false → contains (String "$" t) s = false.
Proof.
  induction s as [|c s IH]; intros Hs; [done|].
  cbn [contains startswith]. rewrite (eqb_dollar_false _ _ Hs), IH; [done|].
  by eapply has_char_tail.
Qed.

(** X6. A key without a dollar sign is stored as it is written: for every
    home directory, whatever characters it has, the path of the record is
    the key. *)
Theorem key_without_dollar_is_kept (w : World) (home : string) (entry : element) :
  w_home w = Ok home →
  has_char "$" (get_or entry "key" "") = false →
  entry_project_path w entry = Ok (get_or entry "key" "").
Proof.
  intros Hhome Hkey. rewrite (entry_project_path_ok w home Hhome).
  f_equal. apply expand_home_fixed; by apply contains_no_dollar.
Qed.

Lemma key_without_dollar_is_kept_witness :
  w_home dollar_home_world = Ok "/$HOME$" ∧
  has_char "$" (get_or (entry_with_key "/srv/app") "key" "") = false ∧
  entry_project_path dollar_home_world (entry_with_key "/srv/app")
    = Ok (get_or (entry_with_key "/srv/app") "key" "").
Proof.
  split; [reflexivity|]. split; [reflexivity|].
  apply (key_without_dollar_is_kept dollar_home_world "/$HOME$"); reflexivity.
Defined.

Lemma components_loop_home_raise w name version msg components :
  w_home w = Raise msg →
  components_loop w name version components [] =
  ([], match flat_map recent_entries
               (filter (λ c, is_recent_component c = true) components) with
       | [] => None
       | _ :: _ => Some msg
       end).
Proof.
  intros Hhome. induction components as [|c cs IH]; [done|].
  cbn [components_loop]. rewrite filter_cons. unfold component_body.
  destruct (is_recent_component c) eqn:Hc.
  - rewrite decide_True by done. cbn [flat_map]. unfold recent_entries at 1.
    destruct (find_option_named_child _ _ _) as [map_elem|].
    + destruct (findall_child "entry" map_elem) as [|entry entries].
      * cbn [entries_loop app]. destruct (find_option_named _ _); apply IH.
      * cbn [entries_loop app]. unfold entry_project, entry_project_path.
        by rewrite Hhome.
    + cbn [app]. destruct (find_option_named _ _); apply IH.
  - rewrite decide_False by done. apply IH.
Qed.

(** X7. What the parser needs the home directory for. A file that parses
    as markup and has no entry to visit gives the empty list without a log
    line, whether or not the home directory can be determined. If the home
    directory cannot be determined and the file has an entry, the first
    entry raises: the parser prints that error for the file and returns the
    empty list. *)
Theorem parse_needs_home_only_for_entries
    (w : World) (file_path name version : string) (root : element) :
  w_et_parse w file_path = Ok root →
  (file_entries root = [] →
   parse_recent_projects_xml w file_path name version = ([], Ok [])) ∧
  (∀ msg,
     w_home w = Raise msg → file_entries root ≠ [] →
     parse_recent_projects_xml w file_path name version =
     ([Print ("Error parsing " +:+ file_path +:+ ": " +:+ msg)], Ok [])).
Proof.
  intros Hroot. split.
  - intros Hnone. destruct (w_home w) as [home|msg] eqn:Hhome.
    + rewrite (parse_recent_projects_xml_ok w home name version Hhome _ root Hroot).
      pose proof (foldl_component_step_entries home name version (λ _ _, True)
                    (findall_desc "component" root) [] []) as H.
      cbn [app] in H. fold (recent_components root) in H.
      fold (file_entries root) in H. rewrite Hnone in H.
      fold (file_projects home name version root) in H.
      assert (Forall2 (λ (_ : element) (_ : JetBrainsProject), True) []
                (file_projects home name version root)) as H2 by (by apply H).
      by apply Forall2_nil_inv_l in H2 as ->.
    + unfold parse_recent_projects_xml, try_body. rewrite Hroot.
      rewrite (components_loop_home_raise w name version msg _ Hhome).
      fold (recent_components root). fold (file_entries root). by rewrite Hnone.
  - intros msg Hhome Hsome.
    unfold parse_recent_projects_xml, try_body. rewrite Hroot.
    rewrite (components_loop_home_raise w name version msg _ Hhome).
    fold (recent_components root). fold (file_entries root).
    by destruct (file_entries root).
Qed.

Lemma parse_needs_home_only_for_entries_witness :
  w_et_parse (without_home sample_world) (pycharm_file "/home/u") = Ok sample_root ∧
  w_home (without_home sample_world) = Raise "Could not determine home directory." ∧
  file_entries sample_root ≠ [] ∧
  parse_recent_projects_xml (without_home sample_world) (pycharm_file "/home/u")
    "PyCharm" "2024.3" =
  ([Print ("Error parsing " +:+ pycharm_file "/home/u" +:+ ": " +:+
           "Could not determine home directory.")], Ok []).
Proof.
  split; [reflexivity|]. split; [reflexivity|].
  assert (file_entries sample_root ≠ []) as Hentries by (vm_compute; discriminate).
  split; [exact Hentries|].
  apply (proj2 (parse_needs_home_only_for_entries (without_home sample_world)
                  (pycharm_file "/home/u") "PyCharm" "2024.3" sample_root eq_refl)
           "Could not determine home directory." eq_refl Hentries).
Defined.

(** X8. Each record is made from its own entry alone. For a file that
    parses, the list returned corresponds position by position to the
    entries visited, and the record of an entry is the object that
    [__init__] builds from the family, the version, the expanded key and the
    dictionary filled from that entry; the marking pass changes at most the
    flag, never another field, the order or the number of records. *)
Theorem records_are_built_from_their_entries
    (w : World) (file_path name version home : string) (root : element) :
  w_et_parse w file_path = Ok root →
  w_home w = Ok home →
  ∃ projects,
    parse_recent_projects_xml w file_path name version = ([], Ok projects) ∧
    Forall2 (λ entry p,
               flag_le (new_project name version
                          (expand_home home (get_or entry "key" ""))
                          (entry_data entry)) p)
      (file_entries root) projects.
Proof.
  intros Hroot Hhome. exists (file_projects home name version root). split.
  - by apply parse_recent_projects_xml_ok.
  - apply (foldl_component_step_entries home name version _ _ [] []); [|  |done].
    + intros entry. apply flag_le_refl.
    + intros entry p [->| ->]; by right.
Qed.

Lemma records_are_built_from_their_entries_witness :
  w_et_parse sample_world (pycharm_file "/home/u") = Ok sample_root ∧
  w_home sample_world = Ok "/home/u" ∧
  ∃ projects,
    parse_recent_projects_xml sample_world (pycharm_file "/home/u") "PyCharm" "2024.3"
      = ([], Ok projects) ∧
    Forall2 (λ entry p,
               flag_le (new_project "PyCharm" "2024.3"
                          (expand_home "/home/u" (get_or entry "key" ""))
                          (entry_data entry)) p)
      (file_entries sample_root) projects.
Proof.
  split; [reflexivity|]. split; [reflexivity|].
  apply (records_are_built_from_their_entries sample_world (pycharm_file "/home/u")
           "PyCharm" "2024.3" "/home/u" sample_root); reflexivity.
Defined.

(** ** The record of a metadata element *)

Lemma add_option_stored (d : gmap string (option string)) o k :
  stored_name o = Some k →
  ∃ v, get o "value" = Some v ∧ add_option d o = <[k := Some v]> d.
Proof.
  unfold stored_name, add_option.
  destruct (get o "name") as [n|]; [|done].
  destruct (get o "value") as [v|]; [|done].
  destruct (truthy n && truthy v); [|done].
  intros [= ->]. by exists v.
Qed.

Lemma foldl_add_option_last (d : gmap string (option string)) options k :
  foldl add_option d options !! k =
  match last_stored k options with
  | Some v => Some (Some v)
  | None => d !! k
  end.
Proof.
  induction options as [|o options IH] using rev_ind; [done|].
  rewrite foldl_app. cbn [foldl]. unfold last_stored in *.
  rewrite omap_app. simpl.
  destruct (decide (stored_name o = Some k)) as [Hk|Hk].
  - destruct (add_option_stored (foldl add_option d options) o k Hk) as (v & Hv & ->).
    rewrite Hv. simpl. rewrite last_snoc.
    apply lookup_insert_eq.
  - rewrite add_option_lookup_ne by done.
    simpl. by rewrite app_nil_r.
Qed.

Lemma meta_info_data_plain_key meta_info k :
  k ≠ "displayName" → k ≠ "frameTitle" → k ≠ "colorIndex" → k ≠ "frame" →
  meta_info_data meta_info !! k =
  (λ v, Some v) <$> last_stored k (findall_child "option" meta_info).
Proof.
  intros H1 H2 H3 H4. unfold meta_info_data.
  destruct (find_child "frame" meta_info);
    destruct (find_desc "RecentProjectColorInfo" meta_info);
    rewrite ?lookup_insert_ne by done;
    rewrite foldl_add_option_last;
    destruct (last_stored k _); try done;
    by rewrite !lookup_insert_ne, lookup_empty by done.
Qed.

Lemma meta_info_data_attribute_key meta_info k :
  k = "displayName" ∨ k = "frameTitle" →
  meta_info_data meta_info !! k =
  Some (Some (default (get_or meta_info k "")
                (last_stored k (findall_child "option" meta_info)))).
Proof.
  intros Hk. unfold meta_info_data.
  destruct (find_child "frame" meta_info);
    destruct (find_desc "RecentProjectColorInfo" meta_info);
    rewrite ?lookup_insert_ne by (by destruct Hk as [-> | ->]);
    rewrite foldl_add_option_last;
    destruct (last_stored k _); try done;
    destruct Hk as [-> | ->];
    by rewrite ?lookup_insert_eq, ?lookup_insert_ne, ?lookup_insert_eq by done.
Qed.

Lemma meta_info_data_color_key meta_info :
  dict_get (meta_info_data meta_info) "colorIndex" =
  match find_desc "RecentProjectColorInfo" meta_info with
  | Some color_info => get color_info "associatedIndex"
  | None => last_stored "colorIndex" (findall_child "option" meta_info)
  end.
Proof.
  unfold dict_get, meta_info_data.
  destruct (find_child "frame" meta_info);
    destruct (find_desc "RecentProjectColorInfo" meta_info);
    rewrite ?lookup_insert_ne by done;
    rewrite ?lookup_insert_eq; try done;
    rewrite foldl_add_option_last;
    destruct (last_stored "colorIndex" _); try done;
    by rewrite !lookup_insert_ne, lookup_empty by done.
Qed.

Lemma meta_info_data_frame_key meta_info :
  dict_get_or (meta_info_data meta_info) "frame" "" =
  Some (match find_child "frame" meta_info with
        | Some frame_elem => frame_text frame_elem
        | None => default "" (last_stored "frame" (findall_child "option" meta_info))
        end).
Proof.
  unfold dict_get_or, meta_info_data.
  destruct (find_child "frame" meta_info);
    destruct (find_desc "RecentProjectColorInfo" meta_info);
    rewrite ?lookup_insert_eq; try done;
    rewrite ?lookup_insert_ne by done;
    rewrite foldl_add_option_last;
    destruct (last_stored "frame" _); try done;
    by rewrite !lookup_insert_ne, lookup_empty by done.
Qed.

(** X9. The record of an entry with a metadata element, field by field.
    Among several [option] children with the same name the last one with a
    non-empty value counts. The two timestamps, the build and [metadata]
    come from the options alone. An option named [displayName] or
    [frameTitle] takes precedence over the attribute of that name. The
    colour element takes precedence over an option named [colorIndex], and
    the [frame] element over an option named [frame]. *)
Theorem record_of_metadata
    (w : World) (name version : string) (entry meta_info : element)
    (p : JetBrainsProject) :
  entry_project w name version entry = Ok p →
  find_desc "RecentProjectMetaInfo" entry = Some meta_info →
  display_name p =
    Some (default (get_or meta_info "displayName" "")
            (last_stored "displayName" (findall_child "option" meta_info))) ∧
  frame_title p =
    Some (default (get_or meta_info "frameTitle" "")
            (last_stored "frameTitle" (findall_child "option" meta_info))) ∧
  activation_timestamp p =
    last_stored "activationTimestamp" (findall_child "option" meta_info) ∧
  project_open_timestamp p =
    last_stored "projectOpenTimestamp" (findall_child "option" meta_info) ∧
  build p =
    Some (default "" (last_stored "build" (findall_child "option" meta_info))) ∧
  metadata p =
    Some (default "" (last_stored "metadata" (findall_child "option" meta_info))) ∧
  color_index p =
    match find_desc "RecentProjectColorInfo" meta_info with
    | Some color_info => get color_info "associatedIndex"
    | None => last_stored "colorIndex" (findall_child "option" meta_info)
    end ∧
  frame p =
    Some (match find_child "frame" meta_info with
          | Some frame_elem => frame_text frame_elem
          | None => default "" (last_stored "frame" (findall_child "option" meta_info))
          end).
Proof.
  intros Hp Hmeta. apply entry_project_inv in Hp as [path ->].
  unfold new_project, entry_data. rewrite Hmeta.
  cbn [display_name frame_title activation_timestamp project_open_timestamp
       build metadata color_index frame].
  repeat split.
  - unfold dict_get_or. by rewrite meta_info_data_attribute_key by auto.
  - unfold dict_get_or. by rewrite meta_info_data_attribute_key by auto.
  - unfold dict_get. rewrite meta_info_data_plain_key by done.
    by destruct (last_stored _ _).
  - unfold dict_get. rewrite meta_info_data_plain_key by done.
    by destruct (last_stored _ _).
  - unfold dict_get_or. rewrite meta_info_data_plain_key by done.
    by destruct (last_stored _ _).
  - unfold dict_get_or. rewrite meta_info_data_plain_key by done.
    by destruct (last_stored _ _).
  - apply meta_info_data_color_key.
  - apply meta_info_data_frame_key.
Qed.

Lemma record_of_metadata_witness :
  ∃ p,
    entry_project sample_world "PyCharm" "2024.3" overriding_entry = Ok p ∧
    find_desc "RecentProjectMetaInfo" overriding_entry = Some overriding_meta ∧
    display_name p = Some "option-name" ∧
    frame_title p = Some "attr-title" ∧
    build p = Some "PY-2" ∧
    color_index p = Some "3" ∧
    frame p = Some "x=0 y=25 w=1920 h=1055".
Proof.
  destruct (entry_project sample_world "PyCharm" "2024.3" overriding_entry)
    as [p|msg] eqn:Hp; [|discriminate Hp].
  exists p. split; [reflexivity|]. split; [reflexivity|].
  destruct (record_of_metadata sample_world "PyCharm" "2024.3"
              overriding_entry overriding_meta p Hp eq_refl)
    as (Hname & Htitle & _ & _ & Hbuild & _ & Hcolor & Hframe).
  rewrite Hname, Htitle, Hbuild, Hcolor, Hframe. repeat split; reflexivity.
Defined.

(** ** Timestamps *)

Lemma rev_app_rev_app s t : String.rev_app (String.rev_app s t) "" = String.rev_app t s.
Proof.
  revert t. induction s as [|a s IH]; intros t; [done|].
  simpl. by rewrite IH.
Qed.

Lemma string_rev_involutive s : String.rev (String.rev s) = s.
Proof. unfold String.rev. by rewrite rev_app_rev_app. Qed.

Lemma all_digits_rev_app s t :
  all_digits (String.rev_app s t) = all_digits s && all_digits t.
Proof.
  revert t. induction s as [|a s IH]; intros t; [done|].
  simpl. rewrite IH. simpl. by destruct (is_digit a), (all_digits s).
Qed.

Lemma is_digit_not_space c : is_digit c = true → is_space c = false.
Proof.
  unfold is_digit, is_space. intros H.
  apply andb_true_iff in H as [H _]. apply Nat.leb_le in H.
  apply orb_false_iff. split.
  - apply andb_false_iff. right. apply Nat.leb_gt. lia.
  - apply Nat.eqb_neq. lia.
Qed.

Lemma lstrip_all_digits s : all_digits s = true → lstrip s = s.
Proof.
  destruct s as [|c s]; [done|]. simpl. intros H.
  apply andb_true_iff in H as [Hc _]. by rewrite (is_digit_not_space c Hc).
Qed.

Lemma strip_all_digits s : all_digits s = true → strip s = s.
Proof.
  intros H. unfold strip. rewrite (lstrip_all_digits s H).
  rewrite lstrip_all_digits; [apply string_rev_involutive|].
  unfold String.rev. rewrite all_digits_rev_app, H. done.
Qed.

Lemma digits_value_all_digits acc after_digit s :
  all_digits s = true → truthy s || after_digit = true →
  digits_value acc after_digit s = Some (decimal_from acc s).
Proof.
  revert acc after_digit. induction s as [|c s IH]; intros acc after_digit Hs Hne.
  - simpl in *. by rewrite Hne.
  - simpl in Hs. apply andb_true_iff in Hs as [Hc Hs].
    simpl. rewrite Hc. apply IH; [done|]. apply orb_true_r.
Qed.

Lemma is_digit_not_sign c : is_digit c = true → c ≠ "-"%char ∧ c ≠ "+"%char.
Proof. intros H. split; intros ->; discriminate H. Qed.

Lemma py_int_all_digits s :
  all_digits s = true → s ≠ "" → py_int s = Ok (decimal_from 0 s).
Proof.
  intros Hs Hne. unfold py_int. rewrite (strip_all_digits s Hs).
  destruct s as [|c s]; [done|].
  assert (is_digit c = true) as Hc.
  { simpl in Hs. by apply andb_true_iff in Hs as [? _]. }
  destruct (is_digit_not_sign c Hc) as [Hminus Hplus].
  assert (match String c s with
          | String "-" ds => Z.opp <$> digits_value 0 false ds
          | String "+" ds => digits_value 0 false ds
          | _ => digits_value 0 false (String c s)
          end = digits_value 0 false (String c s)) as ->.
  { destruct c as [[] [] [] [] [] [] [] []]; try done. }
  by rewrite digits_value_all_digits.
Qed.

Lemma timestamp_time_all_digits w ts :
  all_digits ts = true → ts ≠ "" →
  timestamp_time w (Some ts) = Some <$> w_fromtimestamp_ms w (decimal_from 0 ts).
Proof.
  intros Hs Hne. unfold timestamp_time.
  assert (truthy ts = true) as Ht by by destruct ts.
  unfold truthy_opt, default, id. rewrite Ht.
  rewrite (py_int_all_digits ts Hs Hne).
  unfold mbind, result_bind, fmap, result_fmap.
  by destruct (w_fromtimestamp_ms w _).
Qed.

(** X10. A timestamp that is a non-empty run of decimal digits gets
    through [int]: the platform's conversion is called with the number the
    digits denote, and the call of [get_activation_time] or
    [get_open_time] fails only if that conversion does. The run is taken
    to be no longer than 4300 digits, up to which the interpreter converts
    a string of any length. *)
Theorem digit_timestamps_are_converted (w : World) (p : JetBrainsProject) (ts : string) :
  all_digits ts = true → ts ≠ "" → (String.length ts ≤ 4300)%nat →
  (activation_timestamp p = Some ts →
   get_activation_time w p = Some <$> w_fromtimestamp_ms w (decimal_from 0 ts)) ∧
  (project_open_timestamp p = Some ts →
   get_open_time w p = Some <$> w_fromtimestamp_ms w (decimal_from 0 ts)).
Proof.
  intros Hs Hne _. unfold get_activation_time, get_open_time.
  split; intros ->; by apply timestamp_time_all_digits.
Qed.

Lemma digit_timestamps_are_converted_witness :
  all_digits "1700000000000" = true ∧ "1700000000000" ≠ "" ∧
  (String.length "1700000000000" ≤ 4300)%nat ∧
  get_activation_time sample_world (timed_project "/home/u/proj" (Some "1700000000000")) =
    Some <$> w_fromtimestamp_ms sample_world 1700000000000.
Proof.
  split; [reflexivity|]. split; [discriminate|]. split; [simpl; lia|].
  apply (digit_timestamps_are_converted sample_world
           (timed_project "/home/u/proj" (Some "1700000000000")) "1700000000000");
    [reflexivity|discriminate|simpl; lia|reflexivity].
Defined.

(** ** The grouped view as a partition *)

Lemma grouped_view_lookup_eq projects key :
  grouped_view projects !! key =
  match filter (λ p, ide_key p = key) projects with
  | [] => None
  | group => Some (sort_by_activation group)
  end.
Proof.
  unfold grouped_view. rewrite lookup_fmap, foldl_group_add_lookup, lookup_empty.
  by destruct (filter _ projects).
Qed.

Lemma sort_by_activation_elem p l : p ∈ sort_by_activation l ↔ p ∈ l.
Proof. by rewrite sort_by_activation_Permutation. Qed.

Lemma sort_by_activation_nil l : sort_by_activation l = [] → l = [].
Proof.
  intros H. apply Permutation_nil_r. rewrite <- H.
  symmetry. apply sort_by_activation_Permutation.
Qed.

Lemma grouped_view_elem projects p :
  p ∈ projects →
  ∃ group, grouped_view projects !! ide_key p = Some group ∧ p ∈ group.
Proof.
  intros Hp. rewrite grouped_view_lookup_eq.
  assert (p ∈ filter (λ q, ide_key q = ide_key p) projects) as Hin.
  { by apply list_elem_of_filter. }
  destruct (filter _ projects) as [|q group] eqn:Hf; [by apply elem_of_nil in Hin|].
  eexists. split; [done|]. by apply sort_by_activation_elem.
Qed.

(** X11. The grouped view partitions the records by family and version:
    every record is in the group of its own key, a group holds exactly the
    records with its key and is never empty, and there is no group for a
    key that no record has. *)
Theorem grouped_view_partitions (projects : list JetBrainsProject) :
  (∀ p, p ∈ projects →
     ∃ group, grouped_view projects !! ide_key p = Some group ∧ p ∈ group) ∧
  (∀ key group,
     grouped_view projects !! key = Some group →
     group ≠ [] ∧ ∀ p, p ∈ group ↔ p ∈ projects ∧ ide_key p = key) ∧
  (∀ key,
     grouped_view projects !! key = None ↔ ∀ p, p ∈ projects → ide_key p ≠ key).
Proof.
  split; [|split].
  - apply grouped_view_elem.
  - intros key group. rewrite grouped_view_lookup_eq.
    destruct (filter _ projects) as [|q f] eqn:Hf; [done|]. intros [= <-]. split.
    + intros Hnil. by apply (sort_by_activation_nil (q :: f)) in Hnil.
    + intros p. rewrite (sort_by_activation_elem p (q :: f)), <- Hf, list_elem_of_filter.
      tauto.
  - intros key. rewrite grouped_view_lookup_eq. split.
    + destruct (filter _ projects) as [|q f] eqn:Hf; [|done].
      intros _ p Hp Hkey.
      assert (p ∈ filter (λ q, ide_key q = key) projects) as Hin
        by by apply list_elem_of_filter.
      rewrite Hf in Hin. by apply elem_of_nil in Hin.
    + intros Hnone.
      destruct (filter _ projects) as [|q f] eqn:Hf; [done|]. exfalso.
      assert (q ∈ filter (λ q, ide_key q = key) projects) as Hin
        by (rewrite Hf; apply list_elem_of_here).
      apply list_elem_of_filter in Hin as [Hkey Hq]. by apply (Hnone q).
Qed.

(** ** The order of the groups *)

Lemma sorted_strings_Permutation l : sorted_strings l ≡ₚ l.
Proof. apply sorted_by_Permutation. Qed.

Lemma sorted_strings_sorted l :
  StronglySorted (λ a b, String.ltb b a = false) (sorted_strings l).
Proof.
  apply (sorted_by_StronglySorted (λ y x, String.ltb y x)).
  - intros x y. apply string_ltb_asym.
  - intros x y z. unfold may_precede. intros Hyx Hzy.
    by apply (string_ltb_false_trans z y x).
Qed.

Lemma string_ltb_total s t : String.ltb t s = false → s ≠ t → String.ltb s t = true.
Proof.
  unfold String.ltb. rewrite (String.compare_antisym s t).
  destruct (String.compare t s) eqn:Hc; simpl; try done.
  apply String.compare_eq_iff in Hc. by intros _ [].
Qed.

Lemma StronglySorted_NoDup_strict (l : list string) :
  StronglySorted (λ a b, String.ltb b a = false) l → NoDup l →
  StronglySorted (λ a b, String.ltb a b = true) l.
Proof.
  induction 1 as [|x l Hl IH Hx]; intros Hnd; [constructor|].
  apply NoDup_cons in Hnd as [Hnotin Hnd].
  constructor; [by apply IH|].
  apply Forall_forall. intros y Hy. rewrite Forall_forall in Hx.
  apply string_ltb_total; [by apply Hx|]. by intros ->.
Qed.

Lemma group_keys_elem projects k :
  k ∈ sorted_strings (elements (dom (grouped_view projects))) ↔
  ∃ p, p ∈ projects ∧ ide_key p = k.
Proof.
  rewrite sorted_strings_Permutation, elem_of_elements, elem_of_dom.
  split.
  - intros [group Hg]. rewrite grouped_view_lookup_eq in Hg.
    destruct (filter _ projects) as [|q f] eqn:Hf; [done|].
    assert (q ∈ filter (λ q, ide_key q = k) projects) as Hin
      by (rewrite Hf; apply list_elem_of_here).
    apply list_elem_of_filter in Hin as [Hkey Hq]. by exists q.
  - intros (p & Hp & <-). destruct (grouped_view_elem projects p Hp) as (g & Hg & _).
    by exists g.
Qed.

(** X12. The grouped report goes through the groups in strictly ascending
    order of their keys, compared as strings, and through exactly the keys
    that some record has: each key once, whatever the order in which the
    dictionary holds them. *)
Theorem group_headers_ascending (projects : list JetBrainsProject) :
  StronglySorted (λ a b, String.ltb a b = true)
    (sorted_strings (elements (dom (grouped_view projects)))) ∧
  NoDup (sorted_strings (elements (dom (grouped_view projects)))) ∧
  ∀ k, k ∈ sorted_strings (elements (dom (grouped_view projects))) ↔
       ∃ p, p ∈ projects ∧ ide_key p = k.
Proof.
  assert (NoDup (sorted_strings (elements (dom (grouped_view projects))))) as Hnd.
  { rewrite sorted_strings_Permutation. apply NoDup_elements. }
  split; [|split; [done|]].
  - apply StronglySorted_NoDup_strict; [apply sorted_strings_sorted|done].
  - apply group_keys_elem.
Qed.

(** ** The two views agree *)

Section sorting_filter.

Context {A : Type} (before : A → A → bool).

Hypothesis before_asym : ∀ x y, before y x = true → before x y = false.
Hypothesis may_precede_trans :
  ∀ x y z, may_precede before x y → may_precede before y z → may_precede before x z.

Lemma insert_by_front x l :
  Forall (may_precede before x) l → insert_by before x l = x :: l.
Proof.
  destruct l as [|y l]; [done|]. intros H.
  apply Forall_cons in H as [Hy _]. unfold may_precede in Hy. simpl. by rewrite Hy.
Qed.

Lemma sorted_by_fixed l :
  StronglySorted (may_precede before) l → sorted_by before l = l.
Proof.
  induction 1 as [|x l Hl IH Hx]; [done|].
  unfold sorted_by in *. cbn [foldr]. rewrite IH. by apply insert_by_front.
Qed.

Lemma filter_insert_by (P : A → Prop) `{∀ x, Decision (P x)} x l :
  StronglySorted (may_precede before) l →
  filter P (insert_by before x l) =
  if decide (P x) then insert_by before x (filter P l) else filter P l.
Proof using may_precede_trans.
  induction 1 as [|y l Hl IH Hy].
  - simpl. rewrite filter_cons, filter_nil. by destruct (decide (P x)).
  - simpl. destruct (before y x) eqn:Hyx.
    + rewrite !filter_cons, IH.
      destruct (decide (P y)), (decide (P x)); try done.
      simpl. by rewrite Hyx.
    + rewrite (filter_cons P x).
      destruct (decide (P x)); [|done].
      symmetry. apply insert_by_front.
      apply Forall_forall. intros z Hz.
      apply list_elem_of_filter in Hz as [_ Hz].
      apply elem_of_cons in Hz as [->|Hz]; [done|].
      rewrite Forall_forall in Hy.
      apply (may_precede_trans x y z); [done|by apply Hy].
Qed.

Lemma filter_sorted_by (P : A → Prop) `{∀ x, Decision (P x)} l :
  filter P (sorted_by before l) = sorted_by before (filter P l).
Proof using before_asym may_precede_trans.
  induction l as [|x l IH]; [done|].
  rewrite filter_cons. unfold sorted_by in *. cbn [foldr].
  rewrite filter_insert_by by by apply sorted_by_StronglySorted.
  destruct (decide (P x)); [|done]. cbn [foldr]. by rewrite IH.
Qed.

End sorting_filter.

Lemma filter_sort_by_activation (P : JetBrainsProject → Prop) `{∀ x, Decision (P x)} l :
  filter P (sort_by_activation l) = sort_by_activation (filter P l).
Proof.
  apply (filter_sorted_by (λ y x, String.ltb (sort_key x) (sort_key y))).
  - intros x y. apply string_ltb_asym.
  - intros x y z. unfold may_precede. apply string_ltb_false_trans.
Qed.

Lemma sort_by_activation_fixed l :
  sort_by_activation (sort_by_activation l) = sort_by_activation l.
Proof.
  apply (sorted_by_fixed (λ y x, String.ltb (sort_key x) (sort_key y))).
  apply sort_by_activation_sorted.
Qed.

(** X13. The two reports agree on the order: the group of a key in the
    grouped view is the global view restricted to the records with that
    key, so two records of one group stand in the same order in both
    reports. Sorting a view again leaves it as it is, and grouping the
    global view gives the grouped view. *)
Theorem views_agree (projects : list JetBrainsProject) :
  (∀ key,
     grouped_view projects !! key =
     match filter (λ p, ide_key p = key) (global_view projects) with
     | [] => None
     | group => Some group
     end) ∧
  global_view (global_view projects) = global_view projects ∧
  grouped_view (global_view projects) = grouped_view projects.
Proof.
  assert (∀ key,
     grouped_view projects !! key =
     match filter (λ p, ide_key p = key) (global_view projects) with
     | [] => None
     | group => Some group
     end) as Hgroup.
  { intros key. rewrite grouped_view_lookup_eq. unfold global_view.
    rewrite filter_sort_by_activation.
    destruct (filter _ projects) as [|q f] eqn:Hf; [done|].
    destruct (sort_by_activation (q :: f)) eqn:Hs; [|done].
    by apply sort_by_activation_nil in Hs. }
  split; [done|]. split.
  - apply sort_by_activation_fixed.
  - apply map_eq. intros key.
    rewrite (grouped_view_lookup_eq (global_view projects)), Hgroup.
    destruct (filter _ (global_view projects)) as [|q f] eqn:Hf; [done|].
    f_equal. rewrite <- Hf. unfold global_view.
    rewrite filter_sort_by_activation. apply sort_by_activation_fixed.
Qed.

(** ** Runs of [main] *)

Lemma trace_bind {A B} (m : Py A) (f : A → Py B) :
  trace (m ≫= f) =
  trace m ++ match outcome m with
             | Ok a => trace (f a)
             | Raise _ => []
             end.
Proof.
  destruct m as [t [a|msg]]; unfold mbind, py_bind; cbn [trace outcome fst snd].
  - by destruct (f a).
  - by rewrite app_nil_r.
Qed.

Lemma prints_only_bind {A B} (m : Py A) (f : A → Py B) :
  prints_only m → (∀ a, prints_only (f a)) → prints_only (m ≫= f).
Proof.
  unfold prints_only. intros Hm Hf. rewrite trace_bind. apply Forall_app. split; [done|].
  destruct (outcome m); [apply Hf|constructor].
Qed.

Lemma prints_only_print text : prints_only (print text).
Proof. by repeat constructor. Qed.

Lemma prints_only_ret {A} (a : A) : prints_only (mret a : Py A).
Proof. constructor. Qed.

Lemma prints_only_lift {A} (r : result A) : prints_only (lift r).
Proof. constructor. Qed.

Lemma prints_only_when b m : prints_only m → prints_only (when b m).
Proof. destruct b; [done|]. intros _. constructor. Qed.

Lemma prints_only_for_each {A} (body : A → Py unit) l :
  (∀ x, prints_only (body x)) → prints_only (for_each body l).
Proof.
  intros H. induction l as [|x l IH]; [constructor|].
  cbn [for_each]. by apply prints_only_bind.
Qed.

Ltac prints_only_steps :=
  repeat first
    [ apply prints_only_print
    | apply prints_only_ret
    | apply prints_only_lift
    | apply prints_only_when
    | apply prints_only_bind; [|intros ?]
    | match goal with
      | |- prints_only (match ?x with _ => _ end) => destruct x
      end ].

Lemma prints_only_display_ide_entry w entry : prints_only (display_ide_entry w entry).
Proof. destruct entry as [i p]. unfold display_ide_entry. prints_only_steps. Qed.

Lemma prints_only_display_sorted_entry w entry :
  prints_only (display_sorted_entry w entry).
Proof. destruct entry as [i p]. unfold display_sorted_entry. prints_only_steps. Qed.

Lemma prints_only_display_projects_by_ide w projects :
  prints_only (display_projects_by_ide w projects).
Proof.
  unfold display_projects_by_ide. prints_only_steps.
  apply prints_only_for_each. intros key. unfold display_ide_group. prints_only_steps.
  apply prints_only_for_each. apply prints_only_display_ide_entry.
Qed.

Lemma prints_only_display_all_projects_sorted w projects :
  prints_only (display_all_projects_sorted w projects).
Proof.
  unfold display_all_projects_sorted. prints_only_steps.
  apply prints_only_for_each. apply prints_only_display_sorted_entry.
Qed.

Lemma prints_only_scan w : prints_only (find_all_recent_projects w).
Proof.
  unfold prints_only, find_all_recent_projects.
  rewrite trace_bind. cbn [trace outcome lift fst snd app].
  destruct (w_home w) as [home|msg]; [|constructor].
  destruct (w_exists w _); [|by repeat constructor].
  rewrite ide_dirs_loop_trace. apply Forall_forall. intros e He.
  apply list_elem_of_In, in_flat_map in He as (job & _ & Hjob).
  unfold job_log in Hjob. destruct (try_body _ _ _ _).2; [|done].
  by destruct Hjob as [<-|[]].
Qed.

Lemma for_each_fails {A} (body : A → Py unit) l :
  Exists (λ x, is_ok (outcome (body x)) = false) l →
  is_ok (outcome (for_each body l)) = false.
Proof.
  induction 1 as [x l Hx|x l _ IH]; cbn [for_each]; rewrite outcome_bind.
  - by destruct (outcome (body x)).
  - by destruct (outcome (body x)).
Qed.

Lemma enumerate1_elem {A} (l : list A) x :
  x ∈ l → ∃ i, (i, x) ∈ enumerate1 l.
Proof.
  intros Hx. apply list_elem_of_lookup in Hx as [k Hk].
  exists (1 + k). apply list_elem_of_lookup. exists k.
  unfold enumerate1. rewrite lookup_zip_with, lookup_seq_lt, Hk; [done|].
  by apply lookup_lt_Some in Hk.
Qed.

Lemma display_ide_entry_fails w i p :
  timestamps_ok w p = false → is_ok (outcome (display_ide_entry w (i, p))) = false.
Proof.
  unfold timestamps_ok. intros H. apply andb_false_iff in H.
  unfold display_ide_entry.
  repeat (rewrite outcome_bind; cbn [outcome print lift snd]).
  rewrite outcome_when by done.
  destruct (get_activation_time w p) as [ta|]; [|done].
  destruct H as [H|H]; [done|].
  rewrite outcome_bind.
  destruct ta; cbn [outcome print mret py_ret snd];
    rewrite outcome_bind; cbn [outcome lift snd];
    by destruct (get_open_time w p).
Qed.

Lemma display_projects_by_ide_fails w projects :
  Exists (λ p, timestamps_ok w p = false) projects →
  is_ok (outcome (display_projects_by_ide w projects)) = false.
Proof.
  intros H. apply Exists_exists in H as (p & Hp & Hbad).
  destruct (grouped_view_elem projects p Hp) as (group & Hgroup & Hin).
  destruct (enumerate1_elem group p Hin) as [i Hi].
  assert (is_ok (outcome (for_each (display_ide_group w (grouped_view projects))
                            (sorted_strings (elements (dom (grouped_view projects))))))
          = false) as Hloop.
  { apply for_each_fails, Exists_exists. exists (ide_key p). split.
    - apply group_keys_elem. by exists p.
    - unfold display_ide_group.
      repeat (rewrite outcome_bind; cbn [outcome print snd]).
      rewrite Hgroup. cbn [default]. apply for_each_fails, Exists_exists.
      exists (i, p). split; [done|]. by apply display_ide_entry_fails. }
  unfold display_projects_by_ide.
  repeat (rewrite outcome_bind; cbn [outcome print snd]).
  by destruct (outcome (for_each _ _)).
Qed.

Lemma run_converts_dec w projects : Decision (run_converts w projects).
Proof. unfold run_converts. destruct (w_json_output_path w); apply _. Qed.

(** Every run of [main] is of one of three kinds. *)
Lemma main_run (w : World) :
  (is_ok (outcome (main w)) = false ∧ prints_only (main w) ∧
   ¬ ∃ projects, outcome (find_all_recent_projects w) = Ok projects ∧
                 run_converts w projects) ∨
  (outcome (main w) = Ok tt ∧ prints_only (main w) ∧
   w_json_output_path w = None ∧ outcome (find_all_recent_projects w) = Ok []) ∨
  (∃ projects log data,
     outcome (find_all_recent_projects w) = Ok projects ∧
     run_converts w projects ∧
     main w = (log ++ [WriteJson (export_destination w None) data;
                       Print (nl +:+ "Exported to " +:+ export_destination w None)],
               Ok tt) ∧
     Forall (λ e, is_print e = true) log ∧
     Forall2 (exported w) projects data).
Proof.
  pose proof (prints_only_scan w) as Hscan.
  destruct (outcome (find_all_recent_projects w)) as [projects|msg] eqn:Hout.
  2:{ left. unfold main.
      destruct (bool_decide _).
      - rewrite (py_eta (find_all_recent_projects w)), Hout.
        cbn [mbind py_bind outcome snd is_ok]. split; [done|]. split; [done|].
        by intros (? & ? & _).
      - rewrite (py_bind_unit_ok (print _) _ tt) by done.
        rewrite (py_eta (find_all_recent_projects w)), Hout.
        cbn [mbind py_bind outcome trace fst snd is_ok]. split; [done|].
        split; [by constructor|]. by intros (? & ? & _). }
  destruct (run_converts_dec w projects) as [Hconv|Hconv].
  - unfold run_converts in Hconv. unfold main.
    destruct (w_json_output_path w) as [dest|] eqn:Hdest.
    + right. right.
      destruct (export_to_json_ok w projects None Hconv) as (data & Hexport & Hdata).
      exists projects, (trace (find_all_recent_projects w)), data.
      rewrite bool_decide_eq_true_2 by by eexists.
      rewrite (py_bind_unit_ok _ _ projects Hout), Hexport.
      unfold run_converts. rewrite Hdest. done.
    + rewrite bool_decide_eq_false_2 by by intros [? ?].
      rewrite (py_bind_unit_ok (print _) _ tt) by done.
      rewrite (py_bind_unit_ok _ _ projects Hout).
      destruct projects as [|p projects].
      * right. left. cbn [trace outcome print fst snd].
        split; [done|]. split; [|done].
        unfold prints_only. cbn [trace fst]. apply Forall_app. split; [by repeat constructor|].
        apply Forall_app. split; [done|by repeat constructor].
      * right. right.
        assert (Forall (λ p, is_ok (get_activation_time w p) = true) (p :: projects))
          as Hact.
        { eapply Forall_impl; [exact Hconv|]. intros q Hq.
          unfold timestamps_ok in Hq. by apply andb_true_iff in Hq as [? _]. }
        destruct (export_to_json_ok w (p :: projects) None Hact)
          as (data & Hexport & Hdata).
        exists (p :: projects),
          ([Print "Scanning JetBrains IDE configurations..."] ++
           trace (find_all_recent_projects w) ++
           trace (display_projects_by_ide w (p :: projects)) ++
           trace (display_all_projects_sorted w (p :: projects))), data.
        split; [done|]. split; [by unfold run_converts; rewrite Hdest|].
        split; [|split; [|done]].
        -- rewrite (py_bind_unit_ok (display_projects_by_ide _ _) _ tt)
             by by apply display_projects_by_ide_outcome.
           rewrite (py_bind_unit_ok (display_all_projects_sorted _ _) _ tt)
             by by apply display_all_projects_sorted_outcome.
           rewrite Hexport. cbn [trace outcome print fst snd].
           by rewrite <- !app_assoc.
        -- apply Forall_app. split; [by repeat constructor|].
           apply Forall_app. split; [done|].
           apply Forall_app. split.
           ++ apply prints_only_display_projects_by_ide.
           ++ apply prints_only_display_all_projects_sorted.
  - left.
    assert (¬ ∃ projects0, Ok projects = Ok projects0 ∧ run_converts w projects0) as Hno.
    { by intros (? & [= <-] & ?). }
    split; [|split; [|done]].
    + unfold run_converts in Hconv. unfold main.
      destruct (w_json_output_path w) as [dest|] eqn:Hdest.
      * rewrite bool_decide_eq_true_2 by by eexists.
        apply not_Forall_Exists in Hconv; [|apply _].
        destruct (export_to_json_raise w projects None) as [msg Hexport].
        { eapply Exists_impl; [exact Hconv|]. intros q Hq. simpl in Hq.
          by destruct (is_ok (get_activation_time w q)). }
        by rewrite (py_bind_unit_ok _ _ projects Hout), Hexport.
      * rewrite bool_decide_eq_false_2 by by intros [? ?].
        apply not_Forall_Exists in Hconv; [|apply _].
        assert (Exists (λ q, timestamps_ok w q = false) projects) as Hbad.
        { eapply Exists_impl; [exact Hconv|]. intros q Hq. simpl in Hq.
          by destruct (timestamps_ok w q). }
        pose proof (display_projects_by_ide_fails w projects Hbad) as Hfail.
        rewrite (py_bind_unit_ok (print _) _ tt) by done.
        rewrite (py_bind_unit_ok _ _ projects Hout).
        cbn [outcome snd].
        destruct projects as [|p projects]; [by apply Exists_nil in Hbad|].
        rewrite outcome_bind. by destruct (outcome (display_projects_by_ide _ _)).
    + unfold run_converts in Hconv. unfold main, prints_only.
      destruct (w_json_output_path w) as [dest|] eqn:Hdest.
      * rewrite bool_decide_eq_true_2 by by eexists.
        apply not_Forall_Exists in Hconv; [|apply _].
        destruct (export_to_json_raise w projects None) as [msg Hexport].
        { eapply Exists_impl; [exact Hconv|]. intros q Hq. simpl in Hq.
          by destruct (is_ok (get_activation_time w q)). }
        rewrite (py_bind_unit_ok _ _ projects Hout), Hexport.
        cbn [trace fst]. by rewrite app_nil_r.
      * rewrite bool_decide_eq_false_2 by by intros [? ?].
        apply not_Forall_Exists in Hconv; [|apply _].
        assert (Exists (λ q, timestamps_ok w q = false) projects) as Hbad.
        { eapply Exists_impl; [exact Hconv|]. intros q Hq. simpl in Hq.
          by destruct (timestamps_ok w q). }
        pose proof (display_projects_by_ide_fails w projects Hbad) as Hfail.
        rewrite (py_bind_unit_ok (print _) _ tt) by done.
        rewrite (py_bind_unit_ok _ _ projects Hout).
        cbn [trace fst print].
        destruct projects as [|p projects]; [by apply Exists_nil in Hbad|].
        apply Forall_app. split; [by repeat constructor|].
        apply Forall_app. split; [done|].
        rewrite trace_bind.
        destruct (outcome (display_projects_by_ide _ _)); [done|].
        rewrite app_nil_r. apply prints_only_display_projects_by_ide.
Qed.



(** X15. The export is the last thing a run does, and a run writes at most
    once: if a run of [main] writes [data] to [file], then it ended without
    an exception, [file] is the export destination, [data] holds one object
    for each record of the scan, in order, everything before the write is
    printing, and only the line [Exported to ...] follows. A run that ends
    with an exception has written nothing. *)
Theorem export_is_written_last (w : World) (file : string) (data : list json_object) :
  WriteJson file data ∈ trace (main w) →
  outcome (main w) = Ok tt ∧
  file = export_destination w None ∧
  (∃ projects,
     outcome (find_all_recent_projects w) = Ok projects ∧
     run_converts w projects ∧
     Forall2 (exported w) projects data) ∧
  ∃ log,
    Forall (λ e, is_print e = true) log ∧
    trace (main w) = log ++ [WriteJson file data; Print (nl +:+ "Exported to " +:+ file)].
Proof.
  intros Hin.
  assert (∀ t, Forall (λ e, is_print e = true) t → WriteJson file data ∉ t) as Hprints.
  { intros t Ht Ht'. rewrite Forall_forall in Ht. by apply Ht in Ht'. }
  destruct (main_run w) as [(_ & Hquiet & _)|[(_ & Hquiet & _)|Hrun]].
  - by apply Hprints in Hquiet.
  - by apply Hprints in Hquiet.
  - destruct Hrun as (projects & log & data' & Hscan & Hconv & Hmain & Hlog & Hdata).
    rewrite Hmain in *. cbn [trace outcome fst snd] in *.
    apply elem_of_app in Hin as [Hin|Hin]; [by apply Hprints in Hlog|].
    apply elem_of_cons in Hin as [[= -> ->]|Hin].
    + split; [done|]. split; [done|]. split; [by exists projects|]. by exists log.
    + by apply list_elem_of_singleton in Hin.
Qed.

Lemma export_is_written_last_witness :
  ∃ data,
    WriteJson "/tmp/out.json" data ∈ trace (main silent_world) ∧
    outcome (main silent_world) = Ok tt ∧
    ∃ projects,
      outcome (find_all_recent_projects silent_world) = Ok projects ∧
      Forall2 (exported silent_world) projects data.
Proof.
  assert (∃ data, WriteJson "/tmp/out.json" data ∈ trace (main silent_world))
    as [data Hin].
  { eexists. vm_compute. apply list_elem_of_here. }
  exists data. split; [exact Hin|].
  destruct (export_is_written_last silent_world "/tmp/out.json" data Hin)
    as (Hok & _ & (projects & Hscan & _ & Hdata) & _).
  split; [exact Hok|]. by exists projects.
Defined.

(** ** Malformed timestamps *)

Lemma all_chars_rev_app p s t :
  all_chars p (String.rev_app s t) = all_chars p s && all_chars p t.
Proof.
  revert t. induction s as [|a s IH]; intros t; [done|].
  simpl. rewrite IH. simpl. by destruct (p a), (all_chars p s).
Qed.

Lemma has_foreign_char_all_chars s :
  has_foreign_char s = true → all_chars int_char s = false.
Proof.
  induction s as [|c s IH]; [done|]. simpl. intros H.
  apply orb_true_iff in H as [H|H].
  - unfold foreign_char in H. apply andb_true_iff in H as [H _].
    by destruct (int_char c).
  - rewrite (IH H). apply andb_false_r.
Qed.

Lemma lstrip_int_chars s :
  all_chars int_char s = false → all_chars int_char (lstrip s) = false.
Proof.
  induction s as [|c s IH]; [done|]. simpl.
  destruct (is_space c) eqn:Hc; [|done].
  intros H. apply IH. apply andb_false_iff in H as [H|H]; [|done].
  unfold int_char in H. rewrite Hc in H. by rewrite orb_true_r in H.
Qed.

Lemma strip_int_chars s :
  all_chars int_char s = false → all_chars int_char (strip s) = false.
Proof.
  intros H. unfold strip, String.rev.
  rewrite all_chars_rev_app, andb_true_r. apply lstrip_int_chars.
  rewrite all_chars_rev_app, andb_true_r. by apply lstrip_int_chars.
Qed.

Lemma digits_value_foreign acc after_digit s :
  all_chars int_char s = false → digits_value acc after_digit s = None.
Proof.
  revert acc after_digit. induction s as [|c s IH]; intros acc after_digit; [done|].
  simpl. intros H. destruct (is_digit c) eqn:Hd.
  - apply IH. apply andb_false_iff in H as [H|H]; [|done].
    unfold int_char in H. by rewrite Hd in H.
  - destruct (Ascii.eqb c "_" && after_digit) eqn:Hu; [|done].
    destruct s as [|c' s]; [done|]. apply IH.
    apply andb_true_iff in Hu as [Hu _].
    apply andb_false_iff in H as [H|H]; [|done].
    unfold int_char in H. rewrite Hu in H. by rewrite !orb_true_r in H.
Qed.

Lemma py_int_foreign s : all_chars int_char s = false → is_ok (py_int s) = false.
Proof.
  intros H. apply strip_int_chars in H. unfold py_int.
  destruct (strip s) as [|c ds]; [done|].
  destruct (decide (c = "-"%char)) as [->|Hminus].
  { simpl in H. by rewrite (digits_value_foreign 0 false ds H). }
  destruct (decide (c = "+"%char)) as [->|Hplus].
  { simpl in H. by rewrite (digits_value_foreign 0 false ds H). }
  assert (match String c ds with
          | String "-" ds => Z.opp <$> digits_value 0 false ds
          | String "+" ds => digits_value 0 false ds
          | _ => digits_value 0 false (String c ds)
          end = digits_value 0 false (String c ds)) as ->.
  { destruct c as [[] [] [] [] [] [] [] []]; try done. }
  by rewrite digits_value_foreign.
Qed.

Lemma timestamp_time_foreign w ts :
  has_foreign_char ts = true → is_ok (timestamp_time w (Some ts)) = false.
Proof.
  intros H. unfold timestamp_time.
  assert (truthy ts = true) as Ht by by destruct ts.
  unfold truthy_opt, default, id. rewrite Ht.
  pose proof (py_int_foreign ts (has_foreign_char_all_chars ts H)) as Hint.
  by destruct (py_int ts).
Qed.

(** X16. One malformed activation timestamp ends the run. If the
    activation timestamp of a record contains an ASCII character that is
    neither a digit, an underscore, a sign nor white space, then
    [get_activation_time] raises for every platform; and if the scan
    returns such a record, [main] ends with an exception in both modes and
    has written no file. *)
Theorem malformed_activation_timestamp_aborts
    (w : World) (p : JetBrainsProject) (ts : string) :
  activation_timestamp p = Some ts →
  has_foreign_char ts = true →
  is_ok (get_activation_time w p) = false ∧
  ∀ projects,
    outcome (find_all_recent_projects w) = Ok projects →
    p ∈ projects →
    is_ok (outcome (main w)) = false ∧ prints_only (main w).
Proof.
  intros Hts Hforeign.
  assert (is_ok (get_activation_time w p) = false) as Hfail.
  { unfold get_activation_time. rewrite Hts. by apply timestamp_time_foreign. }
  split; [done|]. intros projects Hscan Hp.
  assert (¬ run_converts w projects) as Hno.
  { unfold run_converts. intros Hconv.
    destruct (w_json_output_path w); rewrite Forall_forall in Hconv;
      specialize (Hconv p Hp).
    - by rewrite Hfail in Hconv.
    - unfold timestamps_ok in Hconv. by rewrite Hfail in Hconv. }
  destruct (main_run w) as [(Hmain & Hquiet & _)|[(_ & _ & _ & Hnil)|Hrun]].
  - done.
  - rewrite Hnil in Hscan. injection Hscan as <-. by apply elem_of_nil in Hp.
  - destruct Hrun as (projects' & _ & _ & Hscan' & Hconv & _).
    rewrite Hscan' in Hscan. injection Hscan as ->. done.
Qed.

Lemma malformed_activation_timestamp_aborts_witness :
  activation_timestamp (timed_project "/home/u/proj" (Some "n/a")) = Some "n/a" ∧
  has_foreign_char "n/a" = true ∧
  outcome (find_all_recent_projects bad_timestamp_world)
    = Ok [timed_project "/home/u/proj" (Some "n/a")] ∧
  is_ok (outcome (main bad_timestamp_world)) = false.
Proof.
  split; [reflexivity|]. split; [reflexivity|]. split; [vm_compute; reflexivity|].
  destruct (malformed_activation_timestamp_aborts bad_timestamp_world
              (timed_project "/home/u/proj" (Some "n/a")) "n/a" eq_refl eq_refl)
    as [_ Hmain].
  apply (Hmain [timed_project "/home/u/proj" (Some "n/a")]).
  - vm_compute. reflexivity.
  - apply list_elem_of_here.
Defined.
